(** * Verification of the toku card store (CardStore.ts, NoteStore.ts)

    A shallow embedding of the storage and synchronisation layer:
    identifier generation, the map functions behind the three listings,
    creation of the Card/Progress pair, the live-sync callbacks and the
    conflict-resolution policies.

    Conventions.
    - JavaScript integers (timestamps in milliseconds, levels, sequence
      numbers) are [Z].
    - A JavaScript string is a sequence of UTF-16 code units.  It is
      represented by the [string] of its code units, one character for one
      code unit; the strings covered are therefore those whose code units
      are below 256 (U+0000 to U+00FF), which include every prefix and
      identifier the code produces.  On them [String.compare] is the
      code-unit order by which JavaScript and the database compare strings.
    - Keys emitted by the overdueness view are JavaScript numbers computed
      with [Math.exp].  A number is represented by the real number ([R]) it
      stands for: rounding is not represented.  Overflow is: a value
      outside the range of the finite numbers is [Infinity], which the view
      stores as the key [null].
    - The database is a finite map from document id to stored document. *)

From Stdlib Require Import ZArith List String Ascii Bool Lia Sorted Permutation.
From Stdlib Require Import QArith Reals Lra.
From stdpp Require Import base option list gmap strings sorting.

Import ListNotations.
Local Open Scope Z_scope.

(* ===================================================================== *)
(** * JavaScript string primitives used by the store                       *)
(* ===================================================================== *)

Module JS.

(** [s.startsWith(p)] *)
Definition startsWith (p s : string) : bool := String.prefix p s.

(** [s.substr(n)]: the tail of [s] from position [n]. *)
Definition substr (n : nat) (s : string) : string :=
  String.substring n (String.length s - n) s.

(** [s.slice(-k)]: the last [k] characters, or all of [s] when it is
    shorter than [k]. *)
Definition slice_last (k : nat) (s : string) : string :=
  String.substring (String.length s - k) k s.

Definition digits36 : string := "0123456789abcdefghijklmnopqrstuvwxyz".

Definition digit36 (d : Z) : ascii :=
  match String.get (Z.to_nat d) digits36 with
  | Some c => c
  | None => "0"%char
  end.

(** Digits of a positive number, most significant first, pushed in front
    of [acc]. *)
Fixpoint toString36_aux (fuel : nat) (n : Z) (acc : string) : string :=
  match fuel with
  | O => acc
  | S fuel' =>
      let acc' := String (digit36 (n mod 36)) acc in
      if n / 36 =? 0 then acc' else toString36_aux fuel' (n / 36) acc'
  end.

(** [n.toString(36)] for an integer [n]. *)
Definition toString36 (n : Z) : string :=
  if n =? 0 then "0"%string
  else if n <? 0
       then String "-"%char
              (toString36_aux (S (Z.to_nat (Z.log2 (- n)))) (- n) EmptyString)
       else toString36_aux (S (Z.to_nat (Z.log2 n))) n EmptyString.

(** The [<] of JavaScript on two strings. *)
Definition str_lt (a b : string) : bool := String.ltb a b.

End JS.

(* ===================================================================== *)
(** * Identifier generator                                                 *)
(* ===================================================================== *)

Module IdGen.

(** [Date.UTC(2016, 0, 1)] *)
Definition EPOCH_2016 : Z := 1451606400000.

(** [CardStore.generateCardId].  [now] is the reading of [Date.now()],
    [rnd] the value of [Math.floor(Math.random() * 46656)] and [prev] the
    module-level [prevTimeStamp].  Returns the identifier and the new
    value of [prevTimeStamp]. *)
Definition generateCardId (now rnd prev : Z) : string * Z :=
  let timestamp := now - EPOCH_2016 in
  let timestamp := if timestamp <=? prev then prev + 1 else timestamp in
  let id :=
    String.append
      (JS.slice_last 8 (String "0"%char (JS.toString36 timestamp)))
      (JS.slice_last 3 (String.append "00" (JS.toString36 rnd))) in
  (id, timestamp).

(** A sequence of calls within one process: the counter is threaded
    through, every call reads its own clock and random value. *)
Fixpoint generateMany (prev : Z) (inputs : list (Z * Z)) : list string * Z :=
  match inputs with
  | [] => ([], prev)
  | (now, rnd) :: rest =>
      let '(id, prev') := generateCardId now rnd prev in
      let '(ids, last) := generateMany prev' rest in
      (id :: ids, last)
  end.

End IdGen.

(* ===================================================================== *)
(** * Documents and the backing store                                      *)
(* ===================================================================== *)

Module Pouch.

(** Errors of the backing store: [err.status] and [err.reason]. *)
Record PouchError := mkErr { status : option Z; reason : string }.

Definition conflict409 : PouchError := mkErr (Some 409) "Document update conflict".
Definition missing404 : PouchError := mkErr (Some 404) "missing".

Inductive Result (A : Type) : Type :=
| Ok (a : A)
| Throw (e : PouchError).
Arguments Ok {A} a.
Arguments Throw {A} e.

(** A JavaScript value read from a field that holds a number, [null], or
    is absent. *)
Inductive JSVal := Undefined | Null | Num (z : Z).

(** [CardRecord] without [_id] and [_rev].  [created] and [modified] are
    ISO date strings in the code; each is represented by the instant (in
    milliseconds) it denotes. *)
Record CardRecord := mkCard
  { question : string; answer : string; created : Z; modified : Z }.

(** [ProgressRecord] without [_id] and [_rev]. *)
Record ProgressRecord := mkProgress
  { level : Z; reviewed : option Z }.

(** [ReviewRecord] without [_id] and [_rev]. *)
Record ReviewRecord := mkReview
  { reviewTime : Z;
    maxCards : Z;
    maxNewCards : Z;
    completed : Z;
    newCardsCompleted : Z;
    history : list string;
    failedCardsLevel1 : list string;
    failedCardsLevel2 : list string }.

(** [RecordTypes], plus every other document the database may hold
    (design documents, notes). *)
Inductive Body :=
| BCard (c : CardRecord)
| BProgress (p : ProgressRecord)
| BReview (r : ReviewRecord)
| BOther.

(** [doc.level] and [doc.reviewed] as the map functions read them. *)
Definition doc_level (b : Body) : JSVal :=
  match b with BProgress p => Num (level p) | _ => Undefined end.

Definition doc_reviewed (b : Body) : JSVal :=
  match b with
  | BProgress p => match reviewed p with Some r => Num r | None => Null end
  | _ => Undefined
  end.

(** A stored document: current revision token, content, and the contents
    of the losing revisions the store still reports as conflicts. *)
Record Stored := mkStored
  { rev : nat; body : Body; conflicts : list Body }.

(** What the environment decides: which database requests fail for a
    reason of its own (I/O, quota, network), what the clock and the random
    generator return, and the update sequence of each remote ([None]: the
    remote cannot be reached). *)
Record Env := mkEnv
  { faultAt : nat -> option PouchError;
    nowAt : nat -> Z;
    randomAt : nat -> Z;
    remoteSeq : string -> option Z }.

End Pouch.

(* ===================================================================== *)
(** * The card store                                                       *)
(* ===================================================================== *)

Module CardStore.
Import Pouch.

Definition CARD_PREFIX : string := "card-".
Definition PROGRESS_PREFIX : string := "progress-".
Definition REVIEW_PREFIX : string := "review-".

Definition stripCardPrefix (id : string) : string :=
  JS.substr (String.length CARD_PREFIX) id.
Definition stripProgressPrefix (id : string) : string :=
  JS.substr (String.length PROGRESS_PREFIX) id.

(** ** Client-side values *)

(** [Progress]: the level as read from the view row, the review date or
    [null]. *)
Record Progress := mkProgressView
  { p_level : JSVal; p_reviewed : option Z }.

(** [Card]: identifier without prefix, the fields of the card document,
    and its progress. *)
Record Card := mkCardView
  { c_id : string; c_doc : Body; c_progress : Progress }.

(** [parseProgress]: a falsy [reviewed] (absent, [null] or [0]) becomes
    [null], any other number a date. *)
Definition parseProgress (lvl rvw : JSVal) : Progress :=
  {| p_level := lvl;
     p_reviewed := match rvw with
                   | Num r => if r =? 0 then None else Some r
                   | _ => None
                   end |}.

(** [mergeRecords] *)
Definition mergeRecords (id : string) (card : Body) (progress : Body) : Card :=
  {| c_id := stripCardPrefix id;
     c_doc := card;
     c_progress := parseProgress (doc_level progress) (doc_reviewed progress) |}.

(** ** Map functions *)

(** A key stored by a view: [null], a number or a string.  [null]
    collates before the numbers, and numbers before strings. *)
Inductive Key := KNull | KNum (r : R) | KStr (s : string).

(** The value every view emits: [{ _id, progress: { level, reviewed } }]. *)
Record Emitted := mkEmitted
  { e_id : string; e_level : JSVal; e_reviewed : JSVal }.

Definition is_null (v : JSVal) : bool :=
  match v with Null => true | _ => false end.

Definition linked_card (id : string) : string :=
  String.append CARD_PREFIX (stripProgressPrefix id).

(** [cardMapFunction] *)
Definition cardMapFunction (id : string) (doc : Body) : list (Key * Emitted) :=
  if negb (JS.startsWith PROGRESS_PREFIX id) then []
  else [(KStr id, mkEmitted (linked_card id) (doc_level doc) (doc_reviewed doc))].

(** [newCardMapFunction] *)
Definition newCardMapFunction (id : string) (doc : Body) : list (Key * Emitted) :=
  if negb (JS.startsWith PROGRESS_PREFIX id) || negb (is_null (doc_reviewed doc))
  then []
  else [(KStr id, mkEmitted (linked_card id) (doc_level doc) (doc_reviewed doc))].

Definition MS_PER_DAY : Z := 1000 * 60 * 60 * 24.
Definition EXP_FACTOR : R := 0.00225%R.

(** [Number.MAX_VALUE] = (2 - 2^-52) * 2^1023 and
    [Number.MAX_SAFE_INTEGER] = 2^53 - 1. *)
Definition MAX_VALUE : Z := 2 ^ 1024 - 2 ^ 971.
Definition MAX_SAFE_INTEGER : Z := 2 ^ 53 - 1.

(** The score of a reviewed card of non-zero level: the value the
    computation stands for, before it is stored as a key ([number_key]
    below accounts for its overflow). *)
Definition overdueValue (reviewTime lvl rvw : Z) : R :=
  let daysDiff := ((IZR reviewTime - IZR rvw) / IZR MS_PER_DAY)%R in
  let daysOverdue := (daysDiff - IZR lvl)%R in
  let linearComponent := (daysOverdue / IZR lvl)%R in
  let expComponent := (exp (EXP_FACTOR * daysOverdue) - 1)%R in
  (linearComponent + expComponent)%R.

(** A number emitted as a key.  [Infinity] and [-Infinity] are stored as
    [null]; the number computed is infinite when its value lies outside
    the range of the finite numbers, which ends at [Number.MAX_VALUE]. *)
Definition number_key (x : R) : Key :=
  if Rle_dec (- IZR MAX_VALUE) x
  then if Rle_dec x (IZR MAX_VALUE) then KNum x else KNull
  else KNull.

(** [getOverduenessFunction(reviewTime)] *)
Definition overduenessFunction (reviewTime : Z) (id : string) (doc : Body)
  : list (Key * Emitted) :=
  if negb (JS.startsWith PROGRESS_PREFIX id) then []
  else
    match doc_level doc, doc_reviewed doc with
    | Num lvl, Num rvw =>
        if lvl =? 0
        then [(KNum (IZR MAX_VALUE),
               mkEmitted (linked_card id) (Num 0) (Num rvw))]
        else [(number_key (overdueValue reviewTime lvl rvw),
               mkEmitted (linked_card id) (Num lvl) (Num rvw))]
    | _, _ => []
    end.

(** ** Querying a view *)

(** A row of a view: the document that emitted it, the key and the
    value. *)
Record Row := mkRow { r_docid : string; r_key : Key; r_value : Emitted }.

(** Collation of keys. *)
Definition key_le (a b : Key) : Prop :=
  match a, b with
  | KNull, _ => True
  | _, KNull => False
  | KNum x, KNum y => (x <= y)%R
  | KNum _, KStr _ => True
  | KStr _, KNum _ => False
  | KStr s, KStr t => String.leb s t = true
  end.

#[export] Instance key_le_dec : RelDecision key_le.
Proof.
  intros [|x|s] [|y|t]; simpl.
  - left; exact I.
  - left; exact I.
  - left; exact I.
  - right; intros [].
  - destruct (Rle_dec x y); [left|right]; assumption.
  - left; exact I.
  - right; intros [].
  - right; intros [].
  - destruct (String.leb s t); [left; reflexivity | right; discriminate].
Defined.

(** Rows are ordered by key, then by the id of the emitting document. *)
Definition row_le (a b : Row) : Prop :=
  key_le (r_key a) (r_key b) /\
  (key_le (r_key b) (r_key a) -> String.leb (r_docid a) (r_docid b) = true).

#[export] Instance row_le_dec : RelDecision row_le.
Proof.
  intros a b. unfold row_le.
  destruct (decide (key_le (r_key a) (r_key b))) as [Hab|Hab].
  - destruct (decide (key_le (r_key b) (r_key a))) as [Hba|Hba].
    + destruct (String.leb (r_docid a) (r_docid b)) eqn:E.
      * left; split; [assumption | reflexivity].
      * right; intros [_ H]; specialize (H Hba); discriminate.
    + left; split; [assumption | intros H; contradiction].
  - right; intros [H _]; contradiction.
Defined.

Definition MapFunction : Type := string -> Body -> list (Key * Emitted).

(** The rows of a view over a database, in ascending order. *)
Definition view_rows (mapFn : MapFunction) (db : gmap string Stored) : list Row :=
  merge_sort row_le
    (mbind (fun '(id, d) =>
              fmap (M:=list) (fun '(k, v) => mkRow id k v) (mapFn id (body d)))
       (map_to_list db)).

(** The options [getCards] passes to [db.query] ([include_docs] is always
    set). *)
Record QueryOptions := mkQuery
  { descending : bool;
    q_limit : option nat;
    startkey : option Key;
    endkey : option Key }.

Definition key_within (lo hi : option Key) (k : Key) : bool :=
  match lo with Some l => bool_decide (key_le l k) | None => true end
  && match hi with Some h => bool_decide (key_le k h) | None => true end.

(** [db.query(view, options)] with [include_docs], as the backing store
    documents it: the rows of the view in the requested order, restricted
    to the key range (both ends inclusive) and the limit, each with the
    document its value links to ([None] when that document does not
    exist). *)
Definition query (mapFn : MapFunction) (db : gmap string Stored)
    (o : QueryOptions) : list (Row * option Stored) :=
  let rows := view_rows mapFn db in
  let rows := if descending o then reverse rows else rows in
  let '(lo, hi) := if descending o then (endkey o, startkey o)
                   else (startkey o, endkey o) in
  let rows := List.filter (fun r => key_within lo hi (r_key r)) rows in
  let rows := match q_limit o with Some n => take n rows | None => rows end in
  List.map (fun r => (r, db !! e_id (r_value r))) rows.

Inductive CardsType := AllCards | NewCards | OverdueCards.

(** [GetCardsOptions] *)
Record GetCardsOptions := mkGetCards
  { limit : option nat; type : CardsType; skipFailedCards : bool }.

(** [getCards].  [reviewTime] is the reference time the overdueness view
    was registered with. *)
Definition getCards (reviewTime : Z) (db : gmap string Stored)
    (options : GetCardsOptions) : list Card :=
  let queryOptions := mkQuery true (limit options) None None in
  let '(view, queryOptions) :=
    match type options with
    | NewCards => (newCardMapFunction, queryOptions)
    | OverdueCards =>
        (overduenessFunction reviewTime,
         mkQuery true (limit options)
           (if skipFailedCards options
            then Some (KNum (IZR MAX_SAFE_INTEGER)) else None)
           (Some (KNum 0%R)))
    | AllCards => (cardMapFunction, queryOptions)
    end in
  let result := query view db queryOptions in
  omap (fun '(row, doc) =>
          match doc with
          | Some d =>
              Some {| c_id := stripCardPrefix (e_id (r_value row));
                      c_doc := body d;
                      c_progress := parseProgress (e_level (r_value row))
                                      (e_reviewed (r_value row)) |}
          | None => None
          end) result.

(** ** The store object and its operations *)

(** [SyncOptions]: which callbacks the caller supplied, and the
    settings. *)
Record SyncOptions := mkSyncOptions
  { onProgress : bool;
    onIdle : bool;
    onActive : bool;
    onError : bool;
    username : option string;
    password : option string;
    batchSize : option Z }.

(** What one call of [setSyncServer] leaves behind in the closures of the
    handlers it registers: the captured name of the remote, the options,
    and the two sequence numbers of the initial sync. *)
Record Session := mkSession
  { originalDbName : string;
    options : option SyncOptions;
    localUpdateSeq : option Z;
    remoteUpdateSeq : option Z }.

(** Calls that leave the store: callbacks of the caller, and requests to
    the conflict-resolution plug-in.  The number is the session whose
    handler made the call. *)
Inductive Effect :=
| CallOnProgress (sid : nat) (progress : option Q)
| CallOnIdle (sid : nat)
| CallOnActive (sid : nat)
| CallOnError (sid : nat) (e : PouchError)
| ReportErrorAsync (e : PouchError)
| ResolveConflicts (id : string) (current : Body) (losing : list Body).

Record Store := mkStore
  { db : gmap string Stored;
    update_seq : Z;
    requests : nat;      (* database requests issued so far *)
    reads : nat;         (* clock and random readings taken so far *)
    prevTimeStamp : Z;
    remoteDb : option string;
    remoteSync : option nat;
    cancelled : list nat;
    sessions : list Session;
    log : list Effect }.

(** A committed write: the documents change and the update sequence of
    the local database advances. *)
Definition with_db (f : gmap string Stored -> gmap string Stored) (w : Store) : Store :=
  mkStore (f (db w)) (update_seq w + 1) (requests w) (reads w) (prevTimeStamp w)
    (remoteDb w) (remoteSync w) (cancelled w) (sessions w) (log w).
Definition next_request (w : Store) : Store :=
  mkStore (db w) (update_seq w) (S (requests w)) (reads w) (prevTimeStamp w)
    (remoteDb w) (remoteSync w) (cancelled w) (sessions w) (log w).
Definition next_read (w : Store) : Store :=
  mkStore (db w) (update_seq w) (requests w) (S (reads w)) (prevTimeStamp w)
    (remoteDb w) (remoteSync w) (cancelled w) (sessions w) (log w).
Definition with_prevTimeStamp (t : Z) (w : Store) : Store :=
  mkStore (db w) (update_seq w) (requests w) (reads w) t
    (remoteDb w) (remoteSync w) (cancelled w) (sessions w) (log w).
Definition with_remote (r : option string) (s : option nat) (c : list nat)
    (w : Store) : Store :=
  mkStore (db w) (update_seq w) (requests w) (reads w) (prevTimeStamp w)
    r s c (sessions w) (log w).
Definition with_sessions (ss : list Session) (w : Store) : Store :=
  mkStore (db w) (update_seq w) (requests w) (reads w) (prevTimeStamp w)
    (remoteDb w) (remoteSync w) (cancelled w) ss (log w).
Definition emit (e : Effect) (w : Store) : Store :=
  mkStore (db w) (update_seq w) (requests w) (reads w) (prevTimeStamp w)
    (remoteDb w) (remoteSync w) (cancelled w) (sessions w) (log w ++ [e]).

(** Asynchronous operations: a state transformer that returns a value or
    rejects. *)
Definition M (A : Type) : Type := Store -> Result A * Store.

Definition ret {A} (a : A) : M A := fun w => (Ok a, w).
Definition throw {A} (e : PouchError) : M A := fun w => (Throw e, w).
Definition bind {A B} (m : M A) (k : A -> M B) : M B :=
  fun w => match m w with
           | (Ok a, w') => k a w'
           | (Throw e, w') => (Throw e, w')
           end.
Definition try_catch {A} (m : M A) (h : PouchError -> M A) : M A :=
  fun w => match m w with
           | (Ok a, w') => (Ok a, w')
           | (Throw e, w') => h e w'
           end.
Definition modify (f : Store -> Store) : M unit := fun w => (Ok tt, f w).

Notation "x <- m ;; k" := (bind m (fun x => k))
  (at level 90, m at level 89, right associativity).
Notation "m ;;; k" := (bind m (fun _ => k))
  (at level 90, right associativity).

(** The events of a live synchronisation and what a [change] carries. *)
Inductive Direction := push | pull.

Record Incoming := mkIncoming
  { i_id : string; i_deleted : bool; i_body : Body }.

Record SyncResult := mkSyncResult
  { direction : Direction; docs : list Incoming; last_seq : Z }.

Inductive EventName := paused | active | error | denied.

Inductive SyncEvent :=
| EvChange (info : SyncResult)
| EvOther (evt : EventName) (err : PouchError).

(** The first argument of [setSyncServer]: a string, a database object,
    [null] or [undefined], or anything else. *)
Inductive SyncServer :=
| SrvString (s : string)
| SrvDb (name : string)
| SrvNull
| SrvOther.

(** [completeness] inside [onSyncReviewChange], and the function it hands
    to [resolveConflicts]. *)
Definition completeness (review : ReviewRecord) : Z :=
  completed review
  - Z.of_nat (List.length (failedCardsLevel2 review)) * 2
  - Z.of_nat (List.length (failedCardsLevel1 review)).

Definition resolveReview (a b : ReviewRecord) : ReviewRecord :=
  if completeness a >=? completeness b then a else b.

(** The same function on the contents of two revisions as the plug-in
    hands them over.  On a content without the lists of failed cards,
    [completeness] throws a [TypeError]. *)
Definition type_error : PouchError := mkErr None "TypeError".

Definition chooseReview (a b : Body) : Result Body :=
  match a, b with
  | BReview ra, BReview rb => Ok (BReview (resolveReview ra rb))
  | _, _ => Throw type_error
  end.

(** The winner of [resolveConflicts]: [resolveFun] is applied to each
    conflicting revision and the winner so far, starting from the current
    revision. *)
Fixpoint choose_winner (resolveFun : Body -> Body -> Result Body)
    (winning : Body) (revisions : list Body) : Result Body :=
  match revisions with
  | [] => Ok winning
  | doc :: rest =>
      match resolveFun doc winning with
      | Ok winner => choose_winner resolveFun winner rest
      | Throw e => Throw e
      end
  end.

(** [s.trim()].  The white space and line terminators of JavaScript
    among the code units below 256: U+0009 to U+000D, U+0020 and the
    no-break space U+00A0.  (The others -- U+1680, U+2000 to U+200A,
    U+2028, U+2029, U+202F, U+205F, U+3000 and U+FEFF -- do not occur in
    the strings represented.) *)
Definition is_space (c : ascii) : bool :=
  let n := nat_of_ascii c in
  (Nat.eqb n 32 || Nat.eqb n 160 || (Nat.leb 9 n && Nat.leb n 13))%bool.

Fixpoint trim_left (s : string) : string :=
  match s with
  | String c s' => if is_space c then trim_left s' else s
  | EmptyString => EmptyString
  end.

Definition reverse_string (s : string) : string :=
  string_of_list_ascii (List.rev (list_ascii_of_string s)).

Definition trim (s : string) : string :=
  reverse_string (trim_left (reverse_string (trim_left s))).

Definition with_seqs (l r : option Z) (s : Session) : Session :=
  mkSession (originalDbName s) (options s) l r.

(** The guard at the head of every handler: the event is skipped when the
    store has no remote or its remote has another name than the one the
    handler captured. *)
Definition from_old_remote (w : Store) (s : Session) : bool :=
  match remoteDb w with
  | None => true
  | Some name => negb (String.eqb (originalDbName s) name)
  end.

(** The progress computation of [changeCallback]: the value passed to
    [onProgress] and the closure's sequence numbers afterwards. *)
Definition progressOf (s : Session) (info : SyncResult) : option Q * Session :=
  match localUpdateSeq s, remoteUpdateSeq s with
  | Some l, Some r =>
      if last_seq info =? 0 then (None, s)
      else
        let upper := Z.max l r in
        let lower := Z.min l r in
        let current := last_seq info in
        if (current <? lower) || (upper =? lower)
        then (None, with_seqs None None s)
        else (Some (Qmake (current - lower) (Z.to_pos (upper - lower))), s)
  | _, _ => (None, s)
  end.

(** [callbackMap] and the caller's callback for an event, if supplied. *)
Definition callback_of (sid : nat) (o : option SyncOptions) (evt : EventName)
    (err : PouchError) : option Effect :=
  match o with
  | None => None
  | Some o =>
      match evt with
      | paused => if onIdle o then Some (CallOnIdle sid) else None
      | active => if onActive o then Some (CallOnActive sid) else None
      | error | denied => if onError o then Some (CallOnError sid err) else None
      end
  end.

(** Which events get a wrapped handler at all: those with a callback, and
    always [active]. *)
Definition registered (o : option SyncOptions) (evt : EventName) : bool :=
  match evt with
  | active => true
  | _ => match callback_of 0 o evt (mkErr None EmptyString) with
         | Some _ => true
         | None => false
         end
  end.

Section WithEnv.
Variable env : Env.

(** Every request to the database may fail for a reason of the
    environment's; otherwise it does its work. *)
Definition request {A} (work : M A) : M A :=
  fun w =>
    match faultAt env (requests w) with
    | Some e => (Throw e, next_request w)
    | None => work (next_request w)
    end.

(** [db.put(doc)] for a document without [_rev]: creates the document,
    or rejects with 409 when the id is taken.  Returns the new
    revision. *)
Definition db_put (id : string) (b : Body) : M nat :=
  request (fun w =>
    match db w !! id with
    | Some _ => (Throw conflict409, w)
    | None =>
        let r := requests w in
        (Ok r, with_db (insert id (mkStored r b [])) w)
    end).

(** [db.remove({ _id, _rev })] *)
Definition db_remove (id : string) (r : nat) : M unit :=
  request (fun w =>
    match db w !! id with
    | None => (Throw missing404, w)
    | Some d =>
        if Nat.eqb (rev d) r then (Ok tt, with_db (delete id) w)
        else (Throw conflict409, w)
    end).

(** [db.get(id, { conflicts: true })].  A document that is not there is
    answered with an error of status 404.  Its reason is ['missing'] here;
    the reason ['deleted'] of a document that was removed is represented
    where the code looks at it, in the changes feed
    ([Changes.db_get_live]), and the properties stated through [db_get]
    rely on the status only. *)
Definition db_get (id : string) : M Stored :=
  request (fun w =>
    match db w !! id with
    | Some d => (Ok d, w)
    | None => (Throw missing404, w)
    end).

(** [Date.now()] (also [new Date()]) and
    [Math.floor(Math.random() * 46656)]. *)
Definition date_now : M Z :=
  fun w => (Ok (nowAt env (reads w)), next_read w).
Definition random_46656 : M Z :=
  fun w => (Ok (randomAt env (reads w)), next_read w).

(** [CardStore.generateCardId()] on the store's counter. *)
Definition generateCardId : M string :=
  now <- date_now ;;
  rnd <- random_46656 ;;
  fun w =>
    let '(id, t) := IdGen.generateCardId now rnd (prevTimeStamp w) in
    (Ok id, with_prevTimeStamp t w).

(** The card passed to [putCard]: every field is optional. *)
Record PartialProgress := mkPartialProgress
  { pp_level : option Z; pp_reviewed : option Z }.
Record PartialCard := mkPartialCard
  { pc_id : option string;
    pc_question : option string;
    pc_answer : option string;
    pc_progress : option PartialProgress }.

(** [x || ''] on an optional string. *)
Definition or_empty (x : option string) : string :=
  match x with
  | Some s => s
  | None => EmptyString
  end.

(** The inner [tryPutNewCard] of [_putNewCard].  The recursion on an id
    collision is bounded by [fuel]; [None] means the bound was
    reached. *)
Fixpoint tryPutNewCard (fuel : nat) (card : CardRecord)
    (progress : ProgressRecord) (id : string) : M (option Card) :=
  match fuel with
  | O => ret None
  | S fuel' =>
      fun w =>
        match db_put (String.append CARD_PREFIX id) (BCard card) w with
        | (Throw err, w1) =>
            if negb (bool_decide (status err = Some 409)) then (Throw err, w1)
            else (id' <- generateCardId ;;
                  tryPutNewCard fuel' card progress id') w1
        | (Ok putCardResult_rev, w1) =>
            let progressToPut := BProgress progress in
            (try_catch
               (db_put (String.append PROGRESS_PREFIX id) progressToPut ;;;
                ret (Some (mergeRecords (String.append CARD_PREFIX id)
                             (BCard card) progressToPut)))
               (fun err =>
                  db_remove (String.append CARD_PREFIX id) putCardResult_rev ;;;
                  throw err)) w1
        end
  end.

(** [_putNewCard] *)
Definition _putNewCard (fuel : nat) (card : PartialCard) : M (option Card) :=
  created_at <- date_now ;;
  modified_at <- date_now ;;
  let cardToPut :=
    mkCard (or_empty (pc_question card)) (or_empty (pc_answer card))
      created_at modified_at in
  let progressToPut :=
    mkProgress
      (match pc_progress card with
       | Some p => match pp_level p with Some l => l | None => 0 end
       | None => 0
       end)
      (match pc_progress card with
       | Some p => pp_reviewed p
       | None => None
       end) in
  id <- generateCardId ;;
  tryPutNewCard fuel cardToPut progressToPut id.

(** [db.resolveConflicts(doc, resolveFun)] of the conflict-resolution
    plug-in, as the plug-in documents it: it fetches the conflicting
    revisions of [doc], lets [resolveFun] choose the winner, and in one
    request writes the winner and deletes the other revisions, after which
    the document has no conflicts.  An exception of [resolveFun] rejects
    the call.  The call itself is recorded. *)
Definition resolveConflicts (id : string) (doc : Stored)
    (resolveFun : Body -> Body -> Result Body) : M unit :=
  modify (emit (ResolveConflicts id (body doc) (conflicts doc))) ;;;
  request (ret tt) ;;;
  match choose_winner resolveFun (body doc) (conflicts doc) with
  | Throw e => throw e
  | Ok winner =>
      request (fun w =>
        (Ok tt, with_db (insert id (mkStored (requests w) winner [])) w))
  end.

(** [onSyncReviewChange] *)
Definition onSyncReviewChange (doc : Incoming) : M unit :=
  if i_deleted doc then ret tt
  else
    result <- db_get (i_id doc) ;;
    match conflicts result with
    | [] => ret tt
    | _ :: _ => resolveConflicts (i_id doc) result chooseReview
    end.

(** [onSyncChange] *)
Fixpoint onSyncChange (docs : list Incoming) : M unit :=
  match docs with
  | [] => ret tt
  | doc :: rest =>
      (if JS.startsWith REVIEW_PREFIX (i_id doc)
       then onSyncReviewChange doc else ret tt) ;;;
      onSyncChange rest
  end.

(** The handler [wrapCallback(evt, callback)] returns. *)
Definition wrapCallback (sid : nat) (evt : EventName) (err : PouchError) : M unit :=
  fun w =>
    match sessions w !! sid with
    | None => (Ok tt, w)
    | Some s =>
        if from_old_remote w s then (Ok tt, w)
        else
          let w1 :=
            match evt with
            | paused =>
                with_sessions (<[sid := with_seqs None None s]> (sessions w)) w
            | _ => w
            end in
          match callback_of sid (options s) evt err with
          | Some call => (Ok tt, emit call w1)
          | None => (Ok tt, w1)
          end
    end.

(** [changeCallback].  [onSyncChange] is started and not awaited, so a
    rejection inside it does not reach the handler. *)
Definition changeCallback (sid : nat) (info : SyncResult) : M unit :=
  fun w =>
    match sessions w !! sid with
    | None => (Ok tt, w)
    | Some s =>
        if from_old_remote w s then (Ok tt, w)
        else
          let w1 :=
            match direction info with
            | pull => snd (onSyncChange (docs info) w)
            | push => w
            end in
          match options s with
          | Some o =>
              if onProgress o then
                let '(progress, s') := progressOf s info in
                (Ok tt,
                 emit (CallOnProgress sid progress)
                   (with_sessions (<[sid := s']> (sessions w1)) w1))
              else (Ok tt, w1)
          | None => (Ok tt, w1)
          end
    end.

(** Delivery of one event of session [sid] to the handlers that session
    registered. *)
Definition dispatch (sid : nat) (ev : SyncEvent) : M unit :=
  match ev with
  | EvChange info => changeCallback sid info
  | EvOther evt err =>
      fun w =>
        match sessions w !! sid with
        | None => (Ok tt, w)
        | Some s =>
            if registered (options s) evt then wrapCallback sid evt err w
            else (Ok tt, w)
        end
  end.

Fixpoint dispatchAll (sid : nat) (evs : list SyncEvent) (w : Store) : Store :=
  match evs with
  | [] => w
  | ev :: rest => dispatchAll sid rest (snd (dispatch sid ev w))
  end.

Definition reportErrorAsync (o : option SyncOptions) (err : PouchError) : M unit :=
  match o with
  | Some o => if onError o then modify (emit (ReportErrorAsync err)) else ret tt
  | None => ret tt
  end.

Definition is_http (s : string) : bool :=
  JS.startsWith "http://" s || JS.startsWith "https://" s.

(** [db.info()] of the local database and of the remote. *)
Definition local_info : M Z := request (fun w => (Ok (update_seq w), w)).
Definition remote_info (name : string) : M Z :=
  match remoteSeq env name with
  | Some n => ret n
  | None => throw (mkErr (Some 500) "getaddrinfo")
  end.

(** [setSyncServer], run without interleaving. *)
Definition setSyncServer (syncServer : SyncServer) (o : option SyncOptions) : M unit :=
  let bad_request (why : string) : M unit :=
    let err := mkErr None why in
    reportErrorAsync o err ;;; throw err in
  match syncServer with
  | SrvOther => bad_request "Unrecognized type of sync server"
  | _ =>
      let syncServer :=
        match syncServer with
        | SrvString s => SrvString (trim s)
        | other => other
        end in
      let target : option string :=
        match syncServer with
        | SrvString s => if String.eqb s EmptyString then None else Some s
        | SrvDb name => Some name
        | _ => None
        end in
      if match syncServer with
         | SrvString s => negb (String.eqb s EmptyString) && negb (is_http s)
         | _ => false
         end
      then bad_request "Only http and https remote servers are recognized"
      else
        modify (fun w =>
                  with_remote None None
                    (match remoteSync w with
                     | Some sid => sid :: cancelled w
                     | None => cancelled w
                     end) w) ;;;
        match target with
        | None => ret tt
        | Some name =>
            modify (fun w => with_remote (Some name) (remoteSync w) (cancelled w) w) ;;;
            seqs <- try_catch
                      (l <- local_info ;;
                       r <- remote_info name ;;
                       ret (Some (l, r)))
                      (fun err w =>
                         match remoteDb w with
                         | Some current =>
                             if String.eqb name current
                             then (modify (fun w => with_remote None (remoteSync w)
                                                      (cancelled w) w) ;;;
                                   reportErrorAsync o err ;;;
                                   throw err) w
                             else (Ok None, w)
                         | None => (Ok None, w)
                         end) ;;
            match seqs with
            | None => ret tt
            | Some (l, r) =>
                modify (fun w =>
                          with_remote (remoteDb w)
                            (Some (List.length (sessions w))) (cancelled w)
                            (with_sessions
                               (sessions w ++ [mkSession name o (Some l) (Some r)])
                               w))
            end
        end
  end.

End WithEnv.

End CardStore.

(* ===================================================================== *)
(** * The note store                                                       *)
(* ===================================================================== *)

Module NoteStore.

(** [NoteContent] *)
Record NoteContent := mkNote
  { keywords : list string; content : string; created : Z; modified : Z }.

(** The function [onSyncChange] hands to [resolveConflicts]. *)
Definition resolveNote (a b : NoteContent) : NoteContent :=
  if created a >? created b then a
  else if modified a >=? created b then a else b.

End NoteStore.

(* ===================================================================== *)
(** * Auxiliary definitions and sample data                                *)
(* ===================================================================== *)

Section Auxiliary.
Import Pouch CardStore.

(** The [w] low digits of [n], most significant first, in front of
    [acc]. *)
Fixpoint fixed36 (w : nat) (n : Z) (acc : string) : string :=
  match w with
  | O => acc
  | S w' => fixed36 w' (n / 36) (String (JS.digit36 (n mod 36)) acc)
  end.

(** The 36 digits are in ascending order, checked pair by pair. *)
Definition digits_ordered : bool :=
  forallb (fun x =>
    forallb (fun y =>
      match Ascii.compare (JS.digit36 (Z.of_nat x)) (JS.digit36 (Z.of_nat y)),
            (Z.of_nat x ?= Z.of_nat y) with
      | Eq, Eq | Lt, Lt | Gt, Gt => true
      | _, _ => false
      end) (seq 0 36)) (seq 0 36).

(** The identifier built from an issued timestamp and a random value. *)
Definition id_of (t rnd : Z) : string :=
  String.append
    (JS.slice_last 8 (String "0"%char (JS.toString36 t)))
    (JS.slice_last 3 (String.append "00" (JS.toString36 rnd))).

(** Two review revisions of equal completeness (4), two notes created at
    different times and a third created last. *)
Definition review_a : Pouch.ReviewRecord :=
  Pouch.mkReview 1000 10 2 5 1 ["x"; "y"]%string ["x"]%string [].
Definition review_b : Pouch.ReviewRecord :=
  Pouch.mkReview 1000 10 2 6 1 ["x"; "y"]%string [] ["y"]%string.

Definition note_a : NoteStore.NoteContent := NoteStore.mkNote [] "a" 1 5.
Definition note_b : NoteStore.NoteContent := NoteStore.mkNote [] "b" 3 3.
Definition note_c : NoteStore.NoteContent := NoteStore.mkNote [] "c" 7 7.

Definition query_bounds (o : QueryOptions) : option Key * option Key :=
  if descending o then (endkey o, startkey o) else (startkey o, endkey o).

Definition card_of_row (row : Row) (d : Stored) : Card :=
  {| c_id := stripCardPrefix (e_id (r_value row));
     c_doc := body d;
     c_progress := parseProgress (e_level (r_value row)) (e_reviewed (r_value row)) |}.

Definition view_of (reviewTime : Z) (o : GetCardsOptions) : MapFunction :=
  match type o with
  | NewCards => newCardMapFunction
  | OverdueCards => overduenessFunction reviewTime
  | AllCards => cardMapFunction
  end.

Definition options_of (o : GetCardsOptions) : QueryOptions :=
  match type o with
  | OverdueCards =>
      mkQuery true (limit o)
        (if skipFailedCards o then Some (KNum (IZR MAX_SAFE_INTEGER)) else None)
        (Some (KNum 0%R))
  | _ => mkQuery true (limit o) None None
  end.

Definition failed_and_fresh : gmap string Pouch.Stored :=
  <[ "card-a"%string :=
       Pouch.mkStored 1 (Pouch.BCard (Pouch.mkCard "Q1" "A1" 10 10)) [] ]>
  (<[ "progress-a"%string :=
        Pouch.mkStored 2 (Pouch.BProgress (Pouch.mkProgress 0 (Some 86400000))) [] ]>
  (<[ "card-b"%string :=
        Pouch.mkStored 3 (Pouch.BCard (Pouch.mkCard "Q2" "A2" 20 20)) [] ]>
  (<[ "progress-b"%string :=
        Pouch.mkStored 4 (Pouch.BProgress (Pouch.mkProgress 2 None)) [] ]> ∅))).


Definition failed_and_due : gmap string Pouch.Stored :=
  <[ "card-a"%string :=
       Pouch.mkStored 1 (Pouch.BCard (Pouch.mkCard "Q1" "A1" 10 10)) [] ]>
  (<[ "progress-a"%string :=
        Pouch.mkStored 2 (Pouch.BProgress (Pouch.mkProgress 0 (Some 0))) [] ]>
  (<[ "card-b"%string :=
        Pouch.mkStored 3 (Pouch.BCard (Pouch.mkCard "Q2" "A2" 20 20)) [] ]>
  (<[ "progress-b"%string :=
        Pouch.mkStored 4 (Pouch.BProgress (Pouch.mkProgress 1 (Some 0))) [] ]> ∅))).

Definition due_card : CardStore.Card :=
  CardStore.mkCardView "b" (Pouch.BCard (Pouch.mkCard "Q2" "A2" 20 20))
    (CardStore.mkProgressView (Pouch.Num 1) None).

Definition quota_error : Pouch.PouchError :=
  Pouch.mkErr (Some 500) "quota exceeded".
Definition offline_error : Pouch.PouchError :=
  Pouch.mkErr (Some 500) "offline".

(** The write of the Progress document (the second request) fails. *)
Definition env_progress_fails : Pouch.Env :=
  Pouch.mkEnv
    (fun n => match n with
              | 1%nat => Some quota_error
              | _ => None
              end)
    (fun _ => 1700000000000) (fun _ => 7) (fun _ => None).

(** The write of the Progress document fails, and so does the removal of
    the Card document (the third request). *)
Definition env_rollback_fails : Pouch.Env :=
  Pouch.mkEnv
    (fun n => match n with
              | 1%nat => Some quota_error
              | 2%nat => Some offline_error
              | _ => None
              end)
    (fun _ => 1700000000000) (fun _ => 7) (fun _ => None).

Definition empty_store : CardStore.Store :=
  CardStore.mkStore ∅ 0 0 0 0 None None [] [] [].

Definition card_QA : Pouch.CardRecord :=
  Pouch.mkCard "Q" "A" 1700000000000 1700000000000.
Definition progress_new : Pouch.ProgressRecord := Pouch.mkProgress 0 None.

Definition is_resolution (e : Effect) : bool :=
  match e with
  | ResolveConflicts _ _ _ => true
  | _ => false
  end.

(** The requests for resolution a pulled batch gives rise to: one for
    every document of the batch that has the review prefix, is not a
    deletion, and for which the database reports conflicting revisions
    when its turn comes -- which it no longer does when the batch has
    brought the same document before. *)
Definition without_conflicts (d : Stored) : Stored :=
  mkStored (rev d) (body d) [].

Fixpoint resolutions_for (db : gmap string Stored) (docs : list Incoming)
  : list Effect :=
  match docs with
  | [] => []
  | doc :: rest =>
      if JS.startsWith REVIEW_PREFIX (i_id doc) && negb (i_deleted doc)
      then match db !! i_id doc with
           | Some d =>
               match conflicts d with
               | [] => resolutions_for db rest
               | _ :: _ =>
                   ResolveConflicts (i_id doc) (body d) (conflicts d)
                   :: resolutions_for
                        (<[i_id doc := without_conflicts d]> db) rest
               end
           | None => resolutions_for db rest
           end
      else resolutions_for db rest
  end.

(** The identifier is the one of a document of the batch that has the
    review prefix and is not a deletion. *)
Definition pulled_review (docs : list Incoming) (id : string) : bool :=
  existsb (fun doc =>
             String.eqb (i_id doc) id
             && JS.startsWith REVIEW_PREFIX (i_id doc)
             && negb (i_deleted doc)) docs.

(** The stored review [d'] holds one of the revisions of the stored
    review [d], and none of these is more complete. *)
Definition kept_from (d d' : Stored) : Prop :=
  exists (r : ReviewRecord) (rs : list ReviewRecord) (r' : ReviewRecord),
    body d = BReview r /\ conflicts d = BReview <$> rs
    /\ body d' = BReview r'
    /\ r' ∈ r :: rs
    /\ forall x, x ∈ r :: rs -> completeness x <= completeness r'.

(** A stored review whose revisions all are review records. *)
Definition review_revisions (d : Stored) : Prop :=
  exists (r : ReviewRecord) (rs : list ReviewRecord),
    body d = BReview r /\ conflicts d = BReview <$> rs.

Definition env_quiet : Pouch.Env :=
  Pouch.mkEnv (fun _ => None) (fun _ => 1700000000000) (fun _ => 7)
    (fun _ => Some 10).

Definition review_doc_a : Pouch.Body := Pouch.BReview review_a.
Definition review_doc_b : Pouch.Body := Pouch.BReview review_b.
Definition card_doc_1 : Pouch.Body := Pouch.BCard (Pouch.mkCard "Q" "A" 10 10).
Definition card_doc_2 : Pouch.Body := Pouch.BCard (Pouch.mkCard "Q" "B" 10 20).

(** A store that is synchronising with [http://remote] (session 0, no
    callbacks) and holds a review and a card that both have a conflicting
    revision. *)
Definition conflicted_store : CardStore.Store :=
  CardStore.mkStore
    (<[ "review-0abc"%string := Pouch.mkStored 5 review_doc_a [review_doc_b] ]>
     (<[ "card-0abc"%string := Pouch.mkStored 6 card_doc_1 [card_doc_2] ]> ∅))
    6 0 0 0 (Some "http://remote"%string) (Some 0%nat) []
    [CardStore.mkSession "http://remote" None (Some 2) (Some 6)] [].

(** The remote a call of [setSyncServer] asks for, if any. *)
Definition target_name (srv : SyncServer) : option string :=
  match srv with
  | SrvString s => if String.eqb (trim s) EmptyString then None else Some (trim s)
  | SrvDb name => Some name
  | _ => None
  end.

Definition opts_all : CardStore.SyncOptions :=
  CardStore.mkSyncOptions true true true true None None None.

Definition no_error : Pouch.PouchError := Pouch.mkErr None EmptyString.

(** The store after [setSyncServer('http://a', ...)] on a fresh store:
    session 0 is running. *)
Definition syncing_a : CardStore.Store :=
  snd (CardStore.setSyncServer env_quiet (CardStore.SrvString "http://a")
         (Some opts_all) empty_store).

Definition late_events : list CardStore.SyncEvent :=
  [ CardStore.EvChange (CardStore.mkSyncResult CardStore.push [] 5);
    CardStore.EvOther CardStore.paused no_error;
    CardStore.EvOther CardStore.active no_error ].


End Auxiliary.

(* ===================================================================== *)
(** * The card store: reading and updating entities                        *)
(* ===================================================================== *)

Module CardOps.
Import Pouch CardStore.

(** The error [_updateCard] and [_updateProgress] build themselves:
    status 404, name [not_found], no [reason]. *)
Definition not_found : PouchError := mkErr (Some 404) EmptyString.

(** The card passed to [putCard]: the optional fields of [PartialCard]
    and, besides, optional [created] and [modified].  (A create call
    overwrites both, so [_putNewCard] takes the [PartialCard].)  A field
    is either absent or has a value of its type. *)
Record CardInput := mkCardInput
  { in_card : PartialCard; in_created : option Z; in_modified : option Z }.

(** [Object.keys(update).length] for the card part of an update, which is
    the card without [_id] and [progress]. *)
Definition card_keys (update : CardInput) : nat :=
  (match pc_question (in_card update) with Some _ => 1 | None => 0 end)
  + (match pc_answer (in_card update) with Some _ => 1 | None => 0 end)
  + (match in_created update with Some _ => 1 | None => 0 end)
  + (match in_modified update with Some _ => 1 | None => 0 end).

(** [{ ...doc, ...update }] on the content of the stored document.  By its
    type the document under a card id is a [CardRecord]; when it is not,
    and fields are added to it, the result is none of the three record
    types. *)
Definition merge_card (doc : Body) (update : CardInput) : Body :=
  match doc with
  | BCard c =>
      BCard (mkCard
               (match pc_question (in_card update) with
                | Some q => q
                | None => question c
                end)
               (match pc_answer (in_card update) with
                | Some a => a
                | None => answer c
                end)
               (match in_created update with Some t => t | None => created c end)
               (match in_modified update with Some t => t | None => modified c end))
  | other => match card_keys update with O => other | S _ => BOther end
  end.

(** [card.modified = ...] *)
Definition set_modified (now : Z) (doc : Body) : Body :=
  match doc with
  | BCard c => BCard (mkCard (question c) (answer c) (created c) now)
  | other => other
  end.

(** The two assignments of [_updateProgress] on the stored document and
    whether either took place ([hasChange]). *)
Definition apply_progress (doc : Body) (update : PartialProgress) : Body * bool :=
  match doc with
  | BProgress p =>
      let '(rvw, changed1) :=
        match pp_reviewed update with
        | Some t =>
            if bool_decide (reviewed p = Some t) then (reviewed p, false)
            else (Some t, true)
        | None => (reviewed p, false)
        end in
      let '(lvl, changed2) :=
        match pp_level update with
        | Some l => if level p =? l then (level p, false) else (l, true)
        | None => (level p, false)
        end in
      (BProgress (mkProgress lvl rvw), changed1 || changed2)
  | other =>
      match pp_reviewed update, pp_level update with
      | None, None => (other, false)
      | _, _ => (BOther, true)
      end
  end.

(** The first argument of [getCardsById]'s query: the rows whose key is
    one of the given strings, key by key. *)
Definition rows_with_keys (rows : list Row) (keys : list string) : list Row :=
  mbind (fun k =>
           List.filter (fun r => match r_key r with
                                 | KStr s => String.eqb s k
                                 | _ => false
                                 end) rows) keys.

(** [getCardsById] *)
Definition getCardsById (db : gmap string Stored) (ids : list string) : list Card :=
  let keys := List.map (String.append PROGRESS_PREFIX) ids in
  let rows := rows_with_keys (view_rows cardMapFunction db) keys in
  omap (fun row =>
          match db !! e_id (r_value row) with
          | Some d =>
              Some {| c_id := stripCardPrefix (e_id (r_value row));
                      c_doc := body d;
                      c_progress := parseProgress (e_level (r_value row))
                                      (e_reviewed (r_value row)) |}
          | None => None
          end) rows.



(** The keys of [allDocs] are compared code unit by code unit.  An id is
    a string of code units below 256; the bounds of a range are sequences
    of code units of any value, because the sources close a range with
    the character U+FFF0. *)
Definition units (s : string) : list N :=
  List.map N_of_ascii (list_ascii_of_string s).

Fixpoint units_leb (a b : list N) : bool :=
  match a, b with
  | [], _ => true
  | _ :: _, [] => false
  | x :: a', y :: b' =>
      if (x <? y)%N then true
      else if (x =? y)%N then units_leb a' b' else false
  end.

(** The ids [allDocs] returns for a range, in ascending order. *)
Definition in_range (startkey endkey : list N) (id : string) : bool :=
  units_leb startkey (units id) && units_leb (units id) endkey.

Definition id_le (a b : string * Stored) : Prop :=
  String.leb (fst a) (fst b) = true.

#[export] Instance id_le_dec : RelDecision id_le.
Proof.
  intros a b. unfold id_le.
  destruct (String.leb (fst a) (fst b)); [left; reflexivity | right; discriminate].
Defined.

Definition docs_in_range (db : gmap string Stored) (startkey endkey : list N)
  : list (string * Stored) :=
  merge_sort id_le
    (List.filter (fun r => in_range startkey endkey (fst r)) (map_to_list db)).

(** The character U+FFF0 that closes the ranges: one code unit. *)
Definition HIGH : list N := [65520%N].

Section WithEnv.
Variable env : Env.

(** [db.put(doc)] in general: a document without [_rev] is created when
    its id is free; a document with [_rev] replaces the stored revision it
    names; everything else is a conflict. *)
Definition db_put_rev (id : string) (r : option nat) (b : Body) : M nat :=
  request env (fun w =>
    let new := requests w in
    match db w !! id, r with
    | None, None => (Ok new, with_db (insert id (mkStored new b [])) w)
    | Some d, Some r' =>
        if Nat.eqb (rev d) r'
        then (Ok new, with_db (insert id (mkStored new b (conflicts d))) w)
        else (Throw conflict409, w)
    | _, _ => (Throw conflict409, w)
    end).

(** [db.upsert(id, diffFun)] of the upsert plug-in: read the document (an
    absent one is handed to [diffFun] as an empty object), let [diffFun]
    compute the new content or decline, write, and start over on a
    conflict.  [diffFun] also returns what it leaves in the variables of
    the enclosing function; the result is what the last call left.
    [None]: the bound on the retries was reached. *)
Fixpoint upsert {A} (fuel : nat) (id : string)
    (diffFun : option Stored -> M (option Body * A)) : M (option A) :=
  match fuel with
  | O => ret None
  | S fuel' =>
      doc <- try_catch
               (d <- db_get env id ;; ret (Some d))
               (fun err => if bool_decide (status err = Some 404)
                           then ret None else throw err) ;;
      out <- diffFun doc ;;
      match fst out with
      | None => ret (Some (snd out))
      | Some newDoc =>
          fun w =>
            match db_put_rev id (rev <$> doc) newDoc w with
            | (Ok _, w1) => (Ok (Some (snd out)), w1)
            | (Throw err, w1) =>
                if bool_decide (status err = Some 409)
                then upsert fuel' id diffFun w1
                else (Throw err, w1)
            end
      end
  end.

(** [_updateCard].  Returns the merged record. *)
Definition _updateCard (fuel : nat) (id : string) (update : CardInput)
  : M (option Body) :=
  seen <- upsert fuel (String.append CARD_PREFIX id)
            (fun doc =>
               match doc with
               | None => ret (None, None)
               | Some d =>
                   let card := merge_card (body d) update in
                   match card_keys update with
                   | O => ret (None, Some card)
                   | S _ =>
                       now <- date_now env ;;
                       ret (Some (set_modified now card),
                            Some (set_modified now card))
                   end
               end) ;;
  match seen with
  | None => ret None
  | Some None => throw not_found
  | Some (Some card) => ret (Some card)
  end.

(** [_updateProgress].  Returns the record as it is after the update. *)
Definition _updateProgress (fuel : nat) (id : string) (update : PartialProgress)
  : M (option Body) :=
  seen <- upsert fuel (String.append PROGRESS_PREFIX id)
            (fun doc =>
               match doc with
               | None => ret (None, None)
               | Some d =>
                   let '(progress, hasChange) := apply_progress (body d) update in
                   if hasChange then ret (Some progress, Some progress)
                   else ret (None, Some progress)
               end) ;;
  match seen with
  | None => ret None
  | Some None => throw not_found
  | Some (Some progress) => ret (Some progress)
  end.

(** [putCard] *)
Definition putCard (fuel : nat) (card : CardInput) : M (option Card) :=
  match pc_id (in_card card) with
  | None => _putNewCard env fuel (in_card card)
  | Some id =>
      if String.eqb id EmptyString then _putNewCard env fuel (in_card card)
      else
        cardRecord <- _updateCard fuel id card ;;
        match cardRecord with
        | None => ret None
        | Some cardRecord =>
            progressRecord <-
              _updateProgress fuel id
                (match pc_progress (in_card card) with
                 | Some p => p
                 | None => mkPartialProgress None None
                 end) ;;
            match progressRecord with
            | None => ret None
            | Some progressRecord =>
                ret (Some (mergeRecords (String.append CARD_PREFIX id)
                             cardRecord progressRecord))
            end
        end
  end.

(** [getCard] *)
Definition getCard (id : string) : M Card :=
  card <- db_get env (String.append CARD_PREFIX id) ;;
  progress <- db_get env (String.append PROGRESS_PREFIX id) ;;
  ret (mergeRecords (String.append CARD_PREFIX id) (body card) (body progress)).

(** [hasProgressRecord] *)
Definition hasProgressRecord (id : string) : M bool :=
  try_catch (db_get env (String.append PROGRESS_PREFIX id) ;;; ret true)
            (fun _ => ret false).

(** [db.allDocs({ include_docs: true, startkey, endkey })] *)
Definition allDocs (startkey endkey : list N) : M (list (string * Stored)) :=
  request env (fun w => (Ok (docs_in_range (db w) startkey endkey), w)).

(** The loop of [getOrphanedCards] and [getOrphanedProgress]: a row is an
    orphan when reading its other half fails, for whatever reason. *)
Fixpoint orphans_among (other : string -> string) (rows : list (string * Stored))
  : M (list (string * Stored)) :=
  match rows with
  | [] => ret []
  | row :: rest =>
      found <- try_catch (db_get env (other (fst row)) ;;; ret true)
                         (fun _ => ret false) ;;
      orphans <- orphans_among other rest ;;
      ret (if (found : bool) then orphans else row :: orphans)
  end.

(** [getOrphanedCards] *)
Definition getOrphanedCards : M (list (string * Stored)) :=
  cards <- allDocs (units CARD_PREFIX) (units CARD_PREFIX ++ HIGH) ;;
  orphans_among (fun id => String.append PROGRESS_PREFIX (stripCardPrefix id)) cards.

(** [getOrphanedProgress] *)
Definition getOrphanedProgress : M (list (string * Stored)) :=
  records <- allDocs (units PROGRESS_PREFIX) (units PROGRESS_PREFIX ++ HIGH) ;;
  orphans_among (fun id => String.append CARD_PREFIX (stripProgressPrefix id)) records.

(** [addProgressRecordForCard] *)
Definition addProgressRecordForCard (cardId : string) : M unit :=
  db_put env (String.append PROGRESS_PREFIX (stripCardPrefix cardId))
    (BProgress (mkProgress 0 None)) ;;;
  ret tt.

(** [deleteProgressRecord]: both failures are logged and swallowed. *)
Definition deleteProgressRecord (progressId : string) : M unit :=
  fun w =>
    match db_get env progressId w with
    | (Throw _, w1) => (Ok tt, w1)
    | (Ok doc, w1) =>
        try_catch (db_remove env progressId (rev doc)) (fun _ => ret tt) w1
    end.

(** [db.allDocs({ descending: true, limit, startkey, endkey })]: the
    range is given from its upper end. *)
Definition allDocs_descending (limit : nat) (startkey endkey : list N)
  : M (list (string * Stored)) :=
  request env (fun w =>
    (Ok (take limit (reverse (docs_in_range (db w) endkey startkey))), w)).

(** [_getReview]: the review document with the greatest id, if any. *)
Definition _getReview : M (option (string * Stored)) :=
  reviews <- allDocs_descending 1 (units REVIEW_PREFIX ++ HIGH)
               (units REVIEW_PREFIX) ;;
  ret (head reviews).

(** [getReview].  A [Review] differs from its record by the id and the
    revision, which the model keeps outside the record, and by
    [reviewTime] being a [Date], which is modelled by its time value. *)
Definition getReview : M (option Body) :=
  review <- _getReview ;;
  ret (match review with
       | Some r => Some (body (snd r))
       | None => None
       end).

(** [putReview] *)
Definition putReview (fuel : nat) (review : ReviewRecord) : M (option unit) :=
  existingReview <- _getReview ;;
  reviewId <- match existingReview with
              | None =>
                  now <- date_now env ;;
                  ret (String.append REVIEW_PREFIX
                         (JS.slice_last 8
                            (String "0"%char
                               (JS.toString36 (now - IdGen.EPOCH_2016)))))
              | Some r => ret (fst r)
              end ;;
  upsert fuel reviewId (fun _ => ret (Some (BReview review), tt)).

(** [db.bulkDocs] of deletions [{ _id, _rev, _deleted: true }]: one
    request; a document is removed when the revision given is the stored
    one, the others answer a conflict.  Returns whether some answer is a
    conflict. *)
Definition delete_each (rows : list (string * nat)) (w : Store) : Store * bool :=
  foldl (fun '(w, conflict) '(id, r) =>
           match db w !! id with
           | Some d => if Nat.eqb (rev d) r then (with_db (delete id) w, conflict)
                       else (w, true)
           | None => (w, true)
           end) (w, false) rows.

Definition bulk_delete (rows : list (string * nat)) : M bool :=
  request env (fun w =>
    let '(w', conflict) := delete_each rows w in (Ok conflict, w')).

(** [deleteReview]: [None] when the bound on the rounds was reached. *)
Fixpoint deleteReview (fuel : nat) : M (option unit) :=
  match fuel with
  | O => ret None
  | S fuel' =>
      reviews <- allDocs (units REVIEW_PREFIX) (units REVIEW_PREFIX ++ HIGH) ;;
      match reviews with
      | [] => ret (Some tt)
      | _ =>
          conflict <- bulk_delete
                        (List.map (fun r => (fst r, rev (snd r))) reviews) ;;
          if (conflict : bool) then deleteReview fuel' else ret (Some tt)
      end
  end.

End WithEnv.

End CardOps.

(* ===================================================================== *)
(** * The change feed                                                      *)
(* ===================================================================== *)

Module Changes.
Import Pouch CardStore CardOps.

(** A change of the local feed ([include_docs] is set, so the document is
    always there): [change.id], which is also [change.doc._id];
    [change.doc._rev]; [change.deleted], which is also
    [change.doc._deleted]; the content of [change.doc]. *)
Record Change := mkChange
  { ch_id : string; ch_rev : nat; ch_deleted : bool; ch_body : Body }.

(** [CardChange]: a card whose progress is optional, with the deletion
    flag of the change it was made from. *)
Record CardChange := mkCardChange
  { cc_id : string;
    cc_doc : Body;
    cc_progress : option Progress;
    cc_deleted : bool }.

(** What the emitter is told: topic [card] or topic [review]. *)
Inductive FeedEvent :=
| CardEvent (c : CardChange)
| ReviewEvent (r : option Body).

(** An entry of [returnedCards]. *)
Record Returned := mkReturned { cardRev : nat; progressRev : option nat }.

(** The variables of the getter that the handler updates:
    [returnedCards] (ids are taken not to be names of [Object.prototype])
    and what has been emitted so far. *)
Record FeedState := mkFeed
  { returnedCards : gmap string Returned; emitted : list FeedEvent }.

Definition deleted404 : PouchError := mkErr (Some 404) "deleted".

(** [alreadyReturnedCard] *)
Definition alreadyReturnedCard (returned : gmap string Returned) (c : Change) : bool :=
  if JS.startsWith CARD_PREFIX (ch_id c) then
    match returned !! stripCardPrefix (ch_id c) with
    | Some r => Nat.eqb (cardRev r) (ch_rev c)
    | None => false
    end
  else if JS.startsWith PROGRESS_PREFIX (ch_id c) then
    match returned !! stripProgressPrefix (ch_id c) with
    | Some r => bool_decide (progressRev r = Some (ch_rev c))
    | None => false
    end
  else false.

Section WithEnv.
Variable env : Env.

(** The ids of the documents that were deleted: reading one fails with
    reason [deleted], reading an id that never existed with reason
    [missing]. *)
Variable tombstones : gset string.

Definition db_get_live (id : string) : M Stored :=
  request env (fun w =>
    match db w !! id with
    | Some d => (Ok d, w)
    | None =>
        (Throw (if bool_decide (id ∈ tombstones) then deleted404 else missing404), w)
    end).

(** The handler of [change].  It returns the variables as it leaves them;
    when it rejects it has changed none of them.  The inner [option]
    of the first read: [None] stands for the early [return]. *)
Definition onChange (c : Change) (fs : FeedState) : M FeedState :=
  if JS.startsWith CARD_PREFIX (ch_id c) then
    let id := stripCardPrefix (ch_id c) in
    progress <-
      (if ch_deleted c then ret (Some None)
       else
         try_catch
           (p <- db_get_live (String.append PROGRESS_PREFIX id) ;; ret (Some (Some p)))
           (fun e =>
              if bool_decide (status e = Some 404)
              then if String.eqb (reason e) "deleted" then ret (Some None)
                   else ret None
              else throw e)) ;;
    match progress with
    | None => ret fs
    | Some progress =>
        if alreadyReturnedCard (returnedCards fs) c then ret fs
        else
          ret (mkFeed
                 (<[id := mkReturned (ch_rev c) (rev <$> progress)]>
                    (returnedCards fs))
                 (emitted fs ++
                  [CardEvent
                     (mkCardChange id (ch_body c)
                        (match progress with
                         | Some p =>
                             Some (c_progress
                                     (mergeRecords (ch_id c) (ch_body c) (body p)))
                         | None => None
                         end)
                        (ch_deleted c))]))
    end
  else if JS.startsWith PROGRESS_PREFIX (ch_id c) then
    if ch_deleted c then ret fs
    else
      let id := stripProgressPrefix (ch_id c) in
      card <-
        try_catch
          (d <- db_get_live (String.append CARD_PREFIX id) ;; ret (Some d))
          (fun e =>
             if bool_decide (status e = Some 404) && String.eqb (reason e) "deleted"
             then ret None else throw e) ;;
      match card with
      | None => ret fs
      | Some card =>
          if alreadyReturnedCard (returnedCards fs) c then ret fs
          else
            ret (mkFeed
                   (<[id := mkReturned (rev card) (Some (ch_rev c))]>
                      (returnedCards fs))
                   (emitted fs ++
                    [CardEvent
                       (mkCardChange id (body card)
                          (Some (c_progress
                                   (mergeRecords (String.append CARD_PREFIX id)
                                      (body card) (ch_body c))))
                          (ch_deleted c))]))
      end
  else if JS.startsWith REVIEW_PREFIX (ch_id c) then
    currentReviewDoc <- _getReview env ;;
    if ch_deleted c then
      match currentReviewDoc with
      | None => ret (mkFeed (returnedCards fs) (emitted fs ++ [ReviewEvent None]))
      | Some r =>
          if JS.str_lt (fst r) (ch_id c)
          then ret (mkFeed (returnedCards fs) (emitted fs ++ [ReviewEvent None]))
          else ret fs
      end
    else
      match currentReviewDoc with
      | Some r =>
          if String.eqb (ch_id c) (fst r)
          then ret (mkFeed (returnedCards fs)
                      (emitted fs ++ [ReviewEvent (Some (ch_body c))]))
          else ret fs
      | None => ret fs
      end
  else ret fs.

End WithEnv.

End Changes.

(* ===================================================================== *)
(** * Further auxiliary definitions                                        *)
(* ===================================================================== *)

Section FurtherAuxiliary.
Import Pouch CardStore.

(** A server argument that passes validation and names a remote. *)
Definition names_remote (srv : SyncServer) (name : string) : Prop :=
  srv = SrvDb name
  \/ exists s, srv = SrvString s /\ trim s = name
               /\ name <> EmptyString /\ is_http name = true.

(** A server argument that fails validation. *)
Definition invalid_server (srv : SyncServer) : Prop :=
  srv = SrvOther
  \/ exists s, srv = SrvString s
               /\ trim s <> EmptyString /\ is_http (trim s) = false.

(** A server argument that asks to disconnect. *)
Definition no_server (srv : SyncServer) : Prop :=
  srv = SrvNull \/ exists s, srv = SrvString s /\ trim s = EmptyString.

(** An address of white space only: a no-break space (U+00A0), a tab and
    a space. *)
Definition blank_address : string :=
  String (ascii_of_nat 160) (String (ascii_of_nat 9) " ").

(** The error callback of the options, when supplied, is told [err]. *)
Definition reported (o : option SyncOptions) (err : PouchError) : list Effect :=
  match o with
  | Some o' => if onError o' then [ReportErrorAsync err] else []
  | None => []
  end.

(** A row comes strictly before another: before or equal in the order of
    the view, and emitted by a different document. *)
Definition row_lt (a b : Row) : Prop :=
  row_le a b /\ r_docid a <> r_docid b.

(** The card a row of a query becomes in [getCards], if its Card document
    exists. *)
Definition card_of_query_row (db : gmap string Stored) (row : Row) : option Card :=
  match db !! e_id (r_value row) with
  | Some d => Some (card_of_row row d)
  | None => None
  end.

(** When the overdue listing shows a reviewed Progress record: a record of
    level 0 unless failed cards are skipped, any other record when its
    score is not negative, not above [Number.MAX_VALUE] (a greater score
    is stored as a null key) and, if failed cards are skipped, not above
    [Number.MAX_SAFE_INTEGER]. *)
Definition listed_as_overdue (reviewTime : Z) (skip : bool)
    (lvl rvw : Z) : Prop :=
  if lvl =? 0 then skip = false
  else (0 <= overdueValue reviewTime lvl rvw)%R
       /\ (overdueValue reviewTime lvl rvw <= IZR MAX_VALUE)%R
       /\ (skip = true ->
           (overdueValue reviewTime lvl rvw <= IZR MAX_SAFE_INTEGER)%R).

(** The card record after an update: the fields given replace the stored
    ones, and [modified] becomes [now] when at least one field was given,
    whatever was given for it. *)
Definition updated_card (c : CardRecord) (update : CardOps.CardInput) (now : Z)
  : CardRecord :=
  mkCard
    (match pc_question (CardOps.in_card update) with
     | Some q => q
     | None => question c
     end)
    (match pc_answer (CardOps.in_card update) with
     | Some a => a
     | None => answer c
     end)
    (match CardOps.in_created update with Some t => t | None => created c end)
    (match CardOps.card_keys update with O => modified c | S _ => now end).

(** The progress record after an update: a level or a review date that is
    given replaces the stored one. *)
Definition updated_progress (p : ProgressRecord) (update : PartialProgress)
  : ProgressRecord :=
  mkProgress
    (match pp_level update with Some l => l | None => level p end)
    (match pp_reviewed update with Some t => Some t | None => reviewed p end).

Definition same_progress (p q : ProgressRecord) : bool :=
  (level p =? level q) && bool_decide (reviewed p = reviewed q).

(** A create call on the empty store, nothing failing, and its result. *)
Definition create_QA : PartialCard :=
  mkPartialCard None (Some "Q"%string) (Some "A"%string) None.

Definition after_create : Store :=
  snd (_putNewCard env_quiet 3 create_QA empty_store).

Definition created_QA : Card :=
  mkCardView "363z4we8007" (BCard card_QA) (mkProgressView (Num 0) None).

(** The entity of an id, when both of its documents exist. *)
Definition entity_of (db : gmap string Stored) (id : string) : option Card :=
  match db !! String.append PROGRESS_PREFIX id,
        db !! String.append CARD_PREFIX id with
  | Some dp, Some dc =>
      Some (mkCardView id (body dc)
              (parseProgress (doc_level (body dp)) (doc_reviewed (body dp))))
  | _, _ => None
  end.


(** The changes the feed delivers for a stored document and for a
    deleted one. *)
Definition change_of (id : string) (d : Stored) : Changes.Change :=
  Changes.mkChange id (rev d) false (body d).

Definition removal_of (id : string) (r : nat) (b : Body) : Changes.Change :=
  Changes.mkChange id r true b.

(** The event that reports an entity with both of its documents. *)
Definition entity_event (x : string) (dc dp : Stored) : Changes.FeedEvent :=
  Changes.CardEvent
    (Changes.mkCardChange x (body dc)
       (Some (parseProgress (doc_level (body dp)) (doc_reviewed (body dp))))
       false).

(** Two changes handled one after the other. *)
Definition handle_both (env : Env) (tombstones : gset string)
    (first second : Changes.Change) (fs : Changes.FeedState)
  : M Changes.FeedState :=
  fs1 <- Changes.onChange env tombstones first fs ;;
  Changes.onChange env tombstones second fs1.

End FurtherAuxiliary.

(* ===================================================================== *)
(** * Properties                                                           *)
(* ===================================================================== *)

(** ** Strings *)

Section StringFacts.

Lemma append_cons (c : ascii) (s t : string) :
  String.append (String c s) t = String c (String.append s t).
Proof. reflexivity. Qed.

Lemma length_cons (c : ascii) (s : string) :
  String.length (String c s) = S (String.length s).
Proof. reflexivity. Qed.

Lemma append_empty (t : string) : String.append EmptyString t = t.
Proof. reflexivity. Qed.

Lemma startsWith_append (p x : string) :
  JS.startsWith p (String.append p x) = true.
Proof.
  unfold JS.startsWith.
  induction p as [|c p IH].
  - rewrite append_empty. destruct x; reflexivity.
  - rewrite append_cons. cbn.
    destruct (Ascii.ascii_dec c c) as [_|ne]; [exact IH | contradiction].
Qed.

Lemma substring_all (s : string) :
  String.substring 0 (String.length s) s = s.
Proof.
  induction s as [|c s IH]; simpl; [reflexivity | now rewrite IH].
Qed.

Lemma substr_append (p x : string) :
  JS.substr (String.length p) (String.append p x) = x.
Proof.
  unfold JS.substr.
  induction p as [|c p IH].
  - rewrite append_empty. cbn. rewrite Nat.sub_0_r. apply substring_all.
  - rewrite append_cons. exact IH.
Qed.

(** A string that starts with [p] is [p] followed by its [substr]. *)
Lemma startsWith_split (p s : string) :
  JS.startsWith p s = true ->
  s = String.append p (JS.substr (String.length p) s).
Proof.
  unfold JS.startsWith, JS.substr.
  revert s; induction p as [|c p IH]; intros s H.
  - rewrite append_empty. cbn. rewrite Nat.sub_0_r. symmetry.
    apply substring_all.
  - destruct s as [|d s]; cbn in H; [discriminate H|].
    destruct (Ascii.ascii_dec c d) as [->|ne]; [|discriminate H].
    rewrite append_cons. f_equal. apply IH, H.
Qed.

Lemma compare_cons (c d : ascii) (s t : string) :
  String.compare (String c s) (String d t)
  = match Ascii.compare c d with
    | Eq => String.compare s t
    | other => other
    end.
Proof. reflexivity. Qed.

End StringFacts.

(** ** Base-36 numerals *)

Section Base36.

Lemma digit36_compare (x y : Z) :
  0 <= x < 36 -> 0 <= y < 36 ->
  Ascii.compare (JS.digit36 x) (JS.digit36 y) = (x ?= y).
Proof.
  intros Hx Hy.
  assert (E : digits_ordered = true) by (vm_compute; reflexivity).
  unfold digits_ordered in E.
  rewrite forallb_forall in E.
  specialize (E (Z.to_nat x)).
  rewrite forallb_forall in E.
  assert (Hin : forall z, 0 <= z < 36 -> In (Z.to_nat z) (seq 0 36))
    by (intros z Hz; apply in_seq; lia).
  specialize (E (Hin x Hx) (Z.to_nat y) (Hin y Hy)).
  rewrite !Z2Nat.id in E by lia.
  destruct (Ascii.compare _ _), (x ?= y); congruence.
Qed.

Lemma fixed36_append (w : nat) : forall n acc s,
  String.append (fixed36 w n acc) s = fixed36 w n (String.append acc s).
Proof.
  induction w as [|w IH]; intros n acc s; simpl; [reflexivity|].
  now rewrite IH, append_cons.
Qed.

Lemma fixed36_length (w : nat) : forall n acc,
  String.length (fixed36 w n acc) = (w + String.length acc)%nat.
Proof.
  induction w as [|w IH]; intros n acc; simpl; [reflexivity|].
  rewrite IH. simpl. lia.
Qed.

Lemma fixed36_leading_zero (w : nat) : forall n acc,
  0 <= n < 36 ^ Z.of_nat w ->
  fixed36 (S w) n acc = String "0"%char (fixed36 w n acc).
Proof.
  induction w as [|w IH]; intros n acc Hn.
  - simpl in Hn. assert (n = 0) by lia. subst n. reflexivity.
  - change (fixed36 (S (S w)) n acc)
      with (fixed36 (S w) (n / 36) (String (JS.digit36 (n mod 36)) acc)).
    rewrite IH; [reflexivity|].
    rewrite Nat2Z.inj_succ, Z.pow_succ_r in Hn by lia.
    split; [apply Z.div_pos; lia|].
    apply Z.div_lt_upper_bound; lia.
Qed.

(** On numbers of the same width, the order of the numerals is the order
    of the numbers, whatever follows the numerals. *)
Lemma fixed36_compare (w : nat) : forall a b s t,
  0 <= a < 36 ^ Z.of_nat w -> 0 <= b < 36 ^ Z.of_nat w ->
  String.compare (fixed36 w a s) (fixed36 w b t)
  = match a ?= b with
    | Eq => String.compare s t
    | other => other
    end.
Proof.
  induction w as [|w IH]; intros a b s t Ha Hb.
  - simpl in Ha, Hb. assert (a = 0) by lia. assert (b = 0) by lia.
    subst. reflexivity.
  - rewrite Nat2Z.inj_succ, Z.pow_succ_r in Ha, Hb by lia.
    simpl fixed36.
    rewrite IH.
    2:{ split; [apply Z.div_pos; lia | apply Z.div_lt_upper_bound; lia]. }
    2:{ split; [apply Z.div_pos; lia | apply Z.div_lt_upper_bound; lia]. }
    pose proof (Z.div_mod a 36 ltac:(lia)) as Da.
    pose proof (Z.div_mod b 36 ltac:(lia)) as Db.
    pose proof (Z.mod_pos_bound a 36 ltac:(lia)) as Ma.
    pose proof (Z.mod_pos_bound b 36 ltac:(lia)) as Mb.
    destruct (Z.compare_spec (a / 36) (b / 36)) as [E|L|G].
    + rewrite compare_cons, digit36_compare by assumption.
      destruct (Z.compare_spec (a mod 36) (b mod 36)) as [E'|L'|G'].
      * assert (a = b) by lia. subst b. now rewrite Z.compare_refl.
      * assert (a < b) by lia. now rewrite (proj2 (Z.compare_lt_iff a b)).
      * assert (b < a) by lia. now rewrite (proj2 (Z.compare_gt_iff a b)).
    + assert (a < b) by lia. now rewrite (proj2 (Z.compare_lt_iff a b)).
    + assert (b < a) by lia. now rewrite (proj2 (Z.compare_gt_iff a b)).
Qed.

Lemma toString36_aux_fixed (k : nat) : forall fuel n acc,
  (k < fuel)%nat ->
  36 ^ Z.of_nat k <= n < 36 ^ Z.of_nat (S k) ->
  JS.toString36_aux fuel n acc = fixed36 (S k) n acc.
Proof.
  induction k as [|k IH]; intros fuel n acc Hf Hn.
  - destruct fuel as [|fuel]; [lia|].
    change (36 ^ Z.of_nat 0) with 1 in Hn.
    change (36 ^ Z.of_nat 1) with 36 in Hn.
    simpl. rewrite Z.div_small by lia. reflexivity.
  - destruct fuel as [|fuel]; [lia|].
    rewrite !Nat2Z.inj_succ in Hn.
    rewrite !Z.pow_succ_r in Hn by lia.
    assert (Hq : 36 ^ Z.of_nat k <= n / 36 < 36 ^ Z.of_nat (S k)).
    { rewrite Nat2Z.inj_succ, Z.pow_succ_r by lia.
      split; [apply Z.div_le_lower_bound; lia
             | apply Z.div_lt_upper_bound; lia]. }
    assert (0 < 36 ^ Z.of_nat k) by (apply Z.pow_pos_nonneg; lia).
    simpl JS.toString36_aux.
    destruct (Z.eqb_spec (n / 36) 0) as [E|_]; [lia|].
    rewrite IH by (lia || assumption).
    reflexivity.
Qed.

(** The time part of an identifier, for a timestamp that takes seven or
    eight base-36 digits. *)
Lemma time_part_fixed (t : Z) :
  36 ^ 6 <= t < 36 ^ 8 ->
  JS.slice_last 8 (String "0"%char (JS.toString36 t)) = fixed36 8 t EmptyString.
Proof.
  intros Ht.
  unfold JS.toString36.
  destruct (Z.eqb_spec t 0) as [E|_]; [lia|].
  destruct (Z.ltb_spec t 0) as [E|_]; [lia|].
  assert (Hlog : 31 <= Z.log2 t).
  { change 31 with (Z.log2 (36 ^ 6)). apply Z.log2_le_mono. lia. }
  destruct (Z_lt_le_dec t (36 ^ 7)) as [Hlt|Hge].
  - rewrite (toString36_aux_fixed 6) by (simpl; lia).
    rewrite <- (fixed36_leading_zero 7) by (simpl; lia).
    unfold JS.slice_last. rewrite fixed36_length.
    change (8 + String.length EmptyString - 8)%nat with 0%nat.
    rewrite <- (substring_all (fixed36 8 t EmptyString)) at 2.
    now rewrite fixed36_length.
  - rewrite (toString36_aux_fixed 7) by (simpl; lia).
    unfold JS.slice_last. rewrite length_cons, fixed36_length.
    change (S (8 + String.length EmptyString) - 8)%nat with 1%nat.
    change (String.substring 1 8 (String "0"%char (fixed36 8 t EmptyString)))
      with (String.substring 0 8 (fixed36 8 t EmptyString)).
    rewrite <- (substring_all (fixed36 8 t EmptyString)) at 2.
    now rewrite fixed36_length.
Qed.

End Base36.

(** ** Identifier generator *)

Section IdentifierOrder.
Import IdGen.

Lemma generateCardId_issued (now rnd prev : Z) :
  exists t, generateCardId now rnd prev = (id_of t rnd, t)
            /\ prev < t /\ now - EPOCH_2016 <= t.
Proof.
  unfold generateCardId, id_of.
  destruct (Z.leb_spec (now - EPOCH_2016) prev).
  - exists (prev + 1). repeat split; lia.
  - exists (now - EPOCH_2016). repeat split; lia.
Qed.

Lemma id_of_lt (t1 r1 t2 r2 : Z) :
  36 ^ 6 <= t1 -> t1 < t2 -> t2 < 36 ^ 8 ->
  JS.str_lt (id_of t1 r1) (id_of t2 r2) = true.
Proof.
  intros H1 H12 H2.
  unfold JS.str_lt, String.ltb, id_of.
  rewrite !time_part_fixed by lia.
  rewrite !fixed36_append.
  rewrite (fixed36_compare 8) by (change (36 ^ Z.of_nat 8) with (36 ^ 8); lia).
  now rewrite (proj2 (Z.compare_lt_iff t1 t2)).
Qed.

Lemma generateMany_sorted (inputs : list (Z * Z)) :
  forall prev ids last,
    generateMany prev inputs = (ids, last) ->
    Forall (fun i => EPOCH_2016 + 36 ^ 6 <= fst i) inputs ->
    last < 36 ^ 8 ->
    prev <= last
    /\ StronglySorted (fun a b => JS.str_lt a b = true) ids
    /\ Forall (fun id => forall t r, 36 ^ 6 <= t <= prev ->
                                     JS.str_lt (id_of t r) id = true) ids.
Proof.
  induction inputs as [|[now rnd] rest IH]; intros prev ids last Hrun Hclk Hlast.
  - inversion Hrun; subst. repeat split; try lia; constructor.
  - cbn [generateMany] in Hrun.
    destruct (generateCardId_issued now rnd prev) as (t & Hgen & Hprev & Hnow).
    rewrite Hgen in Hrun.
    destruct (generateMany t rest) as [ids' last'] eqn:Hrest.
    inversion Hrun; subst; clear Hrun.
    inversion Hclk as [|? ? Hhd Htl]; subst. simpl in Hhd.
    destruct (IH t ids' last Hrest Htl Hlast) as (Hle & Hsorted & Hbelow).
    repeat split.
    + lia.
    + constructor; [assumption|].
      eapply List.Forall_impl; [|exact Hbelow].
      intros id Hid. apply Hid. lia.
    + constructor.
      * intros t0 r0 Ht0. apply id_of_lt; lia.
      * eapply List.Forall_impl; [|exact Hbelow].
        intros id Hid t0 r0 Ht0. apply Hid. lia.
Qed.

End IdentifierOrder.

(** C8 (as amended).  For every sequence of calls to the identifier
    generator within one process, each identifier is strictly greater, as a
    string, than every identifier generated before it -- also when several
    calls read the same millisecond or the clock goes back -- provided the
    clock never reads earlier than 36^6 ms after 1 Jan 2016 and the last
    timestamp issued is below 36^8. *)
Theorem generateCardId_strictly_ascending
    (prev : Z) (inputs : list (Z * Z)) (ids : list string) (last : Z) :
  IdGen.generateMany prev inputs = (ids, last) ->
  Forall (fun i => IdGen.EPOCH_2016 + 36 ^ 6 <= fst i) inputs ->
  last < 36 ^ 8 ->
  StronglySorted (fun a b => JS.str_lt a b = true) ids.
Proof.
  intros Hrun Hclk Hlast.
  exact (proj1 (proj2 (generateMany_sorted inputs prev ids last Hrun Hclk Hlast))).
Qed.

(** Three calls in the same millisecond of 2023, then one a millisecond
    earlier. *)
Lemma generateCardId_strictly_ascending_witness :
  StronglySorted (fun a b => JS.str_lt a b = true)
    ["363z4we900z"; "363z4wea00z"; "363z4web000"; "363z4wec001"].
Proof.
  apply (generateCardId_strictly_ascending 0
           [(1700000000001, 35); (1700000000001, 35);
            (1700000000001, 0); (1700000000000, 1)]
           _ 248393600004).
  - vm_compute. reflexivity.
  - repeat constructor; vm_compute; discriminate.
  - reflexivity.
Defined.

(** C8, counterexample.  With a clock stuck at the Unix epoch (before
    2016) the counter alone drives the timestamps 1, 2, 3, ...; the 35th
    identifier is "0z000" and the 36th is "010000", which is smaller. *)
Lemma generateCardId_short_numerals_descend :
  let ids := fst (IdGen.generateMany 0 (repeat (0, 0) 36)) in
  nth 34 ids EmptyString = "0z000"%string
  /\ nth 35 ids EmptyString = "010000"%string
  /\ JS.str_lt "0z000" "010000" = false.
Proof. vm_compute. repeat split. Qed.

(** ** Conflict resolution *)

(** C9 (as amended).  Of two conflicting note revisions [a] and [b] the
    resolver keeps [a] when [a] was created later.  Otherwise -- [b] was
    created later or at the same time -- it keeps [a] when [a]'s [modified]
    is not earlier than [b]'s [created], and keeps [b] when it is earlier.
    In particular, on equal [created] timestamps [a] is kept exactly when
    its [modified] is not earlier than that common timestamp. *)
Theorem resolveNote_policy (a b : NoteStore.NoteContent) :
  (NoteStore.created b < NoteStore.created a -> NoteStore.resolveNote a b = a)
  /\ (NoteStore.created a <= NoteStore.created b ->
      NoteStore.created b <= NoteStore.modified a ->
      NoteStore.resolveNote a b = a)
  /\ (NoteStore.created a <= NoteStore.created b ->
      NoteStore.modified a < NoteStore.created b ->
      NoteStore.resolveNote a b = b).
Proof.
  unfold NoteStore.resolveNote.
  destruct (Z.gtb_spec (NoteStore.created a) (NoteStore.created b));
    destruct (Z.geb_spec (NoteStore.modified a) (NoteStore.created b));
    repeat split; intros; try reflexivity; lia.
Qed.

Lemma resolveNote_policy_witness :
  NoteStore.resolveNote note_b note_a = note_b
  /\ NoteStore.resolveNote note_a note_b = note_a
  /\ NoteStore.resolveNote note_a note_c = note_c.
Proof.
  split; [|split].
  - apply (proj1 (resolveNote_policy note_b note_a)). reflexivity.
  - apply (proj1 (proj2 (resolveNote_policy note_a note_b))); vm_compute; discriminate.
  - apply (proj2 (proj2 (resolveNote_policy note_a note_c))); vm_compute;
      (discriminate || reflexivity).
Defined.

(** C9, counterexample.  [note_b] was created later than [note_a], but
    [note_a] was modified after [note_b]'s creation: the resolver keeps
    [note_a], the revision with the earlier [created]. *)
Lemma resolveNote_keeps_earlier_created :
  NoteStore.created note_a < NoteStore.created note_b
  /\ NoteStore.resolveNote note_a note_b = note_a
  /\ note_a <> note_b.
Proof. repeat split; discriminate. Qed.

(** ** Overdueness scores *)

Section Overdueness.
Import Pouch CardStore.
Local Open Scope R_scope.


Lemma exp_nat_ge_pow2 (n : nat) : 2 ^ n <= exp (INR n).
Proof.
  induction n as [|n IH].
  - simpl. rewrite exp_0. lra.
  - rewrite S_INR, exp_plus. simpl pow.
    pose proof (exp_ineq1_le 1).
    assert (0 <= 2 ^ n) by (apply pow_le; lra).
    rewrite Rmult_comm.
    apply Rmult_le_compat; lra.
Qed.



Lemma number_key_finite (s : R) :
  - IZR MAX_VALUE <= s <= IZR MAX_VALUE -> number_key s = KNum s.
Proof.
  intros [Hlo Hhi]. unfold number_key.
  destruct (Rle_dec (- IZR MAX_VALUE) s); [|contradiction].
  destruct (Rle_dec s (IZR MAX_VALUE)); [reflexivity | contradiction].
Qed.

Lemma number_key_zero : number_key 0 = KNum 0.
Proof.
  apply number_key_finite.
  assert (H : 0 <= IZR MAX_VALUE) by (apply IZR_le; vm_compute; discriminate).
  lra.
Qed.


(** A score that overflows: level 1, 500000 days overdue. *)
Lemma overdueValue_above_sentinel :
  IZR MAX_VALUE < overdueValue (500001 * 86400000) 1 0.
Proof.
  unfold overdueValue.
  change (IZR MS_PER_DAY) with 86400000.
  replace ((IZR (500001 * 86400000) - 0) / 86400000 - 1) with 500000
    by (rewrite mult_IZR; field).
  assert (Hexp : IZR (2 ^ 1125) <= exp (EXP_FACTOR * 500000)).
  { replace (EXP_FACTOR * 500000) with (INR 1125)
      by (rewrite INR_IZR_INZ; change (IZR (Z.of_nat 1125)) with 1125;
          unfold EXP_FACTOR; lra).
    eapply Rle_trans; [|apply exp_nat_ge_pow2].
    rewrite pow_IZR. right. reflexivity. }
  apply Rlt_le_trans with (IZR (2 ^ 1125 - 1)).
  - apply IZR_lt. reflexivity.
  - rewrite minus_IZR. lra.
Qed.

(** Its key is [null]. *)
Lemma overflowing_score_null :
  number_key (overdueValue (500001 * 86400000) 1 0) = KNull.
Proof.
  pose proof overdueValue_above_sentinel as H. unfold number_key.
  destruct (Rle_dec _ _); [|reflexivity].
  destruct (Rle_dec _ _); [exfalso; lra | reflexivity].
Qed.

End Overdueness.

(** ** Listings *)

Section Listings.
Import Pouch CardStore.

Lemma elem_of_view_rows (mapFn : MapFunction) (db : gmap string Stored) (row : Row) :
  row ∈ view_rows mapFn db <->
  exists d, db !! r_docid row = Some d
            /\ (r_key row, r_value row) ∈ mapFn (r_docid row) (body d).
Proof.
  unfold view_rows.
  rewrite merge_sort_Permutation.
  rewrite list_elem_of_bind.
  split.
  - intros ([id d] & Hrow & Hin).
    apply elem_of_map_to_list in Hin.
    apply list_elem_of_fmap in Hrow as ([k v] & -> & Hkv).
    exists d. simpl. split; assumption.
  - intros (d & Hd & Hkv).
    exists (r_docid row, d). split.
    + apply list_elem_of_fmap. exists (r_key row, r_value row).
      split; [destruct row; reflexivity | assumption].
    + now apply elem_of_map_to_list.
Qed.

(** Every row a query returns is a row of the view, lies in the requested
    range, and carries the document its value links to. *)
Lemma elem_of_query_1 mapFn db o row doc :
  (row, doc) ∈ query mapFn db o ->
  row ∈ view_rows mapFn db
  /\ key_within (fst (query_bounds o)) (snd (query_bounds o)) (r_key row) = true
  /\ doc = db !! e_id (r_value row).
Proof.
  unfold query, query_bounds.
  destruct (descending o); cbn zeta beta iota;
    rewrite list_elem_of_In, in_map_iff;
    intros (r & Heq & Hin); inversion Heq; subst; clear Heq;
    rewrite <- list_elem_of_In in Hin;
    (assert (Hin' : row ∈ List.filter
               (fun r => key_within _ _ (r_key r)) _)
      by (destruct (q_limit o); [eapply subseteq_take|]; exact Hin));
    rewrite list_elem_of_In, filter_In, <- list_elem_of_In in Hin';
    destruct Hin' as [Hrow Hkey];
    try rewrite elem_of_reverse in Hrow; auto.
Qed.

(** Without a limit, these are all the rows returned. *)
Lemma elem_of_query_nolimit mapFn db o row doc :
  q_limit o = None ->
  (row, doc) ∈ query mapFn db o <->
  row ∈ view_rows mapFn db
  /\ key_within (fst (query_bounds o)) (snd (query_bounds o)) (r_key row) = true
  /\ doc = db !! e_id (r_value row).
Proof.
  intros Hlim. split; [apply elem_of_query_1|].
  intros (Hrow & Hkey & ->).
  unfold query, query_bounds in *. rewrite Hlim.
  destruct (descending o); cbn zeta beta iota in *;
    rewrite list_elem_of_In; apply in_map_iff; exists row;
    (split; [reflexivity|]); apply filter_In.
    all: split; [|assumption]. all: apply list_elem_of_In.
    1: apply elem_of_reverse. all: assumption.
Qed.

Lemma stripCardPrefix_linked (x : string) :
  stripCardPrefix (linked_card (String.append PROGRESS_PREFIX x)) = x.
Proof.
  unfold stripCardPrefix, linked_card, stripProgressPrefix.
  now rewrite !substr_append.
Qed.

Lemma stripCardPrefix_append (x : string) :
  stripCardPrefix (String.append CARD_PREFIX x) = x.
Proof. unfold stripCardPrefix. now rewrite substr_append. Qed.

Lemma linked_card_progress (x : string) :
  linked_card (String.append PROGRESS_PREFIX x) = String.append CARD_PREFIX x.
Proof.
  unfold linked_card, stripProgressPrefix. now rewrite substr_append.
Qed.

Lemma getCards_unfold reviewTime db o :
  getCards reviewTime db o
  = omap (fun '(row, doc) =>
            match doc with
            | Some d => Some (card_of_row row d)
            | None => None
            end)
      (query (view_of reviewTime o) db (options_of o)).
Proof.
  unfold getCards, view_of, options_of. destruct (type o); reflexivity.
Qed.

Lemma elem_of_getCards_1 reviewTime db o c :
  c ∈ getCards reviewTime db o ->
  exists row d,
    row ∈ view_rows (view_of reviewTime o) db
    /\ key_within (endkey (options_of o)) (startkey (options_of o)) (r_key row) = true
    /\ db !! e_id (r_value row) = Some d
    /\ c = card_of_row row d.
Proof.
  rewrite getCards_unfold, list_elem_of_omap.
  intros ([row doc] & Hin & Hc).
  apply elem_of_query_1 in Hin as (Hrow & Hkey & ->).
  destruct (db !! e_id (r_value row)) as [d|] eqn:Hd; [|discriminate].
  exists row, d. inversion Hc; subst.
  assert (Hdesc : descending (options_of o) = true)
    by (unfold options_of; destruct (type o); reflexivity).
  unfold query_bounds in Hkey. rewrite Hdesc in Hkey.
  auto.
Qed.

Lemma elem_of_getCards_nolimit reviewTime db o c :
  limit o = None ->
  c ∈ getCards reviewTime db o <->
  exists row d,
    row ∈ view_rows (view_of reviewTime o) db
    /\ key_within (endkey (options_of o)) (startkey (options_of o)) (r_key row) = true
    /\ db !! e_id (r_value row) = Some d
    /\ c = card_of_row row d.
Proof.
  intros Hlim. split; [apply elem_of_getCards_1|].
  intros (row & d & Hrow & Hkey & Hd & ->).
  rewrite getCards_unfold, list_elem_of_omap.
  exists (row, Some d). split; [|reflexivity].
  assert (Hdesc : descending (options_of o) = true)
    by (unfold options_of; destruct (type o); reflexivity).
  apply elem_of_query_nolimit.
  - unfold options_of; destruct (type o); exact Hlim.
  - unfold query_bounds. rewrite Hdesc. auto.
Qed.

(** The rows of the "new cards" view. *)
Lemma newCardMapFunction_emits id doc k v :
  (k, v) ∈ newCardMapFunction id doc <->
  exists x p, id = String.append PROGRESS_PREFIX x
              /\ doc = BProgress p /\ reviewed p = None
              /\ k = KStr id
              /\ v = mkEmitted (String.append CARD_PREFIX x) (Num (level p)) Null.
Proof.
  unfold newCardMapFunction. split.
  - destruct (JS.startsWith PROGRESS_PREFIX id) eqn:Hpre; cbn [negb orb].
    2:{ intros H. inversion H. }
    destruct doc as [c|p|r|]; cbn; try (intros H; inversion H; fail).
    destruct (reviewed p) as [rv|] eqn:Hrv; cbn; [intros H; inversion H|].
    intros H. apply list_elem_of_singleton in H. inversion H; subst.
    apply startsWith_split in Hpre.
    exists (JS.substr (String.length PROGRESS_PREFIX) id), p.
    repeat split; assumption.
  - intros (x & p & -> & -> & Hrv & -> & ->).
    rewrite startsWith_append. cbn. rewrite Hrv. cbn.
    rewrite linked_card_progress. apply list_elem_of_singleton. reflexivity.
Qed.

(** The rows of the overdueness view. *)
Lemma overduenessFunction_emits reviewTime id doc k v :
  (k, v) ∈ overduenessFunction reviewTime id doc ->
  exists x p rvw, id = String.append PROGRESS_PREFIX x
              /\ doc = BProgress p /\ reviewed p = Some rvw
              /\ k = (if level p =? 0 then KNum (IZR MAX_VALUE)
                      else number_key (overdueValue reviewTime (level p) rvw))
              /\ e_id v = String.append CARD_PREFIX x.
Proof.
  unfold overduenessFunction.
  destruct (JS.startsWith PROGRESS_PREFIX id) eqn:Hpre; cbn [negb].
  2:{ intros H. inversion H. }
  destruct doc as [c|p|r|]; cbn; try (intros H; inversion H; fail).
  destruct (reviewed p) as [rv|] eqn:Hrv; cbn; [|intros H; inversion H].
  apply startsWith_split in Hpre.
  intros H.
  exists (JS.substr (String.length PROGRESS_PREFIX) id), p, rv.
  destruct (level p =? 0); apply list_elem_of_singleton in H;
    inversion H; subst; repeat split; assumption.
Qed.

End Listings.

(** C5 (as amended).  Without a limit, the "new only" listing ([getCards]
    with type 'new') returns exactly the entities whose Progress record has
    never been reviewed ([reviewed] is [null]) and whose Card document
    exists, whatever the level of the Progress record. *)
Theorem getCards_new_lists_unreviewed
    (reviewTime : Z) (db : gmap string Pouch.Stored) (skip : bool)
    (c : CardStore.Card) :
  c ∈ CardStore.getCards reviewTime db
        (CardStore.mkGetCards None CardStore.NewCards skip)
  <->
  exists (x : string) (p : Pouch.ProgressRecord) (dp dc : Pouch.Stored),
    db !! String.append CardStore.PROGRESS_PREFIX x = Some dp
    /\ Pouch.body dp = Pouch.BProgress p
    /\ Pouch.reviewed p = None
    /\ db !! String.append CardStore.CARD_PREFIX x = Some dc
    /\ c = CardStore.mkCardView x (Pouch.body dc)
             (CardStore.mkProgressView (Pouch.Num (Pouch.level p)) None).
Proof.
  rewrite elem_of_getCards_nolimit by reflexivity.
  split.
  - intros (row & d & Hrow & _ & Hd & ->).
    apply elem_of_view_rows in Hrow as (dp & Hdp & Hemit).
    apply newCardMapFunction_emits in Hemit
      as (x & p & Hid & Hbody & Hrv & Hk & Hv).
    exists x, p, dp, d.
    rewrite <- Hid. repeat split; try assumption.
    + now rewrite Hv in Hd.
    + unfold card_of_row. rewrite Hv.
      cbn [CardStore.e_id CardStore.e_level CardStore.e_reviewed].
      now rewrite stripCardPrefix_append.
  - intros (x & p & dp & dc & Hdp & Hbody & Hrv & Hdc & ->).
    exists (CardStore.mkRow (String.append CardStore.PROGRESS_PREFIX x)
              (CardStore.KStr (String.append CardStore.PROGRESS_PREFIX x))
              (CardStore.mkEmitted (String.append CardStore.CARD_PREFIX x)
                 (Pouch.Num (Pouch.level p)) Pouch.Null)), dc.
    repeat split.
    + apply elem_of_view_rows. exists dp. split; [exact Hdp|].
      apply newCardMapFunction_emits. exists x, p. cbn. auto.
    + exact Hdc.
    + unfold card_of_row.
      cbn [CardStore.e_id CardStore.e_level CardStore.e_reviewed CardStore.r_value].
      now rewrite stripCardPrefix_append.
Qed.

(** C5, counterexample.  Entity [a] was failed (level 0, reviewed), entity
    [b] was created at level 2 and never reviewed.  The "new only" listing
    returns [b] and not [a]. *)
Lemma getCards_new_is_not_level0 :
  CardStore.getCards 0 failed_and_fresh
    (CardStore.mkGetCards None CardStore.NewCards false)
  = [ CardStore.mkCardView "b" (Pouch.BCard (Pouch.mkCard "Q2" "A2" 20 20))
        (CardStore.mkProgressView (Pouch.Num 2) None) ].
Proof. vm_compute. reflexivity. Qed.




(** C10.  The overdue listing with the skip-failed-cards filter contains no
    entity whose Progress level is 0: such a record is either not scored at
    all or scored [Number.MAX_VALUE], which lies strictly above the start
    key [Number.MAX_SAFE_INTEGER] of the query. *)
Theorem getCards_overdue_skipFailed_excludes_level0
    (reviewTime : Z) (db : gmap string Pouch.Stored) (lim : option nat)
    (x : string) (d : Pouch.Stored) (p : Pouch.ProgressRecord)
    (c : CardStore.Card) :
  db !! String.append CardStore.PROGRESS_PREFIX x = Some d ->
  Pouch.body d = Pouch.BProgress p ->
  Pouch.level p = 0%Z ->
  c ∈ CardStore.getCards reviewTime db
        (CardStore.mkGetCards lim CardStore.OverdueCards true) ->
  CardStore.c_id c <> x
  /\ (CardStore.MAX_SAFE_INTEGER < CardStore.MAX_VALUE)%Z.
Proof.
  intros Hd Hbody Hlevel Hc.
  split; [|reflexivity].
  apply elem_of_getCards_1 in Hc as (row & dc & Hrow & Hkey & Hdc & ->).
  apply elem_of_view_rows in Hrow as (dp & Hdp & Hemit).
  apply overduenessFunction_emits in Hemit
    as (x' & p' & rvw & Hid & Hbody' & Hrv & Hk & Hv).
  unfold card_of_row. cbn [CardStore.c_id]. rewrite Hv, stripCardPrefix_append.
  intros ->.
  rewrite Hid, Hd in Hdp. inversion Hdp; subst dp.
  rewrite Hbody in Hbody'. inversion Hbody'; subst p'.
  rewrite Hlevel in Hk. cbn in Hk. rewrite Hk in Hkey.
  cbn in Hkey. apply andb_prop in Hkey as [_ Hhi].
  apply bool_decide_eq_true_1 in Hhi. cbn in Hhi.
  apply le_IZR in Hhi. revert Hhi. vm_compute. intros H. apply H. reflexivity.
Qed.

(** A level-1 card reviewed exactly one day before the reference time has
    score 0 and is listed. *)
Lemma due_card_listed :
  due_card ∈ CardStore.getCards 86400000 failed_and_due
               (CardStore.mkGetCards None CardStore.OverdueCards true).
Proof.
  apply elem_of_getCards_nolimit; [reflexivity|].
  exists (CardStore.mkRow "progress-b"
            (CardStore.number_key (CardStore.overdueValue 86400000 1 0))
            (CardStore.mkEmitted "card-b" (Pouch.Num 1) (Pouch.Num 0))),
         (Pouch.mkStored 3 (Pouch.BCard (Pouch.mkCard "Q2" "A2" 20 20)) []).
  assert (Hscore : CardStore.overdueValue 86400000 1 0 = 0%R).
  { unfold CardStore.overdueValue.
    change (IZR CardStore.MS_PER_DAY) with 86400000%R.
    replace ((86400000 - 0) / 86400000 - 1)%R with 0%R by field.
    rewrite Rmult_0_r, exp_0. field. }
  split; [|split; [|split]].
  - apply elem_of_view_rows.
    exists (Pouch.mkStored 4 (Pouch.BProgress (Pouch.mkProgress 1 (Some 0))) []).
    split; [vm_compute; reflexivity|].
    apply list_elem_of_singleton. reflexivity.
  - unfold options_of.
    cbn [CardStore.type CardStore.skipFailedCards CardStore.limit
           CardStore.endkey CardStore.startkey CardStore.r_key].
    rewrite Hscore, number_key_zero. unfold CardStore.key_within.
    apply andb_true_intro. split; apply bool_decide_eq_true_2; cbn.
    + lra.
    + apply IZR_le. vm_compute. discriminate.
  - vm_compute. reflexivity.
  - vm_compute. reflexivity.
Qed.

Lemma getCards_overdue_skipFailed_excludes_level0_witness :
  CardStore.c_id due_card <> "a"%string
  /\ (CardStore.MAX_SAFE_INTEGER < CardStore.MAX_VALUE)%Z.
Proof.
  apply (getCards_overdue_skipFailed_excludes_level0 86400000 failed_and_due None
           "a" (Pouch.mkStored 2 (Pouch.BProgress (Pouch.mkProgress 0 (Some 0))) [])
           (Pouch.mkProgress 0 (Some 0)) due_card).
  - vm_compute. reflexivity.
  - reflexivity.
  - reflexivity.
  - exact due_card_listed.
Defined.

(** ** Creating a card *)

Section Creation.
Import Pouch CardStore.
Variable env : Env.

Lemma db_put_ok id b w r w1 :
  db_put env id b w = (Ok r, w1) ->
  db w !! id = None
  /\ r = S (requests w)
  /\ requests w1 = S (requests w)
  /\ db w1 = <[id := mkStored r b []]> (db w).
Proof.
  unfold db_put, request.
  destruct (faultAt env (requests w)); [discriminate|].
  cbn [db next_request].
  destruct (db w !! id) eqn:Hlk; [discriminate|].
  intros H. inversion H; subst. cbn. auto.
Qed.

Lemma db_put_throw id b w e w2 :
  db_put env id b w = (Throw e, w2) ->
  db w2 = db w /\ requests w2 = S (requests w).
Proof.
  unfold db_put, request.
  destruct (faultAt env (requests w)).
  - intros H. inversion H; subst. cbn. auto.
  - cbn [db next_request].
    destruct (db w !! id) eqn:Hlk; [|discriminate].
    intros H. inversion H; subst. cbn. auto.
Qed.

Lemma db_remove_matching id r b w :
  faultAt env (requests w) = None ->
  db w !! id = Some (mkStored r b []) ->
  exists w3, db_remove env id r w = (Ok tt, w3) /\ db w3 = delete id (db w).
Proof.
  intros Hf Hlk. unfold db_remove, request. rewrite Hf.
  cbn [db next_request]. rewrite Hlk. cbn [rev].
  rewrite Nat.eqb_refl. eexists. split; reflexivity.
Qed.

Lemma db_remove_result id r w :
  exists res w3, db_remove env id r w = (res, w3).
Proof. destruct (db_remove env id r w) as [res w3]. eauto. Qed.

End Creation.

(** C2 (as amended).  In the attempt of a create call in which the Card
    document is written and the write of the paired Progress document then
    fails, the operation rejects.  When the request to remove the Card
    document is not itself failed by the environment, the Card document is
    gone afterwards -- the database holds what it held before the attempt --
    and the error surfaced is the one of the Progress write. *)
Theorem tryPutNewCard_rolls_back
    (env : Pouch.Env) (fuel : nat) (card : Pouch.CardRecord)
    (progress : Pouch.ProgressRecord) (id : string)
    (w w1 w2 : CardStore.Store) (r : nat) (err : Pouch.PouchError) :
  CardStore.db_put env (String.append CardStore.CARD_PREFIX id)
    (Pouch.BCard card) w = (Pouch.Ok r, w1) ->
  CardStore.db_put env (String.append CardStore.PROGRESS_PREFIX id)
    (Pouch.BProgress progress) w1 = (Pouch.Throw err, w2) ->
  (exists e w3,
     CardStore.tryPutNewCard env (S fuel) card progress id w = (Pouch.Throw e, w3))
  /\ (Pouch.faultAt env (CardStore.requests w2) = None ->
      exists w3,
        CardStore.tryPutNewCard env (S fuel) card progress id w
        = (Pouch.Throw err, w3)
        /\ CardStore.db w3 !! String.append CardStore.CARD_PREFIX id = None
        /\ CardStore.db w3 = CardStore.db w).
Proof.
  intros Hcard Hprogress.
  assert (Hrun :
    CardStore.tryPutNewCard env (S fuel) card progress id w
    = match CardStore.db_remove env
              (String.append CardStore.CARD_PREFIX id) r w2 with
      | (Pouch.Ok _, w3) => (Pouch.Throw err, w3)
      | (Pouch.Throw e, w3) => (Pouch.Throw e, w3)
      end).
  { cbn [CardStore.tryPutNewCard]. rewrite Hcard.
    unfold CardStore.try_catch, CardStore.bind at 1. rewrite Hprogress.
    unfold CardStore.bind, CardStore.throw.
    destruct (CardStore.db_remove env _ r w2) as [[[]|e] w3]; reflexivity. }
  split.
  - rewrite Hrun.
    destruct (CardStore.db_remove env _ r w2) as [[[]|e] w3]; eauto.
  - intros Hnofault.
    apply db_put_ok in Hcard as (Hfree & -> & Hreq1 & Hdb1).
    apply db_put_throw in Hprogress as (Hdb2 & Hreq2).
    destruct (db_remove_matching env (String.append CardStore.CARD_PREFIX id)
                (S (CardStore.requests w)) (Pouch.BCard card) w2 Hnofault)
      as (w3 & Hrm & Hdb3).
    { rewrite Hdb2, Hdb1. apply lookup_insert_eq. }
    exists w3. rewrite Hrun, Hrm.
    split; [reflexivity|].
    rewrite Hdb3, Hdb2, Hdb1.
    split; [apply lookup_delete_eq|].
    rewrite delete_insert_eq. now apply delete_id.
Qed.

Lemma tryPutNewCard_rolls_back_witness :
  exists w3,
    CardStore.tryPutNewCard env_progress_fails 1 card_QA progress_new
      "363z4we8007" empty_store = (Pouch.Throw quota_error, w3)
    /\ CardStore.db w3 !! "card-363z4we8007"%string = None
    /\ CardStore.db w3 = CardStore.db empty_store.
Proof.
  pose (w1 := snd (CardStore.db_put env_progress_fails "card-363z4we8007"
                     (Pouch.BCard card_QA) empty_store)).
  pose (w2 := snd (CardStore.db_put env_progress_fails "progress-363z4we8007"
                     (Pouch.BProgress progress_new) w1)).
  apply (proj2 (tryPutNewCard_rolls_back env_progress_fails 0 card_QA
                  progress_new "363z4we8007" empty_store w1 w2 1 quota_error
                  ltac:(vm_compute; reflexivity) ltac:(vm_compute; reflexivity))).
  vm_compute. reflexivity.
Defined.

(** C2, counterexample.  A create call on an empty store: the Card write
    succeeds, the Progress write fails, and the removal of the Card fails
    as well.  The call rejects with the error of the removal and the store
    keeps the Card document without a Progress document. *)
Lemma putNewCard_leaves_card_only :
  let '(res, w') :=
    CardStore._putNewCard env_rollback_fails 3
      (CardStore.mkPartialCard None (Some "Q"%string) (Some "A"%string) None)
      empty_store in
  res = Pouch.Throw offline_error
  /\ CardStore.db w' !! "card-363z4we8007"%string
     = Some (Pouch.mkStored 1 (Pouch.BCard card_QA) [])
  /\ CardStore.db w' !! "progress-363z4we8007"%string = None.
Proof. vm_compute. repeat split. Qed.

(** ** Live synchronisation *)

Section Sync.
Import Pouch CardStore.
Variable env : Env.

Hypothesis no_faults : forall n, faultAt env n = None.

(** The winner among review records is one of them, and none is more
    complete. *)
Lemma choose_winner_reviews (rs : list ReviewRecord) : forall r,
  exists r',
    choose_winner chooseReview (BReview r) (BReview <$> rs) = Ok (BReview r')
    /\ r' ∈ r :: rs
    /\ forall x, x ∈ r :: rs -> completeness x <= completeness r'.
Proof.
  induction rs as [|c rs IH]; intros r.
  - exists r. split; [reflexivity|]. split; [apply list_elem_of_here|].
    intros x Hx. apply list_elem_of_singleton in Hx. subst. lia.
  - cbn [fmap list_fmap choose_winner chooseReview].
    destruct (IH (resolveReview c r)) as (r' & Hrun & Hin & Hmax).
    exists r'. split; [exact Hrun|].
    assert (Hstep : (resolveReview c r = c \/ resolveReview c r = r)
                    /\ completeness c <= completeness (resolveReview c r)
                    /\ completeness r <= completeness (resolveReview c r)).
    { unfold resolveReview.
      destruct (Z.geb_spec (completeness c) (completeness r)); split; auto; lia. }
    destruct Hstep as (Hwho & Hc & Hr).
    split.
    + apply elem_of_cons in Hin as [-> | Hin].
      * destruct Hwho as [-> | ->];
          [apply list_elem_of_further, list_elem_of_here | apply list_elem_of_here].
      * now apply list_elem_of_further, list_elem_of_further.
    + intros x Hx.
      assert (Hr' : completeness (resolveReview c r) <= completeness r')
        by (apply Hmax, list_elem_of_here).
      apply elem_of_cons in Hx as [-> | Hx]; [lia|].
      apply elem_of_cons in Hx as [-> | Hx]; [lia|].
      now apply Hmax, list_elem_of_further.
Qed.

(** One pulled review: when the database reports conflicts, they are
    resolved in favour of a most complete revision. *)
Lemma onSyncReviewChange_effect doc w d :
  i_deleted doc = false ->
  db w !! i_id doc = Some d ->
  review_revisions d ->
  exists w' d',
    onSyncReviewChange env doc w = (Ok tt, w')
    /\ sessions w' = sessions w /\ remoteDb w' = remoteDb w
    /\ log w' = log w
                ++ match conflicts d with
                   | [] => []
                   | _ :: _ => [ResolveConflicts (i_id doc) (body d) (conflicts d)]
                   end
    /\ (forall k, db w' !! k
                  = if String.eqb k (i_id doc) then Some d' else db w !! k)
    /\ conflicts d' = []
    /\ kept_from d d'
    /\ (conflicts d = [] -> d' = d).
Proof.
  intros Hdel Hd (r & rs & Hbody & Hconf). unfold onSyncReviewChange. rewrite Hdel.
  unfold bind at 1. unfold db_get, request. rewrite no_faults.
  cbn [db next_request]. rewrite Hd.
  destruct (conflicts d) as [|c cs] eqn:Hc.
  - exists (next_request w), d. split; [reflexivity|].
    cbn [sessions remoteDb log next_request]. rewrite app_nil_r.
    split; [reflexivity|]. split; [reflexivity|]. split; [reflexivity|].
    split.
    { intros k. cbn [db next_request].
      destruct (String.eqb_spec k (i_id doc)) as [-> | _];
        [exact Hd | reflexivity]. }
    split; [exact Hc|]. split; [|auto].
    exists r, rs, r. rewrite Hc. split; [exact Hbody|]. split; [exact Hconf|].
    split; [exact Hbody|]. split; [apply list_elem_of_here|].
    destruct rs; [|discriminate Hconf].
    intros x Hx. apply list_elem_of_singleton in Hx. subst. lia.
  - destruct (choose_winner_reviews rs r) as (r' & Hwin & Hin & Hmax).
    unfold resolveConflicts, bind, modify, request, ret, throw.
    rewrite Hbody, Hc, Hconf, Hwin. rewrite !no_faults.
    eexists _, (mkStored _ (BReview r') []). split; [reflexivity|].
    cbn [sessions remoteDb log db with_db next_request emit].
    split; [reflexivity|]. split; [reflexivity|]. split; [reflexivity|].
    split.
    { intros k. destruct (String.eqb_spec k (i_id doc)) as [-> | Hne].
      - apply lookup_insert_eq.
      - now apply lookup_insert_ne. }
    split; [reflexivity|]. split.
    + exists r, rs, r'. split; [exact Hbody|]. split; [congruence|]. auto.
    + intros E. rewrite E in Hconf. discriminate Hconf.
Qed.

(** What the requests of a batch depend on: two databases that differ
    only in documents without conflicts give rise to the same
    requests. *)
Lemma resolutions_for_ext (docs : list Incoming) : forall db1 db2,
  (forall k, db1 !! k = db2 !! k
             \/ exists d1 d2, db1 !! k = Some d1 /\ db2 !! k = Some d2
                              /\ conflicts d1 = [] /\ conflicts d2 = []) ->
  resolutions_for db1 docs = resolutions_for db2 docs.
Proof.
  induction docs as [|doc rest IH]; intros db1 db2 Hrel; [reflexivity|].
  cbn [resolutions_for].
  destruct (JS.startsWith REVIEW_PREFIX (i_id doc) && negb (i_deleted doc));
    [|now apply IH].
  destruct (Hrel (i_id doc)) as [Heq | (d1 & d2 & -> & -> & -> & ->)];
    [|now apply IH].
  rewrite Heq. destruct (db2 !! i_id doc) as [d|]; [|now apply IH].
  destruct (conflicts d); [now apply IH|].
  f_equal. apply IH. intros k.
  destruct (decide (k = i_id doc)) as [-> | Hne].
  - left. now rewrite !lookup_insert_eq.
  - rewrite !lookup_insert_ne by congruence. apply Hrel.
Qed.

Lemma pulled_review_cons doc rest id :
  pulled_review (doc :: rest) id
  = (String.eqb (i_id doc) id
     && JS.startsWith REVIEW_PREFIX (i_id doc) && negb (i_deleted doc))
    || pulled_review rest id.
Proof. reflexivity. Qed.

(** A pulled batch: the conflicts of its reviews are resolved one after
    the other, and nothing else changes. *)
Lemma onSyncChange_effect (docs : list Incoming) : forall w,
  (forall doc, doc ∈ docs ->
               JS.startsWith REVIEW_PREFIX (i_id doc) = true ->
               i_deleted doc = false ->
               exists d, db w !! i_id doc = Some d /\ review_revisions d) ->
  exists w',
    onSyncChange env docs w = (Ok tt, w')
    /\ sessions w' = sessions w /\ remoteDb w' = remoteDb w
    /\ log w' = log w ++ resolutions_for (db w) docs
    /\ (forall id, pulled_review docs id = false -> db w' !! id = db w !! id)
    /\ (forall id d, pulled_review docs id = true -> db w !! id = Some d ->
          exists d', db w' !! id = Some d' /\ conflicts d' = []
                     /\ kept_from d d').
Proof.
  induction docs as [|doc rest IH]; intros w Hpresent.
  - exists w. cbn [onSyncChange resolutions_for]. rewrite app_nil_r.
    split; [reflexivity|]. split; [reflexivity|]. split; [reflexivity|].
    split; [reflexivity|]. split; [reflexivity|].
    intros id d H. discriminate H.
  - cbn [onSyncChange resolutions_for]. unfold bind at 1.
    assert (Hrest : forall doc', doc' ∈ rest -> doc' ∈ doc :: rest)
      by (intros; now apply list_elem_of_further).
    destruct (JS.startsWith REVIEW_PREFIX (i_id doc) && negb (i_deleted doc))
      eqn:Hhead.
    + apply andb_prop in Hhead as [Hpre Hdel]. apply negb_true_iff in Hdel.
      rewrite Hpre.
      destruct (Hpresent doc (list_elem_of_here _ _) Hpre Hdel) as (d & Hd & Hrev).
      destruct (onSyncReviewChange_effect doc w d Hdel Hd Hrev)
        as (w1 & d1 & Hrun1 & Hs1 & Hr1 & Hl1 & Hdb1 & Hc1 & Hkept1 & Hsame1).
      rewrite Hrun1, Hd.
      destruct (IH w1) as (w' & Hrun & Hs & Hr & Hl & Hout & Hin).
      { intros doc' Hdoc' Hpre' Hdel'. rewrite Hdb1.
        destruct (String.eqb_spec (i_id doc') (i_id doc)) as [_ | _].
        - exists d1. split; [reflexivity|].
          destruct Hkept1 as (r & rs & r' & _ & _ & Hb' & _).
          exists r', []. now rewrite Hc1.
        - apply Hpresent; auto. }
      exists w'. split; [exact Hrun|].
      split; [congruence|]. split; [congruence|]. split.
      { rewrite Hl, Hl1, <- app_assoc. f_equal.
        destruct (conflicts d) as [|c cs] eqn:Hc.
        - cbn [app]. apply resolutions_for_ext. intros k. left.
          rewrite Hdb1. destruct (String.eqb_spec k (i_id doc)) as [-> | _];
            [|reflexivity].
          now rewrite Hsame1, Hd.
        - cbn [app]. f_equal. apply resolutions_for_ext. intros k.
          rewrite Hdb1. destruct (String.eqb_spec k (i_id doc)) as [-> | Hne].
          + right. exists d1, (without_conflicts d).
            rewrite lookup_insert_eq. auto.
          + left. now rewrite lookup_insert_ne by congruence. }
      split.
      * intros id Hid. rewrite pulled_review_cons, Hpre, Hdel in Hid.
        cbn [negb andb] in Hid. rewrite !andb_true_r in Hid.
        apply orb_false_iff in Hid as [Hne Hid].
        rewrite (Hout id Hid), Hdb1.
        rewrite String.eqb_sym in Hne. now rewrite Hne.
      * intros id d0 Hid Hd0.
        destruct (String.eqb_spec id (i_id doc)) as [-> | Hne].
        -- rewrite Hd in Hd0. injection Hd0 as <-.
           assert (Hd1 : db w1 !! i_id doc = Some d1)
             by (now rewrite Hdb1, String.eqb_refl).
           destruct (pulled_review rest (i_id doc)) eqn:Hagain.
           ++ destruct (Hin _ d1 Hagain Hd1) as (d' & Hd' & Hc' & Hkept').
              exists d'. split; [exact Hd'|]. split; [exact Hc'|].
              destruct Hkept1 as (r & rs & r1 & Hb & Hcs & Hb1 & Hin1 & Hmax1).
              destruct Hkept' as (r1' & rs' & r' & Hb1' & Hcs' & Hb' & Hin' & _).
              rewrite Hb1 in Hb1'. injection Hb1' as <-.
              rewrite Hc1 in Hcs'. destruct rs'; [|discriminate Hcs'].
              apply list_elem_of_singleton in Hin'. subst r'.
              exists r, rs, r1. auto.
           ++ exists d1. rewrite (Hout _ Hagain). auto.
        -- rewrite pulled_review_cons in Hid.
           apply String.eqb_neq in Hne. rewrite String.eqb_sym in Hne.
           rewrite Hne in Hid. cbn [andb orb] in Hid.
           apply (Hin id d0 Hid). rewrite Hdb1.
           rewrite String.eqb_sym in Hne. now rewrite Hne.
    + destruct (IH w) as (w' & Hrun & Hs & Hr & Hl & Hout & Hin).
      { intros doc' Hdoc'. apply Hpresent. auto. }
      assert (Hskip : (if JS.startsWith REVIEW_PREFIX (i_id doc)
                       then onSyncReviewChange env doc else ret tt) w
                      = (Ok tt, w)).
      { destruct (JS.startsWith REVIEW_PREFIX (i_id doc)); [|reflexivity].
        cbn [andb] in Hhead. apply negb_false_iff in Hhead.
        unfold onSyncReviewChange. now rewrite Hhead. }
      rewrite Hskip. exists w'. split; [exact Hrun|].
      split; [exact Hs|]. split; [exact Hr|]. split; [exact Hl|].
      assert (Hsame : forall id, pulled_review (doc :: rest) id
                                 = pulled_review rest id).
      { intros id. rewrite pulled_review_cons.
        rewrite <- andb_assoc, Hhead, andb_false_r. reflexivity. }
      split.
      * intros id Hid. rewrite Hsame in Hid. auto.
      * intros id d0 Hid. rewrite Hsame in Hid. auto.
Qed.

End Sync.

Section SyncResolution.
Import Pouch CardStore.

Lemma fmap_BReview_inj (l1 : list ReviewRecord) : forall l2,
  BReview <$> l1 = BReview <$> l2 -> l1 = l2.
Proof.
  induction l1 as [|x l1 IH]; intros [|y l2] H; try discriminate H;
    [reflexivity|].
  injection H as -> H. f_equal. now apply IH.
Qed.

Lemma resolutions_for_filter docs : forall db,
  List.filter is_resolution (resolutions_for db docs) = resolutions_for db docs.
Proof.
  induction docs as [|doc rest IH]; intros db; [reflexivity|].
  cbn [resolutions_for].
  destruct (JS.startsWith REVIEW_PREFIX (i_id doc) && negb (i_deleted doc));
    [|apply IH].
  destruct (db !! i_id doc) as [d|]; [|apply IH].
  destruct (conflicts d); [apply IH|].
  cbn. now rewrite IH.
Qed.

End SyncResolution.

(** C3.  When a review arrives through replication and the database
    reports conflicting revisions [rs] of the stored review [r], the
    conflict is resolved: the revision kept is one of the revisions that
    were in conflict, none of them has a higher completeness score
    [completed - 2*|failedCardsLevel2| - |failedCardsLevel1|], and no
    conflict remains.  The choice between two revisions [a] and [b] is the
    one of [resolveReview]: it keeps the more complete of the two and, on
    equal scores, always its first argument. *)
Theorem resolveReview_keeps_more_complete
    (env : Pouch.Env) (doc : CardStore.Incoming) (w : CardStore.Store)
    (d : Pouch.Stored) (r : Pouch.ReviewRecord) (rs : list Pouch.ReviewRecord) :
  (forall n, Pouch.faultAt env n = None) ->
  CardStore.i_deleted doc = false ->
  CardStore.db w !! CardStore.i_id doc = Some d ->
  Pouch.body d = Pouch.BReview r ->
  Pouch.conflicts d = Pouch.BReview <$> rs ->
  (exists w' d' r',
      CardStore.onSyncReviewChange env doc w = (Pouch.Ok tt, w')
      /\ CardStore.db w' !! CardStore.i_id doc = Some d'
      /\ Pouch.body d' = Pouch.BReview r'
      /\ Pouch.conflicts d' = []
      /\ r' ∈ r :: rs
      /\ (forall x, x ∈ r :: rs ->
                    CardStore.completeness x <= CardStore.completeness r')
      /\ (forall k, k <> CardStore.i_id doc ->
                    CardStore.db w' !! k = CardStore.db w !! k))
  /\ (forall a b : Pouch.ReviewRecord,
        (CardStore.resolveReview a b = a \/ CardStore.resolveReview a b = b)
        /\ CardStore.completeness (CardStore.resolveReview a b)
           = Z.max (CardStore.completeness a) (CardStore.completeness b)
        /\ (CardStore.completeness a = CardStore.completeness b ->
            CardStore.resolveReview a b = a)
        /\ CardStore.completeness a
           = Pouch.completed a
             - 2 * Z.of_nat (List.length (Pouch.failedCardsLevel2 a))
             - Z.of_nat (List.length (Pouch.failedCardsLevel1 a))
        /\ CardStore.chooseReview (Pouch.BReview a) (Pouch.BReview b)
           = Pouch.Ok (Pouch.BReview (CardStore.resolveReview a b))).
Proof.
  intros Hnf Hdel Hd Hbody Hconf. split.
  - destruct (onSyncReviewChange_effect env Hnf doc w d Hdel Hd)
      as (w' & d' & Hrun & _ & _ & _ & Hdb & Hc' & Hkept & _).
    { exists r, rs. auto. }
    destruct Hkept as (r0 & rs0 & r' & Hb0 & Hcs0 & Hb' & Hin & Hmax).
    rewrite Hbody in Hb0. injection Hb0 as <-.
    rewrite Hconf in Hcs0.
    assert (rs0 = rs) by (symmetry; now apply fmap_BReview_inj).
    subst rs0.
    exists w', d', r'. split; [exact Hrun|]. split.
    { now rewrite Hdb, String.eqb_refl. }
    split; [exact Hb'|]. split; [exact Hc'|]. split; [exact Hin|].
    split; [exact Hmax|].
    intros k Hk. rewrite Hdb. apply String.eqb_neq in Hk. now rewrite Hk.
  - intros a b. unfold CardStore.resolveReview.
    destruct (Z.geb_spec (CardStore.completeness a) (CardStore.completeness b)).
    + split; [now left|]. split; [lia|]. split; [reflexivity|].
      split; [unfold CardStore.completeness; lia|].
      unfold CardStore.chooseReview, CardStore.resolveReview.
      destruct (Z.geb_spec (CardStore.completeness a) (CardStore.completeness b));
        [reflexivity | lia].
    + split; [now right|]. split; [lia|]. split; [lia|].
      split; [unfold CardStore.completeness; lia|].
      unfold CardStore.chooseReview, CardStore.resolveReview.
      destruct (Z.geb_spec (CardStore.completeness a) (CardStore.completeness b));
        [lia | reflexivity].
Qed.

Lemma resolveReview_keeps_more_complete_witness :
  exists w' d' r',
    CardStore.onSyncReviewChange env_quiet
      (CardStore.mkIncoming "review-0abc" false review_doc_b) conflicted_store
    = (Pouch.Ok tt, w')
    /\ CardStore.db w' !! "review-0abc"%string = Some d'
    /\ Pouch.body d' = Pouch.BReview r'
    /\ Pouch.conflicts d' = []
    /\ CardStore.completeness review_a <= CardStore.completeness r'
    /\ CardStore.completeness review_b <= CardStore.completeness r'.
Proof.
  destruct (resolveReview_keeps_more_complete env_quiet
              (CardStore.mkIncoming "review-0abc" false review_doc_b)
              conflicted_store
              (Pouch.mkStored 5 review_doc_a [review_doc_b]) review_a [review_b])
    as [(w' & d' & r' & Hrun & Hd' & Hb' & Hc' & _ & Hmax & _) _].
  - reflexivity.
  - reflexivity.
  - vm_compute. reflexivity.
  - reflexivity.
  - reflexivity.
  - exists w', d', r'. split; [exact Hrun|]. split; [exact Hd'|].
    split; [exact Hb'|]. split; [exact Hc'|]. split; apply Hmax.
    + apply list_elem_of_here.
    + apply list_elem_of_further, list_elem_of_here.
Defined.

(** C7 (as amended).  When a change event of the current session arrives in
    the pull direction, the documents of the batch are taken one after the
    other, and resolution is requested for exactly those that have the
    review prefix, are not deletions, and for which the database reports
    conflicting revisions when their turn comes -- provided the requests
    succeed and these documents are stored reviews.  Afterwards none of
    these documents has a conflict.  Documents with another key prefix are
    not touched: no resolution is requested for them and their conflicts
    remain. *)
Theorem changeCallback_resolves_pulled_reviews
    (env : Pouch.Env) (sid : nat) (s : CardStore.Session)
    (info : CardStore.SyncResult) (w : CardStore.Store) :
  (forall n, Pouch.faultAt env n = None) ->
  CardStore.sessions w !! sid = Some s ->
  CardStore.from_old_remote w s = false ->
  CardStore.direction info = CardStore.pull ->
  (forall doc, doc ∈ CardStore.docs info ->
               JS.startsWith CardStore.REVIEW_PREFIX (CardStore.i_id doc) = true ->
               CardStore.i_deleted doc = false ->
               exists d, CardStore.db w !! CardStore.i_id doc = Some d
                         /\ review_revisions d) ->
  exists w',
    CardStore.changeCallback env sid info w = (Pouch.Ok tt, w')
    /\ List.filter is_resolution (CardStore.log w')
       = List.filter is_resolution (CardStore.log w)
         ++ resolutions_for (CardStore.db w) (CardStore.docs info)
    /\ (forall id d', pulled_review (CardStore.docs info) id = true ->
                      CardStore.db w' !! id = Some d' ->
                      Pouch.conflicts d' = [])
    /\ (forall id, pulled_review (CardStore.docs info) id = false ->
                   CardStore.db w' !! id = CardStore.db w !! id).
Proof.
  intros Hnf Hs Hcur Hpull Hpresent.
  destruct (onSyncChange_effect env Hnf (CardStore.docs info) w Hpresent)
    as (w1 & Hrun & Hss & Hr & Hlog & Hout & Hin).
  unfold CardStore.changeCallback. rewrite Hs, Hcur, Hpull, Hrun.
  cbn [snd].
  assert (Hbase : List.filter is_resolution (CardStore.log w1)
                  = List.filter is_resolution (CardStore.log w)
                    ++ resolutions_for (CardStore.db w) (CardStore.docs info)).
  { rewrite Hlog, List.filter_app. now rewrite resolutions_for_filter. }
  assert (Hclean : forall id d', pulled_review (CardStore.docs info) id = true ->
                     CardStore.db w1 !! id = Some d' -> Pouch.conflicts d' = []).
  { intros id d' Hid Hd'.
    destruct (CardStore.db w !! id) as [d|] eqn:Hd.
    - destruct (Hin id d Hid Hd) as (d'' & Hd'' & Hc & _). congruence.
    - exfalso. clear -Hid Hd Hpresent.
      unfold pulled_review in Hid. apply existsb_exists in Hid
        as (doc & Hdoc & Hcond).
      apply andb_prop in Hcond as [Hcond Hdel].
      apply andb_prop in Hcond as [Heq Hpre].
      apply String.eqb_eq in Heq. apply negb_true_iff in Hdel.
      apply list_elem_of_In in Hdoc.
      destruct (Hpresent doc Hdoc Hpre Hdel) as (d & Hd0 & _). congruence. }
  destruct (CardStore.options s) as [o|]; [|eauto].
  destruct (CardStore.onProgress o); [|eauto].
  destruct (CardStore.progressOf s info) as [progress s'].
  eexists. split; [reflexivity|].
  cbn [CardStore.log CardStore.db CardStore.emit CardStore.with_sessions].
  split; [|split; [exact Hclean | exact Hout]].
  rewrite List.filter_app. cbn. now rewrite app_nil_r.
Qed.

Lemma changeCallback_resolves_pulled_reviews_witness :
  exists w',
    CardStore.changeCallback env_quiet 0
      (CardStore.mkSyncResult CardStore.pull
         [CardStore.mkIncoming "review-0abc" false review_doc_b;
          CardStore.mkIncoming "card-0abc" false card_doc_2;
          CardStore.mkIncoming "review-0abc" false review_doc_b] 6)
      conflicted_store = (Pouch.Ok tt, w')
    /\ List.filter is_resolution (CardStore.log w')
       = [CardStore.ResolveConflicts "review-0abc" review_doc_a [review_doc_b]]
    /\ Pouch.conflicts <$> CardStore.db w' !! "card-0abc"%string
       = Some [card_doc_2].
Proof.
  destruct (changeCallback_resolves_pulled_reviews env_quiet 0
           (CardStore.mkSession "http://remote" None (Some 2) (Some 6))
           (CardStore.mkSyncResult CardStore.pull
              [CardStore.mkIncoming "review-0abc" false review_doc_b;
               CardStore.mkIncoming "card-0abc" false card_doc_2;
               CardStore.mkIncoming "review-0abc" false review_doc_b] 6)
           conflicted_store) as (w' & Hrun & Hlog & _ & Hout).
  - reflexivity.
  - reflexivity.
  - reflexivity.
  - reflexivity.
  - intros doc Hin Hpre Hdel.
    apply list_elem_of_In in Hin. cbn in Hin.
    destruct Hin as [<-|[<-|[<-|[]]]]; try discriminate Hpre;
      (exists (Pouch.mkStored 5 review_doc_a [review_doc_b]);
       split; [vm_compute; reflexivity | exists review_a, [review_b]; auto]).
  - exists w'. split; [exact Hrun|]. split; [exact Hlog|].
    rewrite (Hout "card-0abc"%string) by reflexivity.
    vm_compute. reflexivity.
Defined.

(** C7, counterexample.  A pulled batch brings a card document for which
    the database reports a conflicting revision; no resolution is
    requested for it. *)
Lemma changeCallback_ignores_card_conflicts :
  Pouch.conflicts <$> CardStore.db conflicted_store !! "card-0abc"%string
  = Some [card_doc_2]
  /\ CardStore.log
       (snd (CardStore.dispatch env_quiet 0
               (CardStore.EvChange
                  (CardStore.mkSyncResult CardStore.pull
                     [CardStore.mkIncoming "card-0abc" false card_doc_2] 6))
               conflicted_store)) = [].
Proof. vm_compute. split; reflexivity. Qed.

Section SyncSessions.
Import Pouch CardStore.
Variable env : Env.

(** A call of [setSyncServer] either fails validation and leaves the
    synchronisation state alone, or cancels the running session and ends
    disconnected or connected to the requested remote. *)
Lemma setSyncServer_outcome srv o w r w' :
  setSyncServer env srv o w = (r, w') ->
  (sessions w' = sessions w /\ remoteDb w' = remoteDb w
   /\ remoteSync w' = remoteSync w)
  \/ ((exists extra, sessions w' = sessions w ++ extra)
      /\ (remoteDb w' = None \/ remoteDb w' = target_name srv)
      /\ (remoteSync w' = None
          \/ remoteSync w' = Some (List.length (sessions w)))).
Proof.
  assert (Hbad : forall why r w',
    (reportErrorAsync o (mkErr None why) ;;; @throw unit (mkErr None why)) w
    = (r, w') ->
    sessions w' = sessions w /\ remoteDb w' = remoteDb w
    /\ remoteSync w' = remoteSync w).
  { intros why r0 w0. unfold reportErrorAsync, bind, modify, throw, ret.
    destruct o as [o'|]; [destruct (onError o')|];
      intros H; inversion H; subst; cbn; auto. }
  assert (Hnil : exists extra, sessions w = sessions w ++ extra)
    by (exists []; now rewrite app_nil_r).
  assert (Hconnect : forall name r w',
    (modify (fun w =>
               with_remote None None
                 (match remoteSync w with
                  | Some sid => sid :: cancelled w
                  | None => cancelled w
                  end) w) ;;;
     modify (fun w => with_remote (Some name) (remoteSync w) (cancelled w) w) ;;;
     seqs <- try_catch
               (l <- local_info env ;;
                r <- remote_info env name ;;
                ret (Some (l, r)))
               (fun err w =>
                  match remoteDb w with
                  | Some current =>
                      if String.eqb name current
                      then (modify (fun w => with_remote None (remoteSync w)
                                               (cancelled w) w) ;;;
                            reportErrorAsync o err ;;;
                            throw err) w
                      else (Ok None, w)
                  | None => (Ok None, w)
                  end) ;;
     match seqs with
     | None => ret tt
     | Some (l, r) =>
         modify (fun w =>
                   with_remote (remoteDb w)
                     (Some (List.length (sessions w))) (cancelled w)
                     (with_sessions
                        (sessions w ++ [mkSession name o (Some l) (Some r)])
                        w))
     end) w = (r, w') ->
    (exists extra, sessions w' = sessions w ++ extra)
    /\ (remoteDb w' = None \/ remoteDb w' = Some name)
    /\ (remoteSync w' = None
        \/ remoteSync w' = Some (List.length (sessions w)))).
  { intros name r0 w0.
    unfold bind, modify, try_catch, local_info, remote_info, request,
      reportErrorAsync, throw, ret.
    cbn.
    destruct (faultAt env (requests w)).
    - cbn. rewrite String.eqb_refl.
      destruct o as [o'|]; [destruct (onError o')|];
        intros H; inversion H; subst; cbn; auto.
    - cbn. destruct (remoteSeq env name).
      + intros H; inversion H; subst.
        split; [eexists; reflexivity|].
        split; right; reflexivity.
      + cbn. rewrite String.eqb_refl.
        destruct o as [o'|]; [destruct (onError o')|];
          intros H; inversion H; subst; cbn; auto. }
  unfold setSyncServer, target_name.
  destruct srv as [s|name| |]; cbn zeta beta iota.
  - generalize (trim s) as t. intros t.
    destruct (String.eqb t EmptyString) eqn:Hempty; cbn [negb andb].
    + unfold bind, modify, ret. intros H; inversion H; subst.
      right. cbn. auto.
    + destruct (is_http t); cbn [negb]; [|intros H; left; eapply Hbad, H].
      intros H. right. eapply Hconnect, H.
  - intros H. right. eapply Hconnect, H.
  - unfold bind, modify, ret. intros H; inversion H; subst.
    right. cbn. auto.
  - intros H. left. eapply Hbad, H.
Qed.

(** An event of a session whose captured name is not the name of the
    store's remote changes nothing and calls nothing. *)
Lemma dispatch_old_remote sid s ev w :
  sessions w !! sid = Some s ->
  from_old_remote w s = true ->
  dispatch env sid ev w = (Ok tt, w).
Proof.
  intros Hs Hold. destruct ev as [info|evt err]; cbn [dispatch].
  - unfold changeCallback. now rewrite Hs, Hold.
  - rewrite Hs. destruct (registered (options s) evt); [|reflexivity].
    unfold wrapCallback. now rewrite Hs, Hold.
Qed.

Lemma dispatchAll_old_remote sid s evs w :
  sessions w !! sid = Some s ->
  from_old_remote w s = true ->
  dispatchAll env sid evs w = w.
Proof.
  intros Hs Hold. induction evs as [|ev rest IH]; [reflexivity|].
  cbn [dispatchAll]. now rewrite (dispatch_old_remote sid s ev w Hs Hold).
Qed.

End SyncSessions.

(** C4 (as amended).  A late event of a cancelled sync session is dropped
    -- no callback is called and the store does not change -- whenever, at
    the time it arrives, the store has no remote or a remote whose name
    differs from the name the session captured at its start.  This is the
    case right after the [setSyncServer] call that cancelled the session
    when that call asks for no remote or for a remote of another name. *)
Theorem cancelled_session_is_silent
    (env : Pouch.Env) (srv : CardStore.SyncServer)
    (o : option CardStore.SyncOptions) (w w' : CardStore.Store)
    (r : Pouch.Result unit) (sid : nat) (s : CardStore.Session)
    (evs : list CardStore.SyncEvent) :
  CardStore.sessions w !! sid = Some s ->
  CardStore.remoteSync w = Some sid ->
  CardStore.setSyncServer env srv o w = (r, w') ->
  CardStore.remoteSync w' <> Some sid ->
  (target_name srv <> Some (CardStore.originalDbName s) ->
   CardStore.sessions w' !! sid = Some s
   /\ CardStore.remoteDb w' <> Some (CardStore.originalDbName s)
   /\ CardStore.dispatchAll env sid evs w' = w')
  /\ (forall (later : CardStore.Store) (s' : CardStore.Session),
        CardStore.sessions later !! sid = Some s' ->
        CardStore.originalDbName s' = CardStore.originalDbName s ->
        CardStore.remoteDb later <> Some (CardStore.originalDbName s) ->
        CardStore.dispatchAll env sid evs later = later).
Proof.
  intros Hs Hactive Hset Hcancelled.
  assert (Hguard : forall (later : CardStore.Store) (s' : CardStore.Session),
            CardStore.sessions later !! sid = Some s' ->
            CardStore.originalDbName s' = CardStore.originalDbName s ->
            CardStore.remoteDb later <> Some (CardStore.originalDbName s) ->
            CardStore.dispatchAll env sid evs later = later).
  { intros later s' Hs' Hname Hremote.
    apply (dispatchAll_old_remote env sid s'); [exact Hs'|].
    unfold CardStore.from_old_remote.
    destruct (CardStore.remoteDb later) as [name|]; [|reflexivity].
    rewrite Hname.
    destruct (String.eqb_spec (CardStore.originalDbName s) name) as [<-|];
      [contradiction | reflexivity]. }
  split; [|exact Hguard].
  intros Hname.
  apply setSyncServer_outcome in Hset
    as [(_ & _ & Hsame) | ((extra & Hss) & Hremote & Hsync)].
  - rewrite Hsame in Hcancelled. contradiction.
  - assert (Hs' : CardStore.sessions w' !! sid = Some s)
      by (rewrite Hss; now apply lookup_app_l_Some).
    assert (Hr' : CardStore.remoteDb w' <> Some (CardStore.originalDbName s)).
    { destruct Hremote as [-> | ->]; [discriminate | exact Hname]. }
    split; [exact Hs'|]. split; [exact Hr'|].
    now apply (Hguard w' s).
Qed.

Lemma cancelled_session_is_silent_witness :
  let syncing_b :=
    snd (CardStore.setSyncServer env_quiet (CardStore.SrvString "http://b")
           (Some opts_all) syncing_a) in
  CardStore.dispatchAll env_quiet 0 late_events syncing_b = syncing_b.
Proof.
  apply (proj1 (cancelled_session_is_silent env_quiet
                  (CardStore.SrvString "http://b")
                  (Some opts_all) syncing_a _ (Pouch.Ok tt) 0
                  (CardStore.mkSession "http://a" (Some opts_all) (Some 0) (Some 10))
                  late_events
                  ltac:(vm_compute; reflexivity) ltac:(vm_compute; reflexivity)
                  ltac:(vm_compute; reflexivity) ltac:(vm_compute; discriminate))).
  vm_compute. discriminate.
Defined.

(** C4, counterexample.  The store is reconfigured to the same server
    (the address now written with surrounding blanks): session 0 is
    cancelled and session 1 runs, yet a late change event of session 0
    passes the name check and calls the progress callback registered for
    session 0.  The same happens when the store has been connected to
    another server in between. *)
Lemma cancelled_session_same_name_delivers :
  let again :=
    snd (CardStore.setSyncServer env_quiet (CardStore.SrvString " http://a ")
           (Some opts_all) syncing_a) in
  let back :=
    snd (CardStore.setSyncServer env_quiet (CardStore.SrvString "http://a")
           (Some opts_all)
           (snd (CardStore.setSyncServer env_quiet
                   (CardStore.SrvString "http://b") (Some opts_all) syncing_a))) in
  CardStore.remoteSync syncing_a = Some 0%nat
  /\ CardStore.remoteSync again = Some 1%nat
  /\ CardStore.cancelled again = [0%nat]
  /\ CardStore.log again = []
  /\ CardStore.log
       (snd (CardStore.dispatch env_quiet 0
               (CardStore.EvChange (CardStore.mkSyncResult CardStore.push [] 5))
               again))
     = [CardStore.CallOnProgress 0 (Some (Qmake 5 10))]
  /\ CardStore.remoteSync back = Some 2%nat
  /\ CardStore.log back = []
  /\ CardStore.log
       (snd (CardStore.dispatch env_quiet 0
               (CardStore.EvChange (CardStore.mkSyncResult CardStore.push [] 5))
               back))
     = [CardStore.CallOnProgress 0 (Some (Qmake 5 10))].
Proof. vm_compute. repeat split. Qed.

Section SyncProgress.
Import Pouch CardStore.
Variable env : Env.












End SyncProgress.




(* ===================================================================== *)
(** * Further properties                                                   *)
(* ===================================================================== *)

(** ** Configuring the sync server *)

Section SyncConfiguration.
Import Pouch CardStore.
Variable env : Env.

Lemma eqb_empty_false (s : string) :
  s <> EmptyString -> String.eqb s EmptyString = false.
Proof. intros H. now apply String.eqb_neq. Qed.

(** After validation, [setSyncServer] with a named remote is the
    cancel-connect-register sequence. *)
Lemma setSyncServer_named srv name o w :
  names_remote srv name ->
  setSyncServer env srv o w
  = (modify (fun w =>
               with_remote None None
                 (match remoteSync w with
                  | Some sid => sid :: cancelled w
                  | None => cancelled w
                  end) w) ;;;
     modify (fun w => with_remote (Some name) (remoteSync w) (cancelled w) w) ;;;
     seqs <- try_catch
               (l <- local_info env ;;
                r <- remote_info env name ;;
                ret (Some (l, r)))
               (fun err w =>
                  match remoteDb w with
                  | Some current =>
                      if String.eqb name current
                      then (modify (fun w => with_remote None (remoteSync w)
                                               (cancelled w) w) ;;;
                            reportErrorAsync o err ;;;
                            throw err) w
                      else (Ok None, w)
                  | None => (Ok None, w)
                  end) ;;
     match seqs with
     | None => ret tt
     | Some (l, r) =>
         modify (fun w =>
                   with_remote (remoteDb w)
                     (Some (List.length (sessions w))) (cancelled w)
                     (with_sessions
                        (sessions w ++ [mkSession name o (Some l) (Some r)])
                        w))
     end) w.
Proof.
  intros [-> | (s & -> & <- & Hne & Hhttp)]; unfold setSyncServer; cbn zeta beta iota.
  - reflexivity.
  - rewrite (eqb_empty_false _ Hne), Hhttp. reflexivity.
Qed.

End SyncConfiguration.

(** X1.  A call of [setSyncServer] whose argument is neither a string, a
    database, [null] nor [undefined], or is a string that is not empty
    once its white space is trimmed ([String.prototype.trim]) and does not
    then start with [http://] or [https://], rejects; the running session
    is not cancelled and nothing in the store changes, except that the
    error callback, when supplied, is told the error. *)
Theorem setSyncServer_rejects_invalid
    (env : Pouch.Env) (srv : CardStore.SyncServer)
    (o : option CardStore.SyncOptions) (w : CardStore.Store) :
  invalid_server srv ->
  exists err w',
    CardStore.setSyncServer env srv o w = (Pouch.Throw err, w')
    /\ Pouch.status err = None
    /\ CardStore.db w' = CardStore.db w
    /\ CardStore.remoteDb w' = CardStore.remoteDb w
    /\ CardStore.remoteSync w' = CardStore.remoteSync w
    /\ CardStore.cancelled w' = CardStore.cancelled w
    /\ CardStore.sessions w' = CardStore.sessions w
    /\ CardStore.log w' = CardStore.log w ++ reported o err.
Proof.
  assert (Hbad : forall why,
    exists err w',
      (CardStore.bind
         (CardStore.reportErrorAsync o (Pouch.mkErr None why))
         (fun _ => @CardStore.throw unit (Pouch.mkErr None why))) w
      = (Pouch.Throw err, w')
      /\ Pouch.status err = None
      /\ CardStore.db w' = CardStore.db w
      /\ CardStore.remoteDb w' = CardStore.remoteDb w
      /\ CardStore.remoteSync w' = CardStore.remoteSync w
      /\ CardStore.cancelled w' = CardStore.cancelled w
      /\ CardStore.sessions w' = CardStore.sessions w
      /\ CardStore.log w' = CardStore.log w ++ reported o err).
  { intros why. exists (Pouch.mkErr None why).
    unfold CardStore.reportErrorAsync, CardStore.bind, CardStore.modify,
      CardStore.throw, CardStore.ret, reported.
    destruct o as [o'|]; [destruct (CardStore.onError o')|];
      eexists; (split; [reflexivity|]); cbn;
      rewrite ?app_nil_r; auto 10. }
  intros [-> | (s & -> & Hne & Hhttp)]; unfold CardStore.setSyncServer;
    cbn zeta beta iota.
  - apply Hbad.
  - rewrite (eqb_empty_false _ Hne), Hhttp. apply Hbad.
Qed.

Lemma setSyncServer_rejects_invalid_witness :
  exists err w',
    CardStore.setSyncServer env_quiet (CardStore.SrvString "ftp://a")
      (Some opts_all) syncing_a = (Pouch.Throw err, w')
    /\ Pouch.status err = None
    /\ CardStore.db w' = CardStore.db syncing_a
    /\ CardStore.remoteDb w' = CardStore.remoteDb syncing_a
    /\ CardStore.remoteSync w' = CardStore.remoteSync syncing_a
    /\ CardStore.cancelled w' = CardStore.cancelled syncing_a
    /\ CardStore.sessions w' = CardStore.sessions syncing_a
    /\ CardStore.log w' = CardStore.log syncing_a ++ reported (Some opts_all) err.
Proof.
  apply (setSyncServer_rejects_invalid env_quiet (CardStore.SrvString "ftp://a")
           (Some opts_all) syncing_a).
  right. exists "ftp://a"%string. repeat split; vm_compute; discriminate.
Defined.

(** X2.  A call of [setSyncServer] with [null], [undefined], an empty
    string or a string of white space only (the white space that
    [String.prototype.trim] removes, the no-break space included)
    succeeds and leaves the store
    disconnected: the running session, if any, is cancelled, no session is
    started and no callback is called. *)
Theorem setSyncServer_clears
    (env : Pouch.Env) (srv : CardStore.SyncServer)
    (o : option CardStore.SyncOptions) (w : CardStore.Store) :
  no_server srv ->
  exists w',
    CardStore.setSyncServer env srv o w = (Pouch.Ok tt, w')
    /\ CardStore.remoteDb w' = None
    /\ CardStore.remoteSync w' = None
    /\ (forall sid, CardStore.remoteSync w = Some sid ->
                    sid ∈ CardStore.cancelled w')
    /\ CardStore.sessions w' = CardStore.sessions w
    /\ CardStore.db w' = CardStore.db w
    /\ CardStore.log w' = CardStore.log w.
Proof.
  intros [-> | (s & -> & Hempty)]; unfold CardStore.setSyncServer;
    cbn zeta beta iota.
  - unfold CardStore.bind, CardStore.modify, CardStore.ret.
    eexists. split; [reflexivity|]. cbn. repeat split.
    intros sid ->. now left.
  - rewrite Hempty. cbn.
    unfold CardStore.bind, CardStore.modify, CardStore.ret.
    eexists. split; [reflexivity|]. cbn. repeat split.
    intros sid ->. now left.
Qed.

Lemma setSyncServer_clears_witness :
  exists w',
    CardStore.setSyncServer env_quiet (CardStore.SrvString blank_address)
      None syncing_a = (Pouch.Ok tt, w')
    /\ CardStore.remoteDb w' = None
    /\ CardStore.remoteSync w' = None
    /\ (forall sid, CardStore.remoteSync syncing_a = Some sid ->
                    sid ∈ CardStore.cancelled w')
    /\ CardStore.sessions w' = CardStore.sessions syncing_a
    /\ CardStore.db w' = CardStore.db syncing_a
    /\ CardStore.log w' = CardStore.log syncing_a.
Proof.
  apply (setSyncServer_clears env_quiet (CardStore.SrvString blank_address)
           None syncing_a).
  right. exists blank_address. split; reflexivity.
Defined.

(** X3.  A call of [setSyncServer] with a valid remote that can be
    reached cancels the running session and starts a new one: the store's
    remote is the (trimmed) name, the new session captures that name, the
    options and the update sequences of the local and the remote database
    at that moment, and no callback is called. *)
Theorem setSyncServer_connects
    (env : Pouch.Env) (srv : CardStore.SyncServer) (name : string)
    (o : option CardStore.SyncOptions) (w : CardStore.Store) (r : Z) :
  names_remote srv name ->
  Pouch.faultAt env (CardStore.requests w) = None ->
  Pouch.remoteSeq env name = Some r ->
  exists w',
    CardStore.setSyncServer env srv o w = (Pouch.Ok tt, w')
    /\ CardStore.remoteDb w' = Some name
    /\ CardStore.remoteSync w' = Some (List.length (CardStore.sessions w))
    /\ CardStore.sessions w'
       = CardStore.sessions w
         ++ [CardStore.mkSession name o (Some (CardStore.update_seq w)) (Some r)]
    /\ (forall sid, CardStore.remoteSync w = Some sid ->
                    sid ∈ CardStore.cancelled w')
    /\ CardStore.db w' = CardStore.db w
    /\ CardStore.log w' = CardStore.log w.
Proof.
  intros Hname Hfault Hseq.
  rewrite (setSyncServer_named env srv name o w Hname).
  unfold CardStore.bind, CardStore.modify, CardStore.try_catch,
    CardStore.local_info, CardStore.remote_info, CardStore.request,
    CardStore.ret.
  cbn. rewrite Hfault. cbn. rewrite Hseq.
  eexists. split; [reflexivity|]. cbn. repeat split.
  intros sid ->. now left.
Qed.

Lemma setSyncServer_connects_witness :
  exists w',
    CardStore.setSyncServer env_quiet (CardStore.SrvString " https://b ")
      (Some opts_all) syncing_a = (Pouch.Ok tt, w')
    /\ CardStore.remoteDb w' = Some "https://b"%string
    /\ CardStore.remoteSync w' = Some 1%nat
    /\ CardStore.sessions w'
       = CardStore.sessions syncing_a
         ++ [CardStore.mkSession "https://b" (Some opts_all) (Some 0) (Some 10)]
    /\ (forall sid, CardStore.remoteSync syncing_a = Some sid ->
                    sid ∈ CardStore.cancelled w')
    /\ CardStore.db w' = CardStore.db syncing_a
    /\ CardStore.log w' = CardStore.log syncing_a.
Proof.
  apply (setSyncServer_connects env_quiet (CardStore.SrvString " https://b ")
           "https://b" (Some opts_all) syncing_a 10).
  - right. exists " https://b "%string. repeat split; vm_compute; discriminate.
  - reflexivity.
  - reflexivity.
Defined.

(** X4.  A call of [setSyncServer] with a valid remote whose update
    sequence cannot be read (the local or the remote [info()] request
    fails) rejects with that error; the store is left disconnected, no
    session is started, the previous session stays cancelled and the error
    callback, when supplied, is told the error. *)
Theorem setSyncServer_unreachable
    (env : Pouch.Env) (srv : CardStore.SyncServer) (name : string)
    (o : option CardStore.SyncOptions) (w : CardStore.Store) :
  names_remote srv name ->
  is_Some (Pouch.faultAt env (CardStore.requests w))
  \/ Pouch.remoteSeq env name = None ->
  exists err w',
    CardStore.setSyncServer env srv o w = (Pouch.Throw err, w')
    /\ CardStore.remoteDb w' = None
    /\ CardStore.remoteSync w' = None
    /\ CardStore.sessions w' = CardStore.sessions w
    /\ CardStore.db w' = CardStore.db w
    /\ CardStore.log w' = CardStore.log w ++ reported o err.
Proof.
  intros Hname Hfail.
  rewrite (setSyncServer_named env srv name o w Hname).
  unfold CardStore.bind, CardStore.modify, CardStore.try_catch,
    CardStore.local_info, CardStore.remote_info, CardStore.request,
    CardStore.reportErrorAsync, CardStore.throw, CardStore.ret, reported.
  cbn.
  destruct (Pouch.faultAt env (CardStore.requests w)) as [e|] eqn:Hf.
  - cbn. rewrite String.eqb_refl. exists e.
    destruct o as [o'|]; [destruct (CardStore.onError o')|];
      eexists; (split; [reflexivity|]); cbn; rewrite ?app_nil_r; auto.
  - destruct Hfail as [[e He] | Hseq]; [discriminate|].
    cbn. rewrite Hseq. cbn. rewrite String.eqb_refl.
    eexists.
    destruct o as [o'|]; [destruct (CardStore.onError o')|];
      eexists; (split; [reflexivity|]); cbn; rewrite ?app_nil_r; auto.
Qed.

Lemma setSyncServer_unreachable_witness :
  exists err w',
    CardStore.setSyncServer env_progress_fails (CardStore.SrvDb "test-remote")
      (Some opts_all) empty_store = (Pouch.Throw err, w')
    /\ CardStore.remoteDb w' = None
    /\ CardStore.remoteSync w' = None
    /\ CardStore.sessions w' = CardStore.sessions empty_store
    /\ CardStore.db w' = CardStore.db empty_store
    /\ CardStore.log w' = CardStore.log empty_store ++ reported (Some opts_all) err.
Proof.
  apply (setSyncServer_unreachable env_progress_fails (CardStore.SrvDb "test-remote")
           "test-remote" (Some opts_all) empty_store).
  - now left.
  - right. reflexivity.
Defined.

(** ** Order of strings and of view rows *)

Section Orders.
Import Pouch CardStore.

Lemma ascii_compare_refl (c : ascii) : Ascii.compare c c = Eq.
Proof. unfold Ascii.compare. apply N.compare_refl. Qed.

Lemma string_compare_refl (s : string) : String.compare s s = Eq.
Proof.
  induction s as [|c s IH]; [reflexivity|].
  now rewrite compare_cons, ascii_compare_refl.
Qed.

Lemma string_compare_append (p x y : string) :
  String.compare (String.append p x) (String.append p y) = String.compare x y.
Proof.
  induction p as [|c p IH]; [reflexivity|].
  rewrite !append_cons, compare_cons, ascii_compare_refl. exact IH.
Qed.

Lemma string_leb_trans (a b c : string) :
  String.leb a b = true -> String.leb b c = true -> String.leb a c = true.
Proof.
  unfold String.leb.
  revert b c. induction a as [|x a IH]; intros [|y b] [|z c]; cbn;
    try reflexivity; try discriminate.
  unfold Ascii.compare.
  destruct (N.compare_spec (N_of_ascii x) (N_of_ascii y)) as [Exy|Lxy|Gxy];
    destruct (N.compare_spec (N_of_ascii y) (N_of_ascii z)) as [Eyz|Lyz|Gyz];
    try discriminate; intros Hab Hbc.
  - rewrite Exy, Eyz, N.compare_refl. exact (IH b c Hab Hbc).
  - rewrite Exy. now rewrite (proj2 (N.compare_lt_iff _ _) Lyz).
  - rewrite <- Eyz. now rewrite (proj2 (N.compare_lt_iff _ _) Lxy).
  - assert (H : (N_of_ascii x < N_of_ascii z)%N) by lia.
    now rewrite (proj2 (N.compare_lt_iff _ _) H).
Qed.

Lemma string_leb_neq_ltb (a b : string) :
  String.leb a b = true -> a <> b -> String.ltb a b = true.
Proof.
  unfold String.leb, String.ltb. intros Hle Hne.
  destruct (String.compare a b) eqn:E; try reflexivity; try discriminate.
  apply String.compare_eq_iff in E. contradiction.
Qed.

#[local] Instance key_le_total : Total key_le.
Proof.
  intros [|x|s] [|y|t]; cbn; auto.
  - destruct (Rle_or_lt x y); [left | right; apply Rlt_le]; assumption.
  - apply String.leb_total.
Qed.

#[local] Instance key_le_trans : Transitive key_le.
Proof.
  intros [|x|s] [|y|t] [|z|u]; cbn; auto; try contradiction.
  - apply Rle_trans.
  - apply string_leb_trans.
Qed.

#[local] Instance row_le_total : Total row_le.
Proof.
  intros a b. unfold row_le.
  destruct (decide (key_le (r_key a) (r_key b))) as [Hab|Hab];
    destruct (decide (key_le (r_key b) (r_key a))) as [Hba|Hba].
  - destruct (String.leb_total (r_docid a) (r_docid b)); [left | right]; auto.
  - left. split; [assumption | intros; contradiction].
  - right. split; [assumption | intros; contradiction].
  - destruct (key_le_total (r_key a) (r_key b)); contradiction.
Qed.

#[local] Instance row_le_trans : Transitive row_le.
Proof.
  intros a b c [Hab Hab'] [Hbc Hbc']. split.
  - now transitivity (r_key b).
  - intros Hca.
    apply (string_leb_trans _ (r_docid b)).
    + apply Hab'. now transitivity (r_key c).
    + apply Hbc'. now transitivity (r_key a).
Qed.

(** The rows of every view come in ascending order of key, then id. *)
Lemma view_rows_sorted mapFn db : StronglySorted row_le (view_rows mapFn db).
Proof. unfold view_rows. apply StronglySorted_merge_sort; apply _. Qed.

Lemma StronglySorted_reverse {A} (R : relation A) (l : list A) :
  StronglySorted R l -> StronglySorted (flip R) (reverse l).
Proof.
  induction 1 as [|x l Hl IH Hx]; [constructor|].
  rewrite reverse_cons. apply StronglySorted_app_2;
    [|exact IH | repeat constructor].
  intros y z Hy Hz. rewrite elem_of_reverse in Hy.
  apply list_elem_of_singleton in Hz. subst z.
  rewrite Forall_forall in Hx. unfold flip. apply Hx, Hy.
Qed.

Lemma StronglySorted_filter {A} (R : relation A) (f : A -> bool) (l : list A) :
  StronglySorted R l -> StronglySorted R (List.filter f l).
Proof.
  induction 1 as [|x l Hl IH Hx]; [constructor|].
  cbn. destruct (f x); [|exact IH].
  constructor; [exact IH|].
  rewrite Forall_forall in *. intros y Hy.
  apply list_elem_of_In, filter_In in Hy as [Hy _].
  apply Hx. now apply list_elem_of_In.
Qed.

Lemma StronglySorted_take {A} (R : relation A) (n : nat) (l : list A) :
  StronglySorted R l -> StronglySorted R (take n l).
Proof.
  intros H. revert n. induction H as [|x l Hl IH Hx]; intros [|n]; cbn;
    try constructor; [apply IH|].
  rewrite Forall_forall in *. intros y Hy. apply Hx.
  eapply subseteq_take, Hy.
Qed.

Lemma StronglySorted_omap {A B} (R : relation A) (R' : relation B)
    (f : A -> option B) (l : list A) :
  StronglySorted R l ->
  (forall x y x' y', x ∈ l -> y ∈ l -> R x y ->
                     f x = Some x' -> f y = Some y' -> R' x' y') ->
  StronglySorted R' (omap f l).
Proof.
  induction 1 as [|x l Hl IH Hx]; intros Hmono; [constructor|].
  assert (Htail : StronglySorted R' (omap f l)).
  { apply IH. intros a b a' b' Ha Hb. apply Hmono; now right. }
  cbn. destruct (f x) as [x'|] eqn:Hfx; [|exact Htail].
  constructor; [exact Htail|].
  apply Forall_forall. intros y' Hy'. rewrite Forall_forall in Hx.
  apply list_elem_of_omap in Hy' as (y & Hy & Hfy).
  apply (Hmono x y x' y');
    [now left | now right | now apply Hx | assumption | assumption].
Qed.

Lemma StronglySorted_strict {A B} (R : relation A) (f : A -> B) (l : list A) :
  StronglySorted R l -> NoDup (f <$> l) ->
  StronglySorted (fun a b => R a b /\ f a <> f b) l.
Proof.
  induction 1 as [|x l Hl IH Hx]; intros Hnd; [constructor|].
  rewrite fmap_cons in Hnd. apply NoDup_cons in Hnd as [Hnotin Hnd].
  constructor; [now apply IH|].
  rewrite Forall_forall in *. intros y Hy. split; [now apply Hx|].
  intros Heq. apply Hnotin. rewrite Heq.
  apply list_elem_of_fmap. eauto.
Qed.

End Orders.

(** ** More on the listings *)

Section MoreListings.
Import Pouch CardStore.

Lemma cardMapFunction_emits id doc k v :
  (k, v) ∈ cardMapFunction id doc <->
  exists x, id = String.append PROGRESS_PREFIX x
            /\ k = KStr id
            /\ v = mkEmitted (String.append CARD_PREFIX x)
                     (doc_level doc) (doc_reviewed doc).
Proof.
  unfold cardMapFunction. split.
  - destruct (JS.startsWith PROGRESS_PREFIX id) eqn:Hpre; cbn [negb].
    2:{ intros H. inversion H. }
    intros H. apply list_elem_of_singleton in H. inversion H; subst.
    apply startsWith_split in Hpre.
    exists (JS.substr (String.length PROGRESS_PREFIX) id).
    repeat split; assumption.
  - intros (x & -> & -> & ->).
    rewrite startsWith_append. cbn [negb].
    rewrite linked_card_progress. apply list_elem_of_singleton. reflexivity.
Qed.





End MoreListings.


Section ListingOrder.
Import Pouch CardStore.

Lemma view_rows_docids_NoDup mapFn db :
  (forall id d, (List.length (mapFn id d) <= 1)%nat) ->
  NoDup (r_docid <$> view_rows mapFn db).
Proof.
  intros Hone. unfold view_rows. rewrite merge_sort_Permutation.
  pose proof (NoDup_fst_map_to_list db) as Hnd.
  induction (map_to_list db) as [|[id d] l IH]; [constructor|].
  rewrite fmap_cons in Hnd. apply NoDup_cons in Hnd as [Hnotin Hnd].
  cbn [mbind list_bind]. rewrite fmap_app.
  apply NoDup_app. split; [|split; [|now apply IH]].
  - specialize (Hone id (body d)).
    destruct (mapFn id (body d)) as [|[k v] [|? ?]]; cbn in *;
      [constructor | apply NoDup_singleton | lia].
  - intros y Hy Hy'. apply Hnotin.
    apply list_elem_of_fmap in Hy as (row & -> & Hrow).
    apply list_elem_of_fmap in Hrow as ([k v] & -> & _). cbn in *.
    apply list_elem_of_fmap in Hy' as (row' & Heq & Hrow').
    apply list_elem_of_bind in Hrow' as ([id' d'] & Hrow' & Hin).
    apply list_elem_of_fmap in Hrow' as ([k' v'] & -> & _). cbn in Heq.
    subst id'. apply list_elem_of_fmap. exists (id, d'). split; [reflexivity | exact Hin].
Qed.

Lemma view_rows_strictly_sorted mapFn db :
  (forall id d, (List.length (mapFn id d) <= 1)%nat) ->
  StronglySorted row_lt (view_rows mapFn db).
Proof.
  intros Hone. apply (StronglySorted_strict row_le r_docid).
  - apply view_rows_sorted.
  - now apply view_rows_docids_NoDup.
Qed.

Lemma query_strictly_sorted mapFn db o :
  (forall id d, (List.length (mapFn id d) <= 1)%nat) ->
  descending o = true ->
  exists rows,
    query mapFn db o = List.map (fun r => (r, db !! e_id (r_value r))) rows
    /\ StronglySorted (flip row_lt) rows
    /\ rows ⊆ view_rows mapFn db.
Proof.
  intros Hone Hdesc. unfold query. rewrite Hdesc. cbn zeta beta iota.
  eexists. split; [reflexivity|].
  pose proof (StronglySorted_reverse _ _ (view_rows_strictly_sorted mapFn db Hone))
    as Hrev.
  apply (StronglySorted_filter _
           (fun r => key_within (endkey o) (startkey o) (r_key r))) in Hrev.
  assert (Hsub : List.filter
                   (fun r => key_within (endkey o) (startkey o) (r_key r))
                   (reverse (view_rows mapFn db)) ⊆ view_rows mapFn db).
  { intros r Hr. apply list_elem_of_In, filter_In in Hr as [Hr _].
    apply list_elem_of_In in Hr. now rewrite elem_of_reverse in Hr. }
  destruct (q_limit o) as [n|].
  - split; [now apply StronglySorted_take|].
    intros r Hr. apply Hsub. eapply subseteq_take, Hr.
  - split; assumption.
Qed.

Lemma omap_map {A B C} (g : B -> option C) (h : A -> B) (l : list A) :
  omap g (List.map h l) = omap (fun x => g (h x)) l.
Proof.
  induction l as [|x l IH]; [reflexivity|].
  cbn. now rewrite IH.
Qed.

Lemma getCards_rows reviewTime db o :
  (forall id d, (List.length (view_of reviewTime o id d) <= 1)%nat) ->
  exists rows,
    getCards reviewTime db o = omap (card_of_query_row db) rows
    /\ StronglySorted (flip row_lt) rows
    /\ rows ⊆ view_rows (view_of reviewTime o) db.
Proof.
  intros Hone.
  assert (Hdesc : descending (options_of o) = true)
    by (unfold options_of; destruct (type o); reflexivity).
  destruct (query_strictly_sorted _ db (options_of o) Hone Hdesc)
    as (rows & Hq & Hsorted & Hsub).
  exists rows. rewrite getCards_unfold, Hq, omap_map. auto.
Qed.

End ListingOrder.

(** X6.  Without a limit, the default listing ([getCards] with no type)
    returns exactly the entities that have both a document under the
    progress prefix and a document under the card prefix with the same
    suffix.  A Card document without a Progress document, and a Progress
    document without a Card document, are not listed. *)
Theorem getCards_default_lists_pairs
    (reviewTime : Z) (db : gmap string Pouch.Stored) (skip : bool)
    (c : CardStore.Card) :
  c ∈ CardStore.getCards reviewTime db
        (CardStore.mkGetCards None CardStore.AllCards skip)
  <->
  exists (x : string) (dp dc : Pouch.Stored),
    db !! String.append CardStore.PROGRESS_PREFIX x = Some dp
    /\ db !! String.append CardStore.CARD_PREFIX x = Some dc
    /\ c = CardStore.mkCardView x (Pouch.body dc)
             (CardStore.parseProgress (Pouch.doc_level (Pouch.body dp))
                (Pouch.doc_reviewed (Pouch.body dp))).
Proof.
  rewrite elem_of_getCards_nolimit by reflexivity.
  split.
  - intros (row & d & Hrow & _ & Hd & ->).
    apply elem_of_view_rows in Hrow as (dp & Hdp & Hemit).
    apply cardMapFunction_emits in Hemit as (x & Hid & Hk & Hv).
    exists x, dp, d. rewrite <- Hid. repeat split; try assumption.
    + now rewrite Hv in Hd.
    + unfold card_of_row. rewrite Hv.
      cbn [CardStore.e_id CardStore.e_level CardStore.e_reviewed].
      now rewrite stripCardPrefix_append.
  - intros (x & dp & dc & Hdp & Hdc & ->).
    exists (CardStore.mkRow (String.append CardStore.PROGRESS_PREFIX x)
              (CardStore.KStr (String.append CardStore.PROGRESS_PREFIX x))
              (CardStore.mkEmitted (String.append CardStore.CARD_PREFIX x)
                 (Pouch.doc_level (Pouch.body dp))
                 (Pouch.doc_reviewed (Pouch.body dp)))), dc.
    repeat split.
    + apply elem_of_view_rows. exists dp. split; [exact Hdp|].
      apply cardMapFunction_emits. exists x. cbn. auto.
    + exact Hdc.
    + unfold card_of_row.
      cbn [CardStore.e_id CardStore.e_level CardStore.e_reviewed CardStore.r_value].
      now rewrite stripCardPrefix_append.
Qed.

(** X7.  The default listing and the "new only" listing come in strictly
    descending order of identifier (newest first), with or without a
    limit: every card's identifier is strictly smaller, as a string, than
    the identifier of every card before it. *)
Theorem getCards_newest_first
    (reviewTime : Z) (db : gmap string Pouch.Stored)
    (o : CardStore.GetCardsOptions) :
  CardStore.type o <> CardStore.OverdueCards ->
  StronglySorted
    (fun c1 c2 => JS.str_lt (CardStore.c_id c2) (CardStore.c_id c1) = true)
    (CardStore.getCards reviewTime db o).
Proof.
  intros Hty.
  assert (Hshape : forall id d k v,
            (k, v) ∈ view_of reviewTime o id d ->
            exists x, id = String.append CardStore.PROGRESS_PREFIX x
                      /\ k = CardStore.KStr id
                      /\ CardStore.e_id v = String.append CardStore.CARD_PREFIX x).
  { intros id d k v. unfold view_of.
    destruct (CardStore.type o); [| |contradiction].
    - intros H. apply cardMapFunction_emits in H as (x & ? & ? & ->). eauto.
    - intros H. apply newCardMapFunction_emits in H
        as (x & p & ? & ? & ? & ? & ->). eauto. }
  assert (Hone : forall id d,
            (List.length (view_of reviewTime o id d) <= 1)%nat).
  { intros id d. unfold view_of.
    destruct (CardStore.type o); [| |contradiction].
    - unfold CardStore.cardMapFunction.
      destruct (negb _); cbn; lia.
    - unfold CardStore.newCardMapFunction.
      destruct (_ || _); cbn; lia. }
  destruct (getCards_rows reviewTime db o Hone) as (rows & -> & Hsorted & Hsub).
  apply (StronglySorted_omap (flip row_lt) _ _ _ Hsorted).
  intros r1 r2 c1 c2 Hr1 Hr2 [Hle Hne] Hc1 Hc2.
  apply Hsub, elem_of_view_rows in Hr1 as (d1 & _ & He1).
  apply Hsub, elem_of_view_rows in Hr2 as (d2 & _ & He2).
  apply Hshape in He1 as (x1 & Hid1 & Hk1 & Hv1).
  apply Hshape in He2 as (x2 & Hid2 & Hk2 & Hv2).
  unfold card_of_query_row in Hc1, Hc2.
  destruct (db !! CardStore.e_id (CardStore.r_value r1)); [|discriminate].
  destruct (db !! CardStore.e_id (CardStore.r_value r2)); [|discriminate].
  inversion Hc1; inversion Hc2; subst c1 c2; clear Hc1 Hc2.
  unfold card_of_row. cbn [CardStore.c_id].
  rewrite Hv1, Hv2, !stripCardPrefix_append.
  destruct Hle as [Hkey _]. rewrite Hk1, Hk2 in Hkey. cbn in Hkey.
  unfold JS.str_lt.
  assert (Hlt : String.ltb (CardStore.r_docid r2) (CardStore.r_docid r1) = true)
    by (apply string_leb_neq_ltb; assumption).
  unfold String.ltb in *. rewrite Hid1, Hid2, string_compare_append in Hlt.
  exact Hlt.
Qed.

Lemma getCards_newest_first_witness :
  StronglySorted
    (fun c1 c2 => JS.str_lt (CardStore.c_id c2) (CardStore.c_id c1) = true)
    (CardStore.getCards 0 failed_and_fresh
       (CardStore.mkGetCards (Some 5%nat) CardStore.AllCards false)).
Proof.
  apply (getCards_newest_first 0 failed_and_fresh
           (CardStore.mkGetCards (Some 5%nat) CardStore.AllCards false)).
  discriminate.
Defined.

Section OverdueListing.
Import Pouch CardStore.
Local Open Scope R_scope.

Lemma overduenessFunction_emits_iff reviewTime id doc k v :
  (k, v) ∈ overduenessFunction reviewTime id doc <->
  exists x p rvw,
    id = String.append PROGRESS_PREFIX x
    /\ doc = BProgress p /\ reviewed p = Some rvw
    /\ k = (if (level p =? 0)%Z then KNum (IZR MAX_VALUE)
            else number_key (overdueValue reviewTime (level p) rvw))
    /\ v = mkEmitted (String.append CARD_PREFIX x) (Num (level p)) (Num rvw).
Proof.
  unfold overduenessFunction. split.
  - destruct (JS.startsWith PROGRESS_PREFIX id) eqn:Hpre; cbn [negb].
    2:{ intros H. inversion H. }
    destruct doc as [c|p|r|]; cbn; try (intros H; inversion H; fail).
    destruct (reviewed p) as [rv|] eqn:Hrv; cbn; [|intros H; inversion H].
    apply startsWith_split in Hpre.
    intros H.
    exists (JS.substr (String.length PROGRESS_PREFIX) id), p, rv.
    destruct (Z.eqb_spec (level p) 0) as [E|E];
      apply list_elem_of_singleton in H;
      inversion H; subst k v; repeat split; try assumption.
    now rewrite E.
  - intros (x & p & rvw & -> & -> & Hrv & -> & ->).
    rewrite startsWith_append. cbn. rewrite Hrv.
    rewrite linked_card_progress.
    destruct (Z.eqb_spec (level p) 0) as [E|E];
      apply list_elem_of_singleton; [rewrite E|]; reflexivity.
Qed.

Lemma overdue_range (reviewTime : Z) (skip : bool) (lvl rvw : Z) :
  key_within (Some (KNum 0))
    (if skip then Some (KNum (IZR MAX_SAFE_INTEGER)) else None)
    (if (lvl =? 0)%Z then KNum (IZR MAX_VALUE)
     else number_key (overdueValue reviewTime lvl rvw)) = true
  <-> listed_as_overdue reviewTime skip lvl rvw.
Proof.
  unfold key_within, listed_as_overdue, number_key.
  assert (Hmax : 0 <= IZR MAX_VALUE) by (apply IZR_le; vm_compute; discriminate).
  assert (Hsafe : ~ IZR MAX_VALUE <= IZR MAX_SAFE_INTEGER).
  { intros H. apply le_IZR in H. revert H. vm_compute. intros H. now apply H. }
  assert (Hsafe' : IZR MAX_SAFE_INTEGER <= IZR MAX_VALUE).
  { apply IZR_le. vm_compute. discriminate. }
  destruct (lvl =? 0)%Z; [|
    destruct (Rle_dec (- IZR MAX_VALUE) (overdueValue reviewTime lvl rvw));
    [destruct (Rle_dec (overdueValue reviewTime lvl rvw) (IZR MAX_VALUE))|]];
    destruct skip; cbn [key_le];
    rewrite andb_true_iff, ?bool_decide_eq_true;
    intuition (try discriminate; try lra).
Qed.

End OverdueListing.

(** X8.  Without a limit, the overdue listing returns exactly the entities
    whose Progress record has a numeric last-reviewed timestamp, whose
    Card document exists, and which are either of level 0 (failed cards:
    always listed, unless failed cards are skipped) or have a score that
    is not negative and not above [Number.MAX_VALUE] (and, when failed
    cards are skipped, not above [Number.MAX_SAFE_INTEGER]).  A score
    above [Number.MAX_VALUE] is stored as a null key, which lies below the
    start of the range, so such an entity is not listed; never-reviewed
    entities are not listed either. *)
Theorem getCards_overdue_lists_due
    (reviewTime : Z) (db : gmap string Pouch.Stored) (skip : bool)
    (c : CardStore.Card) :
  c ∈ CardStore.getCards reviewTime db
        (CardStore.mkGetCards None CardStore.OverdueCards skip)
  <->
  exists (x : string) (p : Pouch.ProgressRecord) (rvw : Z)
         (dp dc : Pouch.Stored),
    db !! String.append CardStore.PROGRESS_PREFIX x = Some dp
    /\ Pouch.body dp = Pouch.BProgress p
    /\ Pouch.reviewed p = Some rvw
    /\ listed_as_overdue reviewTime skip (Pouch.level p) rvw
    /\ db !! String.append CardStore.CARD_PREFIX x = Some dc
    /\ c = CardStore.mkCardView x (Pouch.body dc)
             (CardStore.parseProgress (Pouch.Num (Pouch.level p)) (Pouch.Num rvw)).
Proof.
  rewrite elem_of_getCards_nolimit by reflexivity.
  unfold options_of, view_of.
  cbn [CardStore.type CardStore.skipFailedCards CardStore.limit
         CardStore.endkey CardStore.startkey].
  split.
  - intros (row & d & Hrow & Hkey & Hd & ->).
    apply elem_of_view_rows in Hrow as (dp & Hdp & Hemit).
    apply overduenessFunction_emits_iff in Hemit
      as (x & p & rvw & Hid & Hbody & Hrv & Hk & Hv).
    rewrite Hk in Hkey. apply overdue_range in Hkey.
    exists x, p, rvw, dp, d. rewrite <- Hid. repeat split; try assumption.
    + now rewrite Hv in Hd.
    + unfold card_of_row. rewrite Hv.
      cbn [CardStore.e_id CardStore.e_level CardStore.e_reviewed].
      now rewrite stripCardPrefix_append.
  - intros (x & p & rvw & dp & dc & Hdp & Hbody & Hrv & Hdue & Hdc & ->).
    exists (CardStore.mkRow (String.append CardStore.PROGRESS_PREFIX x)
              (if (Pouch.level p =? 0)%Z
               then CardStore.KNum (IZR CardStore.MAX_VALUE)
               else CardStore.number_key
                      (CardStore.overdueValue reviewTime (Pouch.level p) rvw))
              (CardStore.mkEmitted (String.append CardStore.CARD_PREFIX x)
                 (Pouch.Num (Pouch.level p)) (Pouch.Num rvw))), dc.
    repeat split.
    + apply elem_of_view_rows. exists dp. split; [exact Hdp|].
      apply overduenessFunction_emits_iff. exists x, p, rvw. cbn.
      rewrite Hbody. auto.
    + cbn [CardStore.r_key]. now apply overdue_range.
    + exact Hdc.
    + unfold card_of_row.
      cbn [CardStore.e_id CardStore.e_level CardStore.e_reviewed CardStore.r_value].
      now rewrite stripCardPrefix_append.
Qed.

Section ScoreShape.
Import Pouch CardStore.
Local Open Scope R_scope.

(** The days a card is overdue, as the scoring function computes them. *)
Lemma daysOverdue_lt (rt1 rv1 rt2 rv2 L : Z) :
  (rt1 - rv1 < rt2 - rv2)%Z ->
  (IZR rt1 - IZR rv1) / IZR MS_PER_DAY - IZR L
  < (IZR rt2 - IZR rv2) / IZR MS_PER_DAY - IZR L.
Proof.
  intros H. apply IZR_lt in H. rewrite !minus_IZR in H.
  change (IZR MS_PER_DAY) with 86400000. lra.
Qed.

Lemma score_increasing (l d1 d2 : R) :
  0 < l -> d1 < d2 ->
  d1 / l + (exp (EXP_FACTOR * d1) - 1) < d2 / l + (exp (EXP_FACTOR * d2) - 1).
Proof.
  intros Hl Hd.
  assert (Hinv : 0 < / l) by now apply Rinv_0_lt_compat.
  assert (Hlin : d1 / l < d2 / l) by (unfold Rdiv; nra).
  assert (Hexp : exp (EXP_FACTOR * d1) < exp (EXP_FACTOR * d2)).
  { apply exp_increasing. unfold EXP_FACTOR. lra. }
  lra.
Qed.

Lemma score_at_zero (l : R) : 0 / l + (exp (EXP_FACTOR * 0) - 1) = 0.
Proof. rewrite Rmult_0_r, exp_0. unfold Rdiv. lra. Qed.

Lemma overdueValue_lt (L rt1 rv1 rt2 rv2 : Z) :
  (0 < L)%Z ->
  (rt1 - rv1 < rt2 - rv2)%Z ->
  overdueValue rt1 L rv1 < overdueValue rt2 L rv2.
Proof.
  intros HL Hlt. unfold overdueValue.
  apply score_increasing.
  - now apply IZR_lt.
  - now apply daysOverdue_lt.
Qed.

End ScoreShape.

(** X10.  For a level [L > 0] the overdueness score is not negative
    exactly when at least [L] days (of 86 400 000 ms) have passed since the
    last review; it is 0 when exactly [L] days have passed. *)
Theorem overdueValue_nonneg_iff_due (L reviewTime reviewed : Z) :
  0 < L ->
  ((0 <= CardStore.overdueValue reviewTime L reviewed)%R
   <-> L * 86400000 <= reviewTime - reviewed)
  /\ (reviewTime - reviewed = L * 86400000 ->
      CardStore.overdueValue reviewTime L reviewed = 0%R).
Proof.
  intros HL.
  assert (Hl : (0 < IZR L)%R) by now apply IZR_lt.
  assert (Hzero : CardStore.overdueValue (L * 86400000) L 0 = 0%R).
  { unfold CardStore.overdueValue. cbv zeta.
    replace ((IZR (L * 86400000) - IZR 0) / IZR CardStore.MS_PER_DAY - IZR L)%R
      with 0%R.
    - apply score_at_zero.
    - rewrite mult_IZR. change (IZR CardStore.MS_PER_DAY) with 86400000%R.
      field. }
  assert (Hsame : forall rt rv, rt - rv = L * 86400000 ->
            CardStore.overdueValue rt L rv = 0%R).
  { intros rt rv Heq. rewrite <- Hzero. unfold CardStore.overdueValue. cbv zeta.
    replace (IZR rt - IZR rv)%R with (IZR (L * 86400000) - IZR 0)%R;
      [reflexivity|].
    rewrite <- !minus_IZR. f_equal. lia. }
  split; [|apply Hsame].
  split.
  - intros Hnonneg.
    destruct (Z_lt_le_dec (reviewTime - reviewed) (L * 86400000)) as [Hlt|Hle];
      [|exact Hle].
    exfalso.
    pose proof (overdueValue_lt L reviewTime reviewed
                  (L * 86400000) 0 HL ltac:(lia)) as Hinc.
    rewrite Hzero in Hinc. lra.
  - intros Hle.
    destruct (Z.eq_dec (reviewTime - reviewed) (L * 86400000)) as [Heq|Hne].
    + rewrite (Hsame _ _ Heq). lra.
    + pose proof (overdueValue_lt L (L * 86400000) 0
                    reviewTime reviewed HL ltac:(lia)) as Hinc.
      rewrite Hzero in Hinc. lra.
Qed.

Lemma overdueValue_nonneg_iff_due_witness :
  ((0 <= CardStore.overdueValue (1000 + 2 * 86400000) 2 1000)%R
   <-> 2 * 86400000 <= 1000 + 2 * 86400000 - 1000)
  /\ (1000 + 2 * 86400000 - 1000 = 2 * 86400000 ->
      CardStore.overdueValue (1000 + 2 * 86400000) 2 1000 = 0%R).
Proof.
  apply (overdueValue_nonneg_iff_due 2 (1000 + 2 * 86400000) 1000).
  reflexivity.
Defined.

(** ** Creating and reading entities *)

Section CreateAndRead.
Import Pouch CardStore CardOps.
Variable env : Env.

Lemma card_progress_ids_differ (id id' : string) :
  String.append CARD_PREFIX id <> String.append PROGRESS_PREFIX id'.
Proof.
  unfold CARD_PREFIX, PROGRESS_PREFIX. rewrite !append_cons. discriminate.
Qed.

Lemma progress_card_ids_differ (id id' : string) :
  String.append PROGRESS_PREFIX id <> String.append CARD_PREFIX id'.
Proof.
  unfold CARD_PREFIX, PROGRESS_PREFIX. rewrite !append_cons. discriminate.
Qed.

(** What a write request can do to the documents. *)
Lemma db_put_db id b w :
  db (snd (db_put env id b w)) = db w
  \/ (db w !! id = None
      /\ exists r, db (snd (db_put env id b w)) = <[id := mkStored r b []]> (db w)).
Proof.
  unfold db_put, request.
  destruct (faultAt env (requests w)); [left; reflexivity|].
  cbn [db next_request].
  destruct (db w !! id) eqn:Hlk; [left; reflexivity|].
  right. split; [reflexivity|]. eexists. reflexivity.
Qed.

Lemma db_remove_db id r w :
  db (snd (db_remove env id r w)) = db w
  \/ db (snd (db_remove env id r w)) = delete id (db w).
Proof.
  unfold db_remove, request.
  destruct (faultAt env (requests w)); [left; reflexivity|].
  cbn [db next_request].
  destruct (db w !! id) as [d|]; [|left; reflexivity].
  destruct (Nat.eqb (rev d) r); [right | left]; reflexivity.
Qed.

Lemma generateCardId_db w :
  db (snd (generateCardId env w)) = db w
  /\ exists id, fst (generateCardId env w) = Ok id.
Proof.
  unfold generateCardId, bind, date_now, random_46656.
  destruct (IdGen.generateCardId _ _ _) as [id t]. cbn. eauto.
Qed.

(** No attempt of a create call touches a document that is already
    there. *)
Lemma tryPutNewCard_preserves (fuel : nat) :
  forall card progress id w k d,
    db w !! k = Some d ->
    db (snd (tryPutNewCard env fuel card progress id w)) !! k = Some d.
Proof.
  induction fuel as [|fuel IH]; intros card progress id w k d Hk; [exact Hk|].
  cbn [tryPutNewCard].
  pose proof (db_put_db (String.append CARD_PREFIX id) (BCard card) w) as Hput.
  destruct (db_put env (String.append CARD_PREFIX id) (BCard card) w)
    as [[r|err] w1] eqn:Hcard; cbn [snd] in Hput.
  - apply db_put_ok in Hcard as (Hfree & _ & _ & Hdb1).
    assert (Hk1 : db w1 !! k = Some d).
    { rewrite Hdb1, lookup_insert_ne; [exact Hk|]. intros <-. congruence. }
    unfold try_catch, bind at 1.
    pose proof (db_put_db (String.append PROGRESS_PREFIX id) (BProgress progress) w1)
      as Hput2.
    destruct (db_put env (String.append PROGRESS_PREFIX id) (BProgress progress) w1)
      as [[r2|err2] w2] eqn:Hprog; cbn [snd] in Hput2.
    + cbn. destruct Hput2 as [-> | (Hfree2 & r' & ->)]; [exact Hk1|].
      rewrite lookup_insert_ne; [exact Hk1|]. intros <-. congruence.
    + apply db_put_throw in Hprog as (Hdb2 & _).
      unfold bind, throw.
      pose proof (db_remove_db (String.append CARD_PREFIX id) r w2) as Hrm.
      destruct (db_remove env (String.append CARD_PREFIX id) r w2)
        as [[[]|e] w3]; cbn [snd] in *;
        (destruct Hrm as [-> | ->];
         [now rewrite Hdb2
         | rewrite lookup_delete_ne; [now rewrite Hdb2|];
           intros <-; rewrite Hdb1, lookup_insert_eq in Hk1;
           rewrite Hfree in Hk; discriminate]).
  - apply db_put_throw in Hcard as (Hdb1 & _).
    destruct (negb (bool_decide (status err = Some 409))); [cbn; congruence|].
    unfold bind.
    destruct (generateCardId_db w1) as (Hdbg & id' & Hid').
    destruct (generateCardId env w1) as [res wg]. cbn [fst snd] in *. subst res.
    apply IH. congruence.
Qed.

(** A successful attempt wrote exactly two documents, under an id that was
    free, and returns the entity made of them. *)
Lemma tryPutNewCard_success (fuel : nat) :
  forall card progress id w c w',
    tryPutNewCard env fuel card progress id w = (Ok (Some c), w') ->
    exists id' r1 r2,
      db w !! String.append CARD_PREFIX id' = None
      /\ db w !! String.append PROGRESS_PREFIX id' = None
      /\ db w' = <[String.append PROGRESS_PREFIX id' :=
                     mkStored r2 (BProgress progress) []]>
                   (<[String.append CARD_PREFIX id' :=
                        mkStored r1 (BCard card) []]> (db w))
      /\ c = mergeRecords (String.append CARD_PREFIX id')
               (BCard card) (BProgress progress).
Proof.
  induction fuel as [|fuel IH]; intros card progress id w c w' Hrun;
    [discriminate|].
  cbn [tryPutNewCard] in Hrun.
  destruct (db_put env (String.append CARD_PREFIX id) (BCard card) w)
    as [[r|err] w1] eqn:Hcard.
  - apply db_put_ok in Hcard as (Hfree & -> & _ & Hdb1).
    unfold try_catch, bind at 1 in Hrun.
    destruct (db_put env (String.append PROGRESS_PREFIX id) (BProgress progress) w1)
      as [[r2|err2] w2] eqn:Hprog.
    + apply db_put_ok in Hprog as (Hfree2 & -> & _ & Hdb2).
      cbn in Hrun. inversion Hrun; subst; clear Hrun.
      exists id, (S (requests w)), (S (requests w1)).
      repeat split; try assumption.
      * rewrite Hdb1, lookup_insert_ne in Hfree2; [exact Hfree2|].
        apply card_progress_ids_differ.
      * now rewrite Hdb2, Hdb1.
    + unfold bind, throw in Hrun.
      destruct (db_remove env _ _ w2) as [[[]|e] w3]; discriminate.
  - apply db_put_throw in Hcard as (Hdb1 & _).
    destruct (negb (bool_decide (status err = Some 409))); [discriminate|].
    unfold bind in Hrun.
    destruct (generateCardId_db w1) as (Hdbg & id' & Hid').
    destruct (generateCardId env w1) as [res wg]. cbn [fst snd] in *. subst res.
    apply IH in Hrun as (id'' & r1 & r2 & H1 & H2 & H3 & H4).
    exists id'', r1, r2. rewrite <- Hdb1, <- Hdbg. auto.
Qed.

Lemma getCard_present id dc dp w :
  db w !! String.append CARD_PREFIX id = Some dc ->
  db w !! String.append PROGRESS_PREFIX id = Some dp ->
  faultAt env (requests w) = None ->
  faultAt env (S (requests w)) = None ->
  exists w',
    getCard env id w
    = (Ok (mergeRecords (String.append CARD_PREFIX id) (body dc) (body dp)), w')
    /\ db w' = db w.
Proof.
  intros Hc Hp Hf1 Hf2.
  unfold getCard, bind, db_get, request, ret.
  rewrite Hf1. cbn [db next_request requests]. rewrite Hc.
  cbn [requests next_request]. rewrite Hf2. cbn [db next_request]. rewrite Hp.
  eexists. split; reflexivity.
Qed.

Lemma putNewCard_unfold fuel card w :
  _putNewCard env fuel card w
  = tryPutNewCard env fuel
      (mkCard (or_empty (pc_question card)) (or_empty (pc_answer card))
         (nowAt env (reads w)) (nowAt env (S (reads w))))
      (mkProgress
         (match pc_progress card with
          | Some p => match pp_level p with Some l => l | None => 0 end
          | None => 0
          end)
         (match pc_progress card with
          | Some p => pp_reviewed p
          | None => None
          end))
      (fst (IdGen.generateCardId (nowAt env (S (S (reads w))))
              (randomAt env (S (S (S (reads w))))) (prevTimeStamp w)))
      (with_prevTimeStamp
         (snd (IdGen.generateCardId (nowAt env (S (S (reads w))))
                 (randomAt env (S (S (S (reads w))))) (prevTimeStamp w)))
         (next_read (next_read (next_read (next_read w))))).
Proof.
  unfold _putNewCard, generateCardId, bind, date_now, random_46656.
  cbn -[tryPutNewCard IdGen.generateCardId].
  destruct (IdGen.generateCardId _ _ _) as [id t]. reflexivity.
Qed.

End CreateAndRead.

(** X11.  A create call never changes or removes a document that is
    already in the store, whatever fails on the way and however often the
    id has to be generated again. *)
Theorem putNewCard_preserves_documents
    (env : Pouch.Env) (fuel : nat) (card : CardStore.PartialCard)
    (w : CardStore.Store) (k : string) (d : Pouch.Stored) :
  CardStore.db w !! k = Some d ->
  CardStore.db (snd (CardStore._putNewCard env fuel card w)) !! k = Some d.
Proof.
  intros Hk. rewrite putNewCard_unfold.
  apply tryPutNewCard_preserves. exact Hk.
Qed.

Lemma putNewCard_preserves_documents_witness :
  CardStore.db
    (snd (CardStore._putNewCard env_rollback_fails 3
            (CardStore.mkPartialCard None (Some "Q"%string) None None)
            conflicted_store))
  !! "card-0abc"%string
  = Some (Pouch.mkStored 6 card_doc_1 [card_doc_2]).
Proof.
  apply (putNewCard_preserves_documents env_rollback_fails 3
           (CardStore.mkPartialCard None (Some "Q"%string) None None)
           conflicted_store "card-0abc").
  vm_compute. reflexivity.
Defined.

(** X12.  When a create call succeeds, it has written exactly two
    documents, a Card and a Progress document under an id that was free
    before; the entity it returns carries the given question and answer
    (empty when absent), the instants read from the clock, and the given
    progress (level 0 and never reviewed when absent); and a following
    [getCard] of the returned id, when its two reads do not fail, returns
    the same entity. *)
Theorem putNewCard_then_getCard
    (env : Pouch.Env) (fuel : nat) (card : CardStore.PartialCard)
    (w w' : CardStore.Store) (c : CardStore.Card) :
  CardStore._putNewCard env fuel card w = (Pouch.Ok (Some c), w') ->
  let cardRecord :=
    Pouch.mkCard (CardStore.or_empty (CardStore.pc_question card))
      (CardStore.or_empty (CardStore.pc_answer card))
      (Pouch.nowAt env (CardStore.reads w))
      (Pouch.nowAt env (S (CardStore.reads w))) in
  let progressRecord :=
    Pouch.mkProgress
      (match CardStore.pc_progress card with
       | Some p => match CardStore.pp_level p with Some l => l | None => 0 end
       | None => 0
       end)
      (match CardStore.pc_progress card with
       | Some p => CardStore.pp_reviewed p
       | None => None
       end) in
  CardStore.c_doc c = Pouch.BCard cardRecord
  /\ CardStore.c_progress c
     = CardStore.parseProgress (Pouch.Num (Pouch.level progressRecord))
         (Pouch.doc_reviewed (Pouch.BProgress progressRecord))
  /\ CardStore.db w !! String.append CardStore.CARD_PREFIX (CardStore.c_id c) = None
  /\ CardStore.db w !! String.append CardStore.PROGRESS_PREFIX (CardStore.c_id c) = None
  /\ (exists r1 r2,
        CardStore.db w'
        = <[String.append CardStore.PROGRESS_PREFIX (CardStore.c_id c) :=
              Pouch.mkStored r2 (Pouch.BProgress progressRecord) []]>
            (<[String.append CardStore.CARD_PREFIX (CardStore.c_id c) :=
                 Pouch.mkStored r1 (Pouch.BCard cardRecord) []]> (CardStore.db w)))
  /\ (Pouch.faultAt env (CardStore.requests w') = None ->
      Pouch.faultAt env (S (CardStore.requests w')) = None ->
      exists w'',
        CardOps.getCard env (CardStore.c_id c) w' = (Pouch.Ok c, w'')
        /\ CardStore.db w'' = CardStore.db w').
Proof.
  intros Hrun cardRecord progressRecord.
  rewrite putNewCard_unfold in Hrun.
  apply tryPutNewCard_success in Hrun
    as (id & r1 & r2 & Hfree1 & Hfree2 & Hdb & ->).
  cbn [CardStore.db CardStore.with_prevTimeStamp CardStore.next_read] in *.
  unfold CardStore.mergeRecords. cbn [CardStore.c_id CardStore.c_doc CardStore.c_progress].
  rewrite stripCardPrefix_append.
  split; [reflexivity|]. split; [reflexivity|].
  split; [exact Hfree1|]. split; [exact Hfree2|].
  split; [exists r1, r2; exact Hdb|].
  intros Hf1 Hf2.
  destruct (getCard_present env id
              (Pouch.mkStored r1 (Pouch.BCard cardRecord) [])
              (Pouch.mkStored r2 (Pouch.BProgress progressRecord) [])
              w') as (w'' & Hget & Hdb'').
  - rewrite Hdb, lookup_insert_ne by (intros E; symmetry in E;
                                        now apply card_progress_ids_differ in E).
    apply lookup_insert_eq.
  - rewrite Hdb. apply lookup_insert_eq.
  - exact Hf1.
  - exact Hf2.
  - exists w''. split; [|exact Hdb''].
    rewrite Hget. unfold CardStore.mergeRecords.
    now rewrite stripCardPrefix_append.
Qed.

Lemma putNewCard_then_getCard_witness :
  exists w'',
    CardOps.getCard env_quiet "363z4we8007" after_create
    = (Pouch.Ok created_QA, w'')
    /\ CardStore.db w'' = CardStore.db after_create.
Proof.
  apply (proj2 (proj2 (proj2 (proj2 (proj2
           (putNewCard_then_getCard env_quiet 3 create_QA empty_store
              after_create created_QA ltac:(vm_compute; reflexivity))))))).
  - reflexivity.
  - reflexivity.
Defined.

(** ** Updating entities *)

Section Updating.
Import Pouch CardStore CardOps.
Variable env : Env.

Lemma upsert_get_missing id w :
  db w !! id = None ->
  faultAt env (requests w) = None ->
  try_catch (d <- db_get env id ;; ret (Some d))
    (fun err => if bool_decide (status err = Some 404)
                then ret None else throw err) w
  = (Ok None, next_request w).
Proof.
  intros Hlk Hf. unfold try_catch, bind, db_get, request, ret.
  rewrite Hf. cbn [db next_request]. rewrite Hlk. reflexivity.
Qed.

Lemma upsert_get_present id d w :
  db w !! id = Some d ->
  faultAt env (requests w) = None ->
  try_catch (d <- db_get env id ;; ret (Some d))
    (fun err => if bool_decide (status err = Some 404)
                then ret None else throw err) w
  = (Ok (Some d), next_request w).
Proof.
  intros Hlk Hf. unfold try_catch, bind, db_get, request, ret.
  rewrite Hf. cbn [db next_request]. rewrite Hlk. reflexivity.
Qed.

(** [diffFun] declines: nothing is written. *)
Lemma upsert_declined {A} fuel id (diffFun : option Stored -> M (option Body * A))
    doc w (a : A) w1 :
  try_catch (d <- db_get env id ;; ret (Some d))
    (fun err => if bool_decide (status err = Some 404)
                then ret None else throw err) w
  = (Ok doc, next_request w) ->
  diffFun doc (next_request w) = (Ok (None, a), w1) ->
  upsert env (S fuel) id diffFun w = (Ok (Some a), w1).
Proof.
  intros Hget Hdiff. cbn [upsert]. unfold bind at 1. rewrite Hget.
  unfold bind at 1. rewrite Hdiff. reflexivity.
Qed.

(** [diffFun] returns new content and the write goes through. *)
Lemma upsert_written {A} fuel id (diffFun : option Stored -> M (option Body * A))
    d w b (a : A) w1 :
  db w !! id = Some d ->
  faultAt env (requests w) = None ->
  diffFun (Some d) (next_request w) = (Ok (Some b, a), w1) ->
  db w1 = db w ->
  faultAt env (requests w1) = None ->
  exists w2,
    upsert env (S fuel) id diffFun w = (Ok (Some a), w2)
    /\ db w2 = <[id := mkStored (S (requests w1)) b (conflicts d)]> (db w)
    /\ requests w2 = S (requests w1)
    /\ reads w2 = reads w1.
Proof.
  intros Hlk Hf Hdiff Hdb Hf1. cbn [upsert]. unfold bind at 1.
  rewrite (upsert_get_present id d w Hlk Hf).
  unfold bind at 1. rewrite Hdiff. cbn [fst snd].
  unfold db_put_rev, request. rewrite Hf1.
  cbn [db next_request requests]. rewrite Hdb, Hlk. cbn [fmap option_fmap option_map].
  rewrite Nat.eqb_refl.
  eexists. split; [reflexivity|]. cbn. rewrite Hdb. auto.
Qed.

End Updating.

(** X13.  An update ([putCard] with an id) of an entity whose Card
    document does not exist rejects with status 404 after a single read;
    nothing is written. *)
Theorem putCard_missing_card
    (env : Pouch.Env) (fuel : nat) (card : CardOps.CardInput)
    (id : string) (w : CardStore.Store) :
  CardStore.pc_id (CardOps.in_card card) = Some id ->
  id <> EmptyString ->
  CardStore.db w !! String.append CardStore.CARD_PREFIX id = None ->
  Pouch.faultAt env (CardStore.requests w) = None ->
  CardOps.putCard env (S fuel) card w
  = (Pouch.Throw CardOps.not_found, CardStore.next_request w).
Proof.
  intros Hid Hne Hlk Hf. unfold CardOps.putCard. rewrite Hid.
  rewrite (eqb_empty_false _ Hne).
  unfold CardStore.bind at 1. unfold CardOps._updateCard.
  unfold CardStore.bind at 1.
  rewrite (upsert_declined env fuel _ _ None w None (CardStore.next_request w)).
  - reflexivity.
  - now apply upsert_get_missing.
  - reflexivity.
Qed.

Lemma putCard_missing_card_witness :
  CardOps.putCard env_quiet 1
    (CardOps.mkCardInput
       (CardStore.mkPartialCard (Some "zzz"%string) (Some "Q2"%string) None None)
       None None)
    after_create
  = (Pouch.Throw CardOps.not_found, CardStore.next_request after_create).
Proof.
  apply (putCard_missing_card env_quiet 0
           (CardOps.mkCardInput
              (CardStore.mkPartialCard (Some "zzz"%string) (Some "Q2"%string)
                 None None)
              None None)
           "zzz" after_create).
  - reflexivity.
  - discriminate.
  - vm_compute. reflexivity.
  - reflexivity.
Defined.

Section UpdatingEffects.
Import Pouch CardStore CardOps.
Variable env : Env.
Hypothesis no_faults : forall n, faultAt env n = None.

Lemma updateCard_effect fuel id update d w :
  db w !! String.append CARD_PREFIX id = Some d ->
  exists w',
    _updateCard env (S fuel) id update w
    = (Ok (Some (match card_keys update with
                 | O => merge_card (body d) update
                 | S _ => set_modified (nowAt env (reads w))
                            (merge_card (body d) update)
                 end)), w')
    /\ db w'
       = match card_keys update with
         | O => db w
         | S _ => <[String.append CARD_PREFIX id :=
                      mkStored (S (S (requests w)))
                        (set_modified (nowAt env (reads w))
                           (merge_card (body d) update))
                        (conflicts d)]> (db w)
         end
    /\ reads w' = match card_keys update with
                  | O => reads w
                  | S _ => S (reads w)
                  end.
Proof.
  intros Hlk. unfold _updateCard. cbn [upsert].
  unfold bind, try_catch, db_get, db_put_rev, request, ret, date_now, throw.
  rewrite !no_faults. cbn [db next_request requests]. rewrite Hlk.
  destruct (card_keys update) as [|n] eqn:Hkeys.
  - eexists. split; [reflexivity|]. auto.
  - cbn. rewrite !no_faults. cbn. rewrite Hlk. cbn. rewrite Nat.eqb_refl.
    eexists. split; [reflexivity|]. auto.
Qed.

Lemma merged_is_updated c update now :
  match card_keys update with
  | O => merge_card (BCard c) update
  | S _ => set_modified now (merge_card (BCard c) update)
  end = BCard (updated_card c update now).
Proof.
  unfold updated_card, merge_card, set_modified.
  destruct (card_keys update) eqn:Hkeys; [|reflexivity].
  unfold card_keys in Hkeys.
  destruct (in_modified update); [lia | reflexivity].
Qed.

Lemma same_progress_eq p q : same_progress p q = true <-> p = q.
Proof.
  unfold same_progress. destruct p as [l r], q as [l' r']. cbn.
  rewrite andb_true_iff, Z.eqb_eq, bool_decide_eq_true.
  split; [intros [-> ->]; reflexivity | intros H; inversion H; auto].
Qed.

Lemma apply_progress_typed p update :
  apply_progress (BProgress p) update
  = (BProgress (updated_progress p update),
     negb (same_progress (updated_progress p update) p)).
Proof.
  unfold apply_progress, updated_progress, same_progress.
  destruct p as [lvl rvw]. cbn.
  destruct (pp_reviewed update) as [t|]; destruct (pp_level update) as [l|]; cbn;
    repeat case_bool_decide;
    repeat match goal with
           | |- context [Z.eqb ?a ?b] => destruct (Z.eqb_spec a b)
           end;
    subst; cbn; try reflexivity; congruence.
Qed.

Lemma updateProgress_effect fuel id update d p w :
  db w !! String.append PROGRESS_PREFIX id = Some d ->
  body d = BProgress p ->
  exists w',
    _updateProgress env (S fuel) id update w
    = (Ok (Some (BProgress (updated_progress p update))), w')
    /\ db w'
       = (if same_progress (updated_progress p update) p then db w
          else <[String.append PROGRESS_PREFIX id :=
                   mkStored (S (S (requests w)))
                     (BProgress (updated_progress p update)) (conflicts d)]> (db w)).
Proof.
  intros Hlk Hbody. unfold _updateProgress. cbn [upsert].
  unfold bind, try_catch, db_get, db_put_rev, request, ret, throw.
  rewrite !no_faults. cbn [db next_request requests]. rewrite Hlk.
  rewrite Hbody, apply_progress_typed.
  destruct (same_progress (updated_progress p update) p) eqn:Hsame; cbn.
  - eexists. split; reflexivity.
  - rewrite !no_faults. cbn. rewrite Hlk. cbn. rewrite Nat.eqb_refl.
    eexists. split; reflexivity.
Qed.

End UpdatingEffects.

(** X14.  [_updateCard] on an existing Card record, nothing failing: the
    fields given replace the stored ones, and [created] is kept unless a
    value is given for it.  When no field is given nothing is written;
    when at least one is given -- even with the stored value --
    [modified] becomes the current time, whatever was given for it, and
    the record is written as a new revision.  The record returned is the
    one stored. *)
Theorem updateCard_merges
    (env : Pouch.Env) (fuel : nat) (id : string)
    (update : CardOps.CardInput) (d : Pouch.Stored) (c : Pouch.CardRecord)
    (w : CardStore.Store) :
  (forall n, Pouch.faultAt env n = None) ->
  CardStore.db w !! String.append CardStore.CARD_PREFIX id = Some d ->
  Pouch.body d = Pouch.BCard c ->
  let c' := updated_card c update (Pouch.nowAt env (CardStore.reads w)) in
  exists w',
    CardOps._updateCard env (S fuel) id update w
    = (Pouch.Ok (Some (Pouch.BCard c')), w')
    /\ (CardOps.in_created update = None -> Pouch.created c' = Pouch.created c)
    /\ (CardOps.card_keys update = 0%nat ->
        Pouch.modified c' = Pouch.modified c /\ CardStore.db w' = CardStore.db w)
    /\ (CardOps.card_keys update <> 0%nat ->
        Pouch.modified c' = Pouch.nowAt env (CardStore.reads w)
        /\ CardStore.db w'
           = <[String.append CardStore.CARD_PREFIX id :=
                 Pouch.mkStored (S (S (CardStore.requests w))) (Pouch.BCard c')
                   (Pouch.conflicts d)]> (CardStore.db w)).
Proof.
  intros Hnf Hlk Hbody c'.
  destruct (updateCard_effect env Hnf fuel id update d w Hlk)
    as (w' & Hrun & Hdb & _).
  pose proof (merged_is_updated c update (Pouch.nowAt env (CardStore.reads w)))
    as Hmerge.
  fold c' in Hmerge. rewrite Hbody in Hrun, Hdb.
  assert (Hcreated : CardOps.in_created update = None ->
                     Pouch.created c' = Pouch.created c).
  { intros Hcr. unfold c', updated_card. cbn. now rewrite Hcr. }
  exists w'. destruct (CardOps.card_keys update) as [|n] eqn:Hkeys.
  - rewrite Hmerge in Hrun. split; [exact Hrun|]. split; [exact Hcreated|].
    split; [|intros H; contradiction].
    intros _. split; [|exact Hdb].
    unfold c', updated_card. cbn. now rewrite Hkeys.
  - rewrite Hmerge in Hrun, Hdb. split; [exact Hrun|]. split; [exact Hcreated|].
    split; [intros H; discriminate|].
    intros _. split; [|exact Hdb].
    unfold c', updated_card. cbn. now rewrite Hkeys.
Qed.

Lemma updateCard_merges_witness :
  exists w',
    CardOps._updateCard env_quiet 1 "363z4we8007"
      (CardOps.mkCardInput
         (CardStore.mkPartialCard (Some "363z4we8007"%string) None
            (Some "A2"%string) None)
         None (Some 5))
      after_create
    = (Pouch.Ok (Some (Pouch.BCard
                         (Pouch.mkCard "Q" "A2" 1700000000000 1700000000000))),
       w')
    /\ CardStore.db w' !! "363z4we8007"%string = None.
Proof.
  destruct (updateCard_merges env_quiet 0 "363z4we8007"
              (CardOps.mkCardInput
                 (CardStore.mkPartialCard (Some "363z4we8007"%string) None
                    (Some "A2"%string) None)
                 None (Some 5))
              (Pouch.mkStored 1 (Pouch.BCard card_QA) []) card_QA after_create)
    as (w' & Hrun & _ & _ & Hwrite).
  - reflexivity.
  - vm_compute. reflexivity.
  - reflexivity.
  - exists w'. split; [exact Hrun|].
    destruct Hwrite as [_ ->]; [vm_compute; discriminate|].
    vm_compute. reflexivity.
Defined.

(** X15.  [_updateProgress] on an existing Progress record, nothing
    failing: a level or a review date that is given replaces the stored
    one, and the record returned is the one stored.  Nothing is written
    when the record does not change, and no update clears the last review
    date. *)
Theorem updateProgress_merges
    (env : Pouch.Env) (fuel : nat) (id : string)
    (update : CardStore.PartialProgress) (d : Pouch.Stored)
    (p : Pouch.ProgressRecord) (w : CardStore.Store) :
  (forall n, Pouch.faultAt env n = None) ->
  CardStore.db w !! String.append CardStore.PROGRESS_PREFIX id = Some d ->
  Pouch.body d = Pouch.BProgress p ->
  let p' := updated_progress p update in
  exists w',
    CardOps._updateProgress env (S fuel) id update w
    = (Pouch.Ok (Some (Pouch.BProgress p')), w')
    /\ (is_Some (Pouch.reviewed p) -> is_Some (Pouch.reviewed p'))
    /\ (p' = p -> CardStore.db w' = CardStore.db w)
    /\ (p' <> p ->
        CardStore.db w'
        = <[String.append CardStore.PROGRESS_PREFIX id :=
              Pouch.mkStored (S (S (CardStore.requests w))) (Pouch.BProgress p')
                (Pouch.conflicts d)]> (CardStore.db w)).
Proof.
  intros Hnf Hlk Hbody p'.
  destruct (updateProgress_effect env Hnf fuel id update d p w Hlk Hbody)
    as (w' & Hrun & Hdb).
  exists w'. split; [exact Hrun|]. split.
  - unfold p', updated_progress. cbn.
    destruct (CardStore.pp_reviewed update); eauto.
  - fold p' in Hdb. rewrite Hdb.
    destruct (same_progress p' p) eqn:Hsame.
    + apply same_progress_eq in Hsame. split; [auto | intros H; contradiction].
    + split; [|auto]. intros H. apply same_progress_eq in H. congruence.
Qed.

Lemma updateProgress_merges_witness :
  exists w',
    CardOps._updateProgress env_quiet 1 "363z4we8007"
      (CardStore.mkPartialProgress (Some 1) (Some 1700000000000))
      after_create
    = (Pouch.Ok (Some (Pouch.BProgress
                         (Pouch.mkProgress 1 (Some 1700000000000)))), w').
Proof.
  destruct (updateProgress_merges env_quiet 0 "363z4we8007"
              (CardStore.mkPartialProgress (Some 1) (Some 1700000000000))
              (Pouch.mkStored 2 (Pouch.BProgress progress_new) []) progress_new
              after_create)
    as (w' & Hrun & _).
  - reflexivity.
  - vm_compute. reflexivity.
  - reflexivity.
  - exists w'. exact Hrun.
Defined.

(** X16.  An update ([putCard] with an id) of an entity whose two
    documents exist, nothing failing, returns the entity with the merged
    card and progress; no other document changes; and a following
    [getCard] returns the same entity. *)
Theorem putCard_then_getCard
    (env : Pouch.Env) (fuel : nat) (card : CardOps.CardInput) (id : string)
    (dc dp : Pouch.Stored) (c : Pouch.CardRecord) (p : Pouch.ProgressRecord)
    (w : CardStore.Store) :
  (forall n, Pouch.faultAt env n = None) ->
  CardStore.pc_id (CardOps.in_card card) = Some id ->
  id <> EmptyString ->
  CardStore.db w !! String.append CardStore.CARD_PREFIX id = Some dc ->
  Pouch.body dc = Pouch.BCard c ->
  CardStore.db w !! String.append CardStore.PROGRESS_PREFIX id = Some dp ->
  Pouch.body dp = Pouch.BProgress p ->
  let c' := updated_card c card (Pouch.nowAt env (CardStore.reads w)) in
  let p' := updated_progress p
              (match CardStore.pc_progress (CardOps.in_card card) with
               | Some u => u
               | None => CardStore.mkPartialProgress None None
               end) in
  let entity :=
    CardStore.mkCardView id (Pouch.BCard c')
      (CardStore.parseProgress (Pouch.Num (Pouch.level p'))
         (Pouch.doc_reviewed (Pouch.BProgress p'))) in
  exists w',
    CardOps.putCard env (S fuel) card w = (Pouch.Ok (Some entity), w')
    /\ (forall k, k <> String.append CardStore.CARD_PREFIX id ->
                  k <> String.append CardStore.PROGRESS_PREFIX id ->
                  CardStore.db w' !! k = CardStore.db w !! k)
    /\ exists w'', CardOps.getCard env id w' = (Pouch.Ok entity, w'').
Proof.
  intros Hnf Hid Hne Hc Hbc Hp Hbp c' p' entity.
  destruct (updateCard_effect env Hnf fuel id card dc w Hc)
    as (w1 & Hrun1 & Hdb1 & Hreads1).
  assert (Hp1 : CardStore.db w1 !! String.append CardStore.PROGRESS_PREFIX id
                = Some dp).
  { rewrite Hdb1. destruct (CardOps.card_keys card); [exact Hp|].
    rewrite lookup_insert_ne; [exact Hp | apply card_progress_ids_differ]. }
  destruct (updateProgress_effect env Hnf fuel id
              (match CardStore.pc_progress (CardOps.in_card card) with
               | Some u => u
               | None => CardStore.mkPartialProgress None None
               end) dp p w1 Hp1 Hbp) as (w2 & Hrun2 & Hdb2).
  fold p' in Hrun2, Hdb2.
  assert (Hcard' : match CardOps.card_keys card with
                   | O => CardOps.merge_card (Pouch.body dc) card
                   | S _ => CardOps.set_modified (Pouch.nowAt env (CardStore.reads w))
                              (CardOps.merge_card (Pouch.body dc) card)
                   end = Pouch.BCard c').
  { rewrite Hbc. apply merged_is_updated. }
  rewrite Hcard' in Hrun1.
  exists w2. split; [|split].
  - unfold CardOps.putCard. rewrite Hid, (eqb_empty_false _ Hne).
    unfold CardStore.bind at 1. rewrite Hrun1.
    unfold CardStore.bind at 1. rewrite Hrun2.
    unfold CardStore.ret, CardStore.mergeRecords, entity.
    now rewrite stripCardPrefix_append.
  - intros k Hk1 Hk2. rewrite Hdb2.
    assert (Hk : CardStore.db w1 !! k = CardStore.db w !! k).
    { rewrite Hdb1. destruct (CardOps.card_keys card); [reflexivity|].
      now rewrite lookup_insert_ne. }
    destruct (same_progress p' p); [exact Hk|].
    now rewrite lookup_insert_ne.
  - assert (Hc2 : exists dc2, CardStore.db w2 !! String.append CardStore.CARD_PREFIX id
                              = Some dc2 /\ Pouch.body dc2 = Pouch.BCard c').
    { assert (Hc1 : exists dc1, CardStore.db w1 !! String.append CardStore.CARD_PREFIX id
                                = Some dc1 /\ Pouch.body dc1 = Pouch.BCard c').
      { rewrite Hdb1. rewrite Hbc in Hcard'.
        destruct (CardOps.card_keys card) eqn:Hkeys.
        - exists dc. split; [exact Hc|]. rewrite Hbc. f_equal.
          unfold c', updated_card. rewrite Hkeys.
          unfold CardOps.card_keys in Hkeys.
          destruct (CardStore.pc_question (CardOps.in_card card)); [discriminate|].
          destruct (CardStore.pc_answer (CardOps.in_card card)); [discriminate|].
          destruct (CardOps.in_created card); [discriminate|].
          now destruct c.
        - rewrite lookup_insert_eq. eexists. split; [reflexivity|].
          cbn [Pouch.body]. rewrite Hbc. exact Hcard'. }
      destruct Hc1 as (dc1 & Hlk1 & Hb1). rewrite Hdb2.
      destruct (same_progress p' p); [eauto|].
      rewrite lookup_insert_ne
        by (intros E; symmetry in E; now apply card_progress_ids_differ in E).
      eauto. }
    assert (Hp2 : exists dp2, CardStore.db w2 !! String.append CardStore.PROGRESS_PREFIX id
                              = Some dp2 /\ Pouch.body dp2 = Pouch.BProgress p').
    { rewrite Hdb2. destruct (same_progress p' p) eqn:Hsame.
      - apply same_progress_eq in Hsame. exists dp. rewrite Hsame. auto.
      - rewrite lookup_insert_eq. eauto. }
    destruct Hc2 as (dc2 & Hlk2 & Hb2). destruct Hp2 as (dp2 & Hlp2 & Hbp2).
    destruct (getCard_present env id dc2 dp2 w2 Hlk2 Hlp2 (Hnf _) (Hnf _))
      as (w3 & Hget & _).
    exists w3. rewrite Hget, Hb2, Hbp2.
    unfold CardStore.mergeRecords, entity. now rewrite stripCardPrefix_append.
Qed.

Lemma putCard_then_getCard_witness :
  exists w' w'',
    CardOps.putCard env_quiet 1
      (CardOps.mkCardInput
         (CardStore.mkPartialCard (Some "363z4we8007"%string) None
            (Some "A2"%string)
            (Some (CardStore.mkPartialProgress (Some 1) (Some 1700000000000))))
         None None)
      after_create
    = (Pouch.Ok (Some (CardStore.mkCardView "363z4we8007"
                         (Pouch.BCard
                            (Pouch.mkCard "Q" "A2" 1700000000000 1700000000000))
                         (CardStore.mkProgressView (Pouch.Num 1)
                            (Some 1700000000000)))), w')
    /\ CardOps.getCard env_quiet "363z4we8007" w'
       = (Pouch.Ok (CardStore.mkCardView "363z4we8007"
                      (Pouch.BCard
                         (Pouch.mkCard "Q" "A2" 1700000000000 1700000000000))
                      (CardStore.mkProgressView (Pouch.Num 1)
                         (Some 1700000000000))), w'').
Proof.
  destruct (putCard_then_getCard env_quiet 0
              (CardOps.mkCardInput
                 (CardStore.mkPartialCard (Some "363z4we8007"%string) None
                    (Some "A2"%string)
                    (Some (CardStore.mkPartialProgress (Some 1)
                             (Some 1700000000000))))
                 None None)
              "363z4we8007"
              (Pouch.mkStored 1 (Pouch.BCard card_QA) [])
              (Pouch.mkStored 2 (Pouch.BProgress progress_new) [])
              card_QA progress_new after_create)
    as (w' & Hput & _ & w'' & Hget).
  - reflexivity.
  - reflexivity.
  - discriminate.
  - vm_compute. reflexivity.
  - reflexivity.
  - vm_compute. reflexivity.
  - reflexivity.
  - exists w', w''. split; [exact Hput | exact Hget].
Defined.

Section MissingHalves.
Import Pouch CardStore CardOps.
Variable env : Env.

Lemma updateProgress_missing fuel id update w :
  db w !! String.append PROGRESS_PREFIX id = None ->
  faultAt env (requests w) = None ->
  _updateProgress env (S fuel) id update w = (Throw not_found, next_request w).
Proof.
  intros Hlk Hf. unfold _updateProgress. unfold bind at 1.
  rewrite (upsert_declined env fuel _ _ None w None (next_request w)).
  - reflexivity.
  - now apply upsert_get_missing.
  - reflexivity.
Qed.

Lemma db_get_present id d w :
  db w !! id = Some d -> faultAt env (requests w) = None ->
  db_get env id w = (Ok d, next_request w).
Proof.
  intros Hlk Hf. unfold db_get, request. rewrite Hf.
  cbn [db next_request]. now rewrite Hlk.
Qed.

Lemma db_get_missing id w :
  db w !! id = None -> faultAt env (requests w) = None ->
  db_get env id w = (Throw missing404, next_request w).
Proof.
  intros Hlk Hf. unfold db_get, request. rewrite Hf.
  cbn [db next_request]. now rewrite Hlk.
Qed.

Lemma db_get_db id w : db (snd (db_get env id w)) = db w.
Proof.
  unfold db_get, request. destruct (faultAt env (requests w)); [reflexivity|].
  cbn [db next_request]. now destruct (db w !! id).
Qed.

Lemma db_get_sound id d w w' :
  db_get env id w = (Ok d, w') -> db w !! id = Some d.
Proof.
  unfold db_get, request. destruct (faultAt env (requests w)); [discriminate|].
  cbn [db next_request]. destruct (db w !! id); [|discriminate].
  now intros [= -> _].
Qed.

End MissingHalves.

(** X17.  An update ([putCard] with an id) is not atomic: when the Card
    document exists but the Progress document does not, and at least one
    field of the card is given, the call rejects with status 404 after the
    Card document has been rewritten with the new fields. *)
Theorem putCard_missing_progress
    (env : Pouch.Env) (fuel : nat) (card : CardOps.CardInput) (id : string)
    (dc : Pouch.Stored) (c : Pouch.CardRecord) (w : CardStore.Store) :
  (forall n, Pouch.faultAt env n = None) ->
  CardStore.pc_id (CardOps.in_card card) = Some id ->
  id <> EmptyString ->
  CardOps.card_keys card <> 0%nat ->
  CardStore.db w !! String.append CardStore.CARD_PREFIX id = Some dc ->
  Pouch.body dc = Pouch.BCard c ->
  CardStore.db w !! String.append CardStore.PROGRESS_PREFIX id = None ->
  exists w',
    CardOps.putCard env (S fuel) card w = (Pouch.Throw CardOps.not_found, w')
    /\ CardStore.db w'
       = <[String.append CardStore.CARD_PREFIX id :=
             Pouch.mkStored (S (S (CardStore.requests w)))
               (Pouch.BCard
                  (updated_card c card (Pouch.nowAt env (CardStore.reads w))))
               (Pouch.conflicts dc)]> (CardStore.db w).
Proof.
  intros Hnf Hid Hne Hkeys Hc Hbc Hp.
  destruct (updateCard_effect env Hnf fuel id card dc w Hc)
    as (w1 & Hrun1 & Hdb1 & _).
  destruct (CardOps.card_keys card) as [|n] eqn:Hk; [contradiction|].
  assert (Hp1 : CardStore.db w1 !! String.append CardStore.PROGRESS_PREFIX id = None).
  { rewrite Hdb1, lookup_insert_ne; [exact Hp | apply card_progress_ids_differ]. }
  exists (CardStore.next_request w1). split.
  - unfold CardOps.putCard. rewrite Hid, (eqb_empty_false _ Hne).
    unfold CardStore.bind at 1. rewrite Hrun1.
    unfold CardStore.bind at 1.
    now rewrite (updateProgress_missing env fuel id _ w1 Hp1 (Hnf _)).
  - cbn [CardStore.db CardStore.next_request]. rewrite Hdb1, Hbc.
    unfold updated_card. rewrite Hk. reflexivity.
Qed.

Lemma putCard_missing_progress_witness :
  exists w',
    CardOps.putCard env_quiet 1
      (CardOps.mkCardInput
         (CardStore.mkPartialCard (Some "0abc"%string) (Some "Q2"%string) None None)
         None None)
      conflicted_store
    = (Pouch.Throw CardOps.not_found, w')
    /\ CardStore.db w' !! "card-0abc"%string
       = Some (Pouch.mkStored 2
                 (Pouch.BCard (Pouch.mkCard "Q2" "A" 10 1700000000000))
                 [card_doc_2]).
Proof.
  destruct (putCard_missing_progress env_quiet 0
              (CardOps.mkCardInput
                 (CardStore.mkPartialCard (Some "0abc"%string) (Some "Q2"%string)
                    None None)
                 None None)
              "0abc" (Pouch.mkStored 6 card_doc_1 [card_doc_2])
              (Pouch.mkCard "Q" "A" 10 10) conflicted_store)
    as (w' & Hrun & Hdb).
  - reflexivity.
  - reflexivity.
  - discriminate.
  - discriminate.
  - vm_compute. reflexivity.
  - reflexivity.
  - vm_compute. reflexivity.
  - exists w'. split; [exact Hrun|]. rewrite Hdb. vm_compute. reflexivity.
Defined.

(** X18.  With nothing failing, [getCard] resolves exactly when both the
    Card and the Progress document of the id exist, with the merged
    entity; otherwise it rejects with an error of status 404 (the reason
    of that error, [missing] or [deleted], is not part of the statement).
    It never changes a document. *)
Theorem getCard_outcome
    (env : Pouch.Env) (id : string) (w : CardStore.Store) :
  (forall n, Pouch.faultAt env n = None) ->
  exists w',
    CardStore.db w' = CardStore.db w
    /\ match CardStore.db w !! String.append CardStore.CARD_PREFIX id,
             CardStore.db w !! String.append CardStore.PROGRESS_PREFIX id with
       | Some dc, Some dp =>
           CardOps.getCard env id w
           = (Pouch.Ok (CardStore.mergeRecords
                          (String.append CardStore.CARD_PREFIX id)
                          (Pouch.body dc) (Pouch.body dp)), w')
       | _, _ =>
           exists err,
             CardOps.getCard env id w = (Pouch.Throw err, w')
             /\ Pouch.status err = Some 404
       end.
Proof.
  intros Hnf. unfold CardOps.getCard, CardStore.bind.
  destruct (CardStore.db w !! String.append CardStore.CARD_PREFIX id) as [dc|] eqn:Hc.
  - rewrite (db_get_present env _ dc w Hc (Hnf _)).
    destruct (CardStore.db w !! String.append CardStore.PROGRESS_PREFIX id)
      as [dp|] eqn:Hp.
    + rewrite (db_get_present env _ dp (CardStore.next_request w) Hp (Hnf _)).
      eexists. split; [|reflexivity]. reflexivity.
    + rewrite (db_get_missing env _ (CardStore.next_request w) Hp (Hnf _)).
      eexists. split; [|eexists; split; reflexivity]. reflexivity.
  - rewrite (db_get_missing env _ w Hc (Hnf _)).
    eexists. split;
      [|destruct (CardStore.db w !! String.append CardStore.PROGRESS_PREFIX id);
        eexists; split; reflexivity].
    reflexivity.
Qed.

Lemma getCard_outcome_witness :
  exists w' err,
    CardOps.getCard env_quiet "0abc" conflicted_store = (Pouch.Throw err, w')
    /\ Pouch.status err = Some 404.
Proof.
  destruct (getCard_outcome env_quiet "0abc" conflicted_store) as (w' & _ & Hrun).
  - reflexivity.
  - exists w'. exact Hrun.
Defined.

(** X19.  [hasProgressRecord] never rejects and never changes a document.
    It answers [true] only when the Progress document of the id exists;
    when the read fails for any other reason it answers [false] although
    the document exists. *)
Theorem hasProgressRecord_answers
    (env : Pouch.Env) (id : string) (w : CardStore.Store) :
  exists w',
    CardStore.db w' = CardStore.db w
    /\ CardOps.hasProgressRecord env id w
       = (Pouch.Ok
            (match Pouch.faultAt env (CardStore.requests w) with
             | Some _ => false
             | None =>
                 bool_decide
                   (is_Some (CardStore.db w
                               !! String.append CardStore.PROGRESS_PREFIX id))
             end), w').
Proof.
  unfold CardOps.hasProgressRecord, CardStore.try_catch, CardStore.bind,
    CardStore.db_get, CardStore.request, CardStore.ret.
  destruct (Pouch.faultAt env (CardStore.requests w)).
  - eexists. split; [|reflexivity]. reflexivity.
  - cbn [CardStore.db CardStore.next_request].
    destruct (CardStore.db w !! String.append CardStore.PROGRESS_PREFIX id).
    + eexists. split; [|reflexivity]. reflexivity.
    + eexists. split; [|reflexivity]. reflexivity.
Qed.

(** X20.  [deleteProgressRecord] never rejects, whatever fails.  It never
    changes a document other than the one named, and with nothing failing
    the document named is gone afterwards. *)
Theorem deleteProgressRecord_swallows
    (env : Pouch.Env) (progressId : string) (w : CardStore.Store) :
  exists w',
    CardOps.deleteProgressRecord env progressId w = (Pouch.Ok tt, w')
    /\ (forall k, k <> progressId ->
                  CardStore.db w' !! k = CardStore.db w !! k)
    /\ ((forall n, Pouch.faultAt env n = None) ->
        CardStore.db w' !! progressId = None).
Proof.
  unfold CardOps.deleteProgressRecord.
  destruct (CardStore.db_get env progressId w) as [[doc|err] w1] eqn:Hget.
  - pose proof (db_get_db env progressId w) as Hdb1. rewrite Hget in Hdb1.
    cbn [snd] in Hdb1.
    pose proof (db_get_sound env progressId doc w w1 Hget) as Hlk.
    unfold CardStore.try_catch, CardStore.db_remove, CardStore.request,
      CardStore.ret.
    destruct (Pouch.faultAt env (CardStore.requests w1)) eqn:Hf.
    + eexists. split; [reflexivity|].
      cbn [CardStore.db CardStore.next_request]. rewrite Hdb1.
      split; [auto|]. intros Hnf. rewrite Hnf in Hf. discriminate.
    + cbn [CardStore.db CardStore.next_request]. rewrite Hdb1, Hlk.
      rewrite Nat.eqb_refl. eexists. split; [reflexivity|].
      unfold CardStore.with_db. cbn [CardStore.db CardStore.next_request].
      rewrite Hdb1. split.
      * intros k Hk. now rewrite lookup_delete_ne.
      * intros _. apply lookup_delete_eq.
  - pose proof (db_get_db env progressId w) as Hdb1. rewrite Hget in Hdb1.
    cbn [snd] in Hdb1.
    eexists. split; [reflexivity|]. rewrite Hdb1. split; [auto|].
    intros Hnf. revert Hget. unfold CardStore.db_get, CardStore.request.
    rewrite Hnf. cbn [CardStore.db CardStore.next_request].
    destruct (CardStore.db w !! progressId); [discriminate | reflexivity].
Qed.

Section Orphans.
Import Pouch CardStore CardOps.
Variable env : Env.
Hypothesis no_faults : forall n, faultAt env n = None.

Lemma units_below_HIGH (s : string) : units_leb (units s) HIGH = true.
Proof.
  destruct s as [|c s]; [reflexivity|].
  unfold units, HIGH. cbn [list_ascii_of_string List.map units_leb].
  pose proof (N_ascii_bounded c) as Hc.
  destruct (N.ltb_spec (N_of_ascii c) 65520); [reflexivity | lia].
Qed.

(** The ids of a range [p .. p + U+FFF0] are the ids that start with
    [p]. *)
Lemma in_range_startsWith (p id : string) :
  in_range (units p) (units p ++ HIGH) id = JS.startsWith p id.
Proof.
  unfold in_range, JS.startsWith. revert id.
  induction p as [|a p IH]; intros id.
  - cbn [units list_ascii_of_string List.map units_leb app andb].
    rewrite units_below_HIGH. now destruct id.
  - destruct id as [|b id]; [reflexivity|].
    unfold units in *.
    cbn [list_ascii_of_string List.map units_leb app String.prefix].
    destruct (Ascii.ascii_dec a b) as [<- | Hne].
    + rewrite N.ltb_irrefl, N.eqb_refl. apply IH.
    + assert (Hn : N_of_ascii a <> N_of_ascii b).
      { intros E. apply Hne.
        rewrite <- (ascii_N_embedding a), <- (ascii_N_embedding b).
        now f_equal. }
      destruct (N.ltb_spec (N_of_ascii a) (N_of_ascii b)) as [Hlt | Hge].
      * destruct (N.ltb_spec (N_of_ascii b) (N_of_ascii a)); [lia|].
        destruct (N.eqb_spec (N_of_ascii b) (N_of_ascii a)); [congruence|].
        reflexivity.
      * destruct (N.eqb_spec (N_of_ascii a) (N_of_ascii b)); [contradiction|].
        reflexivity.
Qed.

Lemma in_range_prefix (p id : string) :
  in_range (units p) (units p ++ HIGH) id = true
  <-> exists y, id = String.append p y.
Proof.
  rewrite in_range_startsWith. split.
  - intros H. apply startsWith_split in H. eauto.
  - intros (y & ->). apply startsWith_append.
Qed.

#[local] Instance id_le_total : Total id_le.
Proof. intros a b. apply String.leb_total. Qed.

#[local] Instance id_le_trans : Transitive id_le.
Proof. intros a b c. apply string_leb_trans. Qed.

Lemma elem_of_List_filter {A} (f : A -> bool) (l : list A) (x : A) :
  x ∈ List.filter f l <-> x ∈ l /\ f x = true.
Proof. now rewrite !list_elem_of_In, filter_In. Qed.

Lemma elem_of_docs_in_range db startkey endkey id d :
  (id, d) ∈ docs_in_range db startkey endkey
  <-> db !! id = Some d /\ in_range startkey endkey id = true.
Proof.
  unfold docs_in_range. rewrite merge_sort_Permutation.
  rewrite elem_of_List_filter, elem_of_map_to_list. cbn [fst]. tauto.
Qed.

Lemma docs_in_range_sorted db startkey endkey :
  StronglySorted id_le (docs_in_range db startkey endkey).
Proof. unfold docs_in_range. apply (StronglySorted_merge_sort id_le). Qed.

Lemma docs_in_range_NoDup db startkey endkey :
  NoDup (fst <$> docs_in_range db startkey endkey).
Proof.
  unfold docs_in_range. rewrite merge_sort_Permutation.
  pose proof (NoDup_fst_map_to_list db) as Hnd.
  induction (map_to_list db) as [|x l IH]; [constructor|].
  rewrite fmap_cons in Hnd. apply NoDup_cons in Hnd as [Hnotin Hnd].
  cbn [List.filter]. destruct (in_range startkey endkey (fst x)); [|auto].
  rewrite fmap_cons. apply NoDup_cons. split; [|auto].
  intros Hin. apply Hnotin.
  apply list_elem_of_fmap in Hin as (y & Hy & Hin).
  apply elem_of_List_filter in Hin as [Hin _].
  apply list_elem_of_fmap. eauto.
Qed.

(** With nothing failing, the loop keeps the rows whose other half is
    absent, in their order, and changes no document. *)
Lemma orphans_among_filter other rows w :
  exists w',
    orphans_among env other rows w
    = (Ok (List.filter (fun row => bool_decide (db w !! other (fst row) = None))
             rows), w')
    /\ db w' = db w.
Proof.
  revert w. induction rows as [|row rows IH]; intros w.
  - exists w. split; reflexivity.
  - cbn [orphans_among List.filter]. unfold bind at 1.
    unfold try_catch, bind at 1, db_get, request, ret.
    rewrite no_faults. cbn [db next_request].
    destruct (IH (next_request w)) as (w' & Hrun & Hdb).
    cbn [db next_request] in Hrun, Hdb.
    destruct (db w !! other (fst row)) eqn:Hlk.
    + unfold bind. rewrite Hrun. rewrite bool_decide_eq_false_2 by discriminate.
      exists w'. split; [reflexivity | exact Hdb].
    + unfold bind. rewrite Hrun. rewrite bool_decide_eq_true_2 by reflexivity.
      exists w'. split; [reflexivity | exact Hdb].
Qed.

Lemma append_cancel_l (p x y : string) :
  String.append p x = String.append p y -> x = y.
Proof.
  induction p as [|c p IH]; [now rewrite !append_empty|].
  rewrite !append_cons. intros [= H]. auto.
Qed.

Lemma stripProgressPrefix_append (x : string) :
  stripProgressPrefix (String.append PROGRESS_PREFIX x) = x.
Proof. unfold stripProgressPrefix. now rewrite substr_append. Qed.

Lemma orphaned_listing (p q : string) (strip : string -> string) w :
  (forall x, strip (String.append p x) = x) ->
  exists orphans w',
    (rows <- allDocs env (units p) (units p ++ HIGH) ;;
     orphans_among env (fun id => String.append q (strip id)) rows) w
    = (Ok orphans, w')
    /\ db w' = db w
    /\ (forall id d,
          (id, d) ∈ orphans
          <-> exists x, id = String.append p x
                        /\ db w !! id = Some d
                        /\ db w !! String.append q x = None)
    /\ StronglySorted id_le orphans.
Proof.
  intros Hstrip. unfold bind, allDocs, request. rewrite no_faults.
  destruct (orphans_among_filter (fun id => String.append q (strip id))
              (docs_in_range (db (next_request w)) (units p) (units p ++ HIGH))
              (next_request w)) as (w' & Hrun & Hdb).
  rewrite Hrun. cbn [db next_request] in *.
  eexists _, w'. split; [reflexivity|]. split; [exact Hdb|]. split.
  - intros id d. rewrite elem_of_List_filter, bool_decide_eq_true.
    rewrite elem_of_docs_in_range, in_range_prefix. cbn [fst]. split.
    + intros ((Hlk & x & ->) & Hnone). exists x.
      rewrite Hstrip in Hnone. auto.
    + intros (x & -> & Hlk & Hnone). rewrite Hstrip. eauto.
  - apply StronglySorted_filter, docs_in_range_sorted.
Qed.

Lemma getOrphanedCards_listing w :
  exists orphans w',
    getOrphanedCards env w = (Ok orphans, w')
    /\ db w' = db w
    /\ (forall id d,
          (id, d) ∈ orphans
          <-> exists x, id = String.append CARD_PREFIX x
                        /\ db w !! id = Some d
                        /\ db w !! String.append PROGRESS_PREFIX x = None)
    /\ StronglySorted id_le orphans.
Proof. apply (orphaned_listing CARD_PREFIX PROGRESS_PREFIX), stripCardPrefix_append. Qed.

Lemma addProgressRecordForCard_effect cardId w :
  db w !! String.append PROGRESS_PREFIX (stripCardPrefix cardId) = None ->
  exists w',
    addProgressRecordForCard env cardId w = (Ok tt, w')
    /\ db w' = <[String.append PROGRESS_PREFIX (stripCardPrefix cardId) :=
                   mkStored (S (requests w)) (BProgress (mkProgress 0 None)) []]>
                 (db w).
Proof.
  intros Hlk. unfold addProgressRecordForCard, bind, db_put, request, ret.
  rewrite no_faults. cbn [db next_request requests]. rewrite Hlk.
  eexists. split; reflexivity.
Qed.

End Orphans.

(** X21.  With nothing failing, [getOrphanedCards] returns, in ascending
    order of id, exactly the documents whose id starts with [card-] and
    for which no Progress document of the same entity exists.  It changes
    no document.  (Ids are strings of code units below 256, all of which
    sort before the U+FFF0 that closes the range of the source.) *)
Theorem getOrphanedCards_lists_orphans
    (env : Pouch.Env) (w : CardStore.Store) :
  (forall n, Pouch.faultAt env n = None) ->
  exists orphans w',
    CardOps.getOrphanedCards env w = (Pouch.Ok orphans, w')
    /\ CardStore.db w' = CardStore.db w
    /\ (forall id d,
          (id, d) ∈ orphans
          <-> exists x, id = String.append CardStore.CARD_PREFIX x
                        /\ CardStore.db w !! id = Some d
                        /\ CardStore.db w
                             !! String.append CardStore.PROGRESS_PREFIX x = None)
    /\ StronglySorted CardOps.id_le orphans.
Proof.
  intros Hnf.
  apply (orphaned_listing env Hnf CardStore.CARD_PREFIX CardStore.PROGRESS_PREFIX),
    stripCardPrefix_append.
Qed.

Lemma getOrphanedCards_lists_orphans_witness :
  exists orphans w',
    CardOps.getOrphanedCards env_quiet conflicted_store = (Pouch.Ok orphans, w')
    /\ ("card-0abc"%string, Pouch.mkStored 6 card_doc_1 [card_doc_2]) ∈ orphans.
Proof.
  destruct (getOrphanedCards_lists_orphans env_quiet conflicted_store)
    as (orphans & w' & Hrun & _ & Hin & _).
  - reflexivity.
  - exists orphans, w'. split; [exact Hrun|]. apply Hin.
    exists "0abc"%string. repeat split; vm_compute; reflexivity.
Defined.

(** X22.  With nothing failing, [getOrphanedProgress] returns, in
    ascending order of id, exactly the documents whose id starts with
    [progress-] and for which no Card document of the same entity exists.
    It changes no document.  (Ids are strings of code units below 256,
    all of which sort before the U+FFF0 that closes the range of the
    source.) *)
Theorem getOrphanedProgress_lists_orphans
    (env : Pouch.Env) (w : CardStore.Store) :
  (forall n, Pouch.faultAt env n = None) ->
  exists orphans w',
    CardOps.getOrphanedProgress env w = (Pouch.Ok orphans, w')
    /\ CardStore.db w' = CardStore.db w
    /\ (forall id d,
          (id, d) ∈ orphans
          <-> exists x, id = String.append CardStore.PROGRESS_PREFIX x
                        /\ CardStore.db w !! id = Some d
                        /\ CardStore.db w
                             !! String.append CardStore.CARD_PREFIX x = None)
    /\ StronglySorted CardOps.id_le orphans.
Proof.
  intros Hnf.
  apply (orphaned_listing env Hnf CardStore.PROGRESS_PREFIX CardStore.CARD_PREFIX),
    stripProgressPrefix_append.
Qed.

Lemma getOrphanedProgress_lists_orphans_witness :
  exists orphans w',
    CardOps.getOrphanedProgress env_quiet conflicted_store = (Pouch.Ok orphans, w')
    /\ forall d, ("card-0abc"%string, d) ∉ orphans.
Proof.
  destruct (getOrphanedProgress_lists_orphans env_quiet conflicted_store)
    as (orphans & w' & Hrun & _ & Hin & _).
  - reflexivity.
  - exists orphans, w'. split; [exact Hrun|]. intros d Hd.
    apply Hin in Hd as (x & Hx & _). discriminate Hx.
Defined.

(** X23.  Repairing an orphaned card: with nothing failing,
    [addProgressRecordForCard] for a Card document that has no Progress
    document creates one of level 0 that was never reviewed and changes
    nothing else; afterwards [getOrphanedCards] lists the other orphans
    and no longer this card, and [getCard] returns the entity. *)
Theorem addProgressRecordForCard_repairs
    (env : Pouch.Env) (x : string) (dc : Pouch.Stored) (w : CardStore.Store) :
  (forall n, Pouch.faultAt env n = None) ->
  CardStore.db w !! String.append CardStore.CARD_PREFIX x = Some dc ->
  CardStore.db w !! String.append CardStore.PROGRESS_PREFIX x = None ->
  exists w1 before w0 after w2 w3,
    CardOps.addProgressRecordForCard env (String.append CardStore.CARD_PREFIX x) w
    = (Pouch.Ok tt, w1)
    /\ (forall k, k <> String.append CardStore.PROGRESS_PREFIX x ->
                  CardStore.db w1 !! k = CardStore.db w !! k)
    /\ CardOps.getOrphanedCards env w = (Pouch.Ok before, w0)
    /\ CardOps.getOrphanedCards env w1 = (Pouch.Ok after, w2)
    /\ (forall id d,
          (id, d) ∈ after
          <-> (id, d) ∈ before /\ id <> String.append CardStore.CARD_PREFIX x)
    /\ CardOps.getCard env x w1
       = (Pouch.Ok (CardStore.mkCardView x (Pouch.body dc)
                      (CardStore.mkProgressView (Pouch.Num 0) None)), w3).
Proof.
  intros Hnf Hc Hp.
  destruct (addProgressRecordForCard_effect env Hnf
              (String.append CardStore.CARD_PREFIX x) w) as (w1 & Hadd & Hdb1).
  { now rewrite stripCardPrefix_append. }
  rewrite stripCardPrefix_append in Hdb1.
  destruct (getOrphanedCards_listing env Hnf w) as (before & w0 & Hb & _ & Hbin & _).
  destruct (getOrphanedCards_listing env Hnf w1) as (after & w2 & Ha & _ & Hain & _).
  assert (Hc1 : CardStore.db w1 !! String.append CardStore.CARD_PREFIX x = Some dc).
  { rewrite Hdb1, lookup_insert_ne; [exact Hc|].
    intros E. symmetry in E. now apply card_progress_ids_differ in E. }
  assert (Hp1 : CardStore.db w1 !! String.append CardStore.PROGRESS_PREFIX x
                = Some (Pouch.mkStored (S (CardStore.requests w))
                          (Pouch.BProgress (Pouch.mkProgress 0 None)) [])).
  { rewrite Hdb1. apply lookup_insert_eq. }
  destruct (getCard_present env x dc _ w1 Hc1 Hp1 (Hnf _) (Hnf _)) as (w3 & Hget & _).
  exists w1, before, w0, after, w2, w3.
  split; [exact Hadd|]. split.
  { intros k Hk. rewrite Hdb1. now rewrite lookup_insert_ne. }
  split; [exact Hb|]. split; [exact Ha|]. split.
  - intros id d. rewrite Hain, Hbin. split.
    + intros (y & -> & Hlk & Hnone). split.
      * exists y. split; [reflexivity|].
        rewrite Hdb1 in Hlk, Hnone.
        rewrite lookup_insert_ne in Hlk by apply progress_card_ids_differ.
        split; [exact Hlk|].
        destruct (decide (String.append CardStore.PROGRESS_PREFIX x
                          = String.append CardStore.PROGRESS_PREFIX y)) as [E|E].
        -- rewrite E, lookup_insert_eq in Hnone. discriminate.
        -- now rewrite lookup_insert_ne in Hnone.
      * intros E. apply append_cancel_l in E. subst y.
        rewrite Hp1 in Hnone. discriminate.
    + intros ((y & -> & Hlk & Hnone) & Hne).
      exists y. split; [reflexivity|]. rewrite Hdb1. split.
      * rewrite lookup_insert_ne by apply progress_card_ids_differ. exact Hlk.
      * rewrite lookup_insert_ne; [exact Hnone|]. intros E.
        apply append_cancel_l in E. now subst y.
  - rewrite Hget. unfold CardStore.mergeRecords.
    now rewrite stripCardPrefix_append.
Qed.

Lemma addProgressRecordForCard_repairs_witness :
  exists w1 w3,
    CardOps.addProgressRecordForCard env_quiet "card-0abc" conflicted_store
    = (Pouch.Ok tt, w1)
    /\ CardOps.getCard env_quiet "0abc" w1
       = (Pouch.Ok (CardStore.mkCardView "0abc" card_doc_1
                      (CardStore.mkProgressView (Pouch.Num 0) None)), w3).
Proof.
  destruct (addProgressRecordForCard_repairs env_quiet "0abc"
              (Pouch.mkStored 6 card_doc_1 [card_doc_2]) conflicted_store)
    as (w1 & before & w0 & after & w2 & w3 & Hadd & _ & _ & _ & _ & Hget).
  - reflexivity.
  - vm_compute. reflexivity.
  - vm_compute. reflexivity.
  - exists w1, w3. split; [exact Hadd | exact Hget].
Defined.

Section ByKey.
Import Pouch CardStore CardOps.

Lemma filter_none {A} (f : A -> bool) (l : list A) :
  (forall x, x ∈ l -> f x = false) -> List.filter f l = [].
Proof.
  induction l as [|x l IH]; intros H; [reflexivity|].
  cbn. rewrite (H x) by apply list_elem_of_here.
  apply IH. intros y Hy. apply H. now apply list_elem_of_further.
Qed.

(** Among rows of distinct documents, those of one document are one row
    at most. *)
Lemma filter_docid_unique (l : list Row) (row : Row) :
  NoDup (r_docid <$> l) -> row ∈ l ->
  List.filter (fun r => String.eqb (r_docid r) (r_docid row)) l = [row].
Proof.
  induction l as [|x l IH]; intros Hnd Hin; [inversion Hin|].
  rewrite fmap_cons in Hnd. apply NoDup_cons in Hnd as [Hnotin Hnd].
  cbn [List.filter]. apply elem_of_cons in Hin as [-> | Hin].
  - rewrite String.eqb_refl. f_equal. apply filter_none.
    intros y Hy. apply String.eqb_neq. intros E. apply Hnotin.
    rewrite <- E. apply list_elem_of_fmap. eauto.
  - destruct (String.eqb_spec (r_docid x) (r_docid row)) as [E|E].
    + exfalso. apply Hnotin. rewrite E. apply list_elem_of_fmap. eauto.
    + now apply IH.
Qed.

Lemma cardMapFunction_one id d : (List.length (cardMapFunction id d) <= 1)%nat.
Proof. unfold cardMapFunction. destruct (negb _); cbn; lia. Qed.

(** The rows of the "cards" view under the key of one entity. *)
Lemma cards_rows_with_key db x :
  List.filter (fun r => match r_key r with
                        | KStr s => String.eqb s (String.append PROGRESS_PREFIX x)
                        | _ => false
                        end) (view_rows cardMapFunction db)
  = match db !! String.append PROGRESS_PREFIX x with
    | Some dp =>
        [mkRow (String.append PROGRESS_PREFIX x)
           (KStr (String.append PROGRESS_PREFIX x))
           (mkEmitted (String.append CARD_PREFIX x)
              (doc_level (body dp)) (doc_reviewed (body dp)))]
    | None => []
    end.
Proof.
  assert (Hkey : forall r, r ∈ view_rows cardMapFunction db ->
                           r_key r = KStr (r_docid r)).
  { intros r Hr. apply elem_of_view_rows in Hr as (d & _ & Hemit).
    now apply cardMapFunction_emits in Hemit as (y & _ & Hk & _). }
  destruct (db !! String.append PROGRESS_PREFIX x) as [dp|] eqn:Hlk.
  - set (row := mkRow (String.append PROGRESS_PREFIX x)
           (KStr (String.append PROGRESS_PREFIX x))
           (mkEmitted (String.append CARD_PREFIX x)
              (doc_level (body dp)) (doc_reviewed (body dp)))).
    assert (Hrow : row ∈ view_rows cardMapFunction db).
    { apply elem_of_view_rows. exists dp. split; [exact Hlk|].
      apply cardMapFunction_emits. exists x. auto. }
    rewrite <- (filter_docid_unique (view_rows cardMapFunction db) row);
      [|apply view_rows_docids_NoDup, cardMapFunction_one | exact Hrow].
    apply List.filter_ext_in. intros r Hr. apply list_elem_of_In in Hr.
    now rewrite (Hkey r Hr).
  - apply filter_none. intros r Hr. rewrite (Hkey r Hr).
    apply String.eqb_neq. intros E.
    apply elem_of_view_rows in Hr as (d & Hd & _). rewrite E in Hd. congruence.
Qed.

End ByKey.

(** X24.  [getCardsById] returns, in the order of the ids given, the
    entity of every id that has both a Progress and a Card document; ids
    without one of the two are skipped without error, and an id given
    twice is returned twice. *)
Theorem getCardsById_follows_ids
    (db : gmap string Pouch.Stored) (ids : list string) :
  CardOps.getCardsById db ids = omap (entity_of db) ids.
Proof.
  unfold CardOps.getCardsById, CardOps.rows_with_keys.
  induction ids as [|id ids IH]; [reflexivity|].
  cbn [List.map mbind list_bind omap list_omap].
  rewrite omap_app. cbn [mbind] in IH. rewrite IH.
  rewrite cards_rows_with_key. unfold entity_of.
  destruct (db !! String.append CardStore.PROGRESS_PREFIX id) as [dp|];
    [|reflexivity].
  cbn [omap list_omap CardStore.r_value CardStore.e_id CardStore.e_level
         CardStore.e_reviewed].
  rewrite stripCardPrefix_append.
  destruct (db !! String.append CardStore.CARD_PREFIX id); reflexivity.
Qed.

Section Counting.
Import Pouch CardStore CardOps.






End Counting.


Section Reviews.
Import Pouch CardStore CardOps.
Variable env : Env.
Hypothesis no_faults : forall n, faultAt env n = None.

Lemma string_leb_refl (s : string) : String.leb s s = true.
Proof. unfold String.leb. now rewrite string_compare_refl. Qed.

Lemma head_take_1 {A} (l : list A) : head (take 1 l) = head l.
Proof. now destruct l. Qed.

(** The last document of a range is the one with the greatest id. *)
Lemma last_docs_in_range_1 db lo hi id d :
  last (docs_in_range db lo hi) = Some (id, d) ->
  db !! id = Some d /\ in_range lo hi id = true
  /\ forall k, is_Some (db !! k) -> in_range lo hi k = true ->
               String.leb k id = true.
Proof.
  intros Hlast. apply last_Some in Hlast as (l' & Hl).
  assert (Hin : (id, d) ∈ docs_in_range db lo hi).
  { rewrite Hl. apply elem_of_app. right. apply list_elem_of_singleton. reflexivity. }
  apply elem_of_docs_in_range in Hin as [Hlk Hr].
  split; [exact Hlk|]. split; [exact Hr|].
  intros k [dk Hk] Hkr.
  assert (Hkin : (k, dk) ∈ docs_in_range db lo hi)
    by (apply elem_of_docs_in_range; auto).
  pose proof (docs_in_range_sorted db lo hi) as Hsorted.
  rewrite Hl in Hkin, Hsorted. apply elem_of_app in Hkin as [Hkin | Hkin].
  - apply (StronglySorted_app_1_elem_of id_le l' [(id, d)] (k, dk) (id, d) Hsorted Hkin).
    apply list_elem_of_singleton. reflexivity.
  - apply list_elem_of_singleton in Hkin. injection Hkin as -> _.
    apply string_leb_refl.
Qed.

Lemma last_docs_in_range_2 db lo hi id d :
  db !! id = Some d -> in_range lo hi id = true ->
  (forall k, is_Some (db !! k) -> in_range lo hi k = true ->
             String.leb k id = true) ->
  last (docs_in_range db lo hi) = Some (id, d).
Proof.
  intros Hlk Hr Hmax.
  destruct (last (docs_in_range db lo hi)) as [[id' d']|] eqn:Hlast.
  - apply last_docs_in_range_1 in Hlast as (Hlk' & Hr' & Hmax').
    assert (id' = id).
    { apply String.leb_antisym; [apply Hmax | apply Hmax']; eauto. }
    subst id'. congruence.
  - apply last_None in Hlast.
    assert (Hin : (id, d) ∈ docs_in_range db lo hi)
      by (apply elem_of_docs_in_range; auto).
    rewrite Hlast in Hin. inversion Hin.
Qed.

Lemma getReview_latest w :
  _getReview env w
  = (Ok (last (docs_in_range (db w) (units REVIEW_PREFIX) (units REVIEW_PREFIX ++ HIGH))),
     next_request w).
Proof.
  unfold _getReview, bind, allDocs_descending, request, ret.
  rewrite no_faults. cbn [db next_request].
  now rewrite head_take_1, head_reverse.
Qed.

Lemma upsert_created {A} fuel id (diffFun : option Stored -> M (option Body * A))
    w b (a : A) w1 :
  db w !! id = None ->
  diffFun None (next_request w) = (Ok (Some b, a), w1) ->
  db w1 = db w ->
  exists w2,
    upsert env (S fuel) id diffFun w = (Ok (Some a), w2)
    /\ db w2 = <[id := mkStored (S (requests w1)) b []]> (db w).
Proof.
  intros Hlk Hdiff Hdb. cbn [upsert]. unfold bind at 1.
  rewrite (upsert_get_missing env id w Hlk (no_faults _)).
  unfold bind at 1. rewrite Hdiff. cbn [fst snd].
  unfold db_put_rev, request. rewrite no_faults.
  cbn [db next_request requests]. rewrite Hdb, Hlk. cbn [fmap option_fmap option_map].
  eexists. split; [reflexivity|]. cbn. now rewrite Hdb.
Qed.

(** What [putReview] writes: the latest review document is overwritten
    if there is one, and otherwise a document is created under the time
    part of the current time. *)
Lemma putReview_effect fuel review w :
  exists id stored w',
    putReview env (S fuel) review w = (Ok (Some tt), w')
    /\ db w' = <[id := stored]> (db w)
    /\ body stored = BReview review
    /\ in_range (units REVIEW_PREFIX) (units REVIEW_PREFIX ++ HIGH) id = true
    /\ (forall k, is_Some (db w !! k) ->
                  in_range (units REVIEW_PREFIX) (units REVIEW_PREFIX ++ HIGH) k = true ->
                  String.leb k id = true /\ is_Some (db w !! id)).
Proof.
  unfold putReview. unfold bind at 1. rewrite getReview_latest.
  destruct (last (docs_in_range (db w) (units REVIEW_PREFIX) (units REVIEW_PREFIX ++ HIGH)))
    as [[id d]|] eqn:Hlast.
  - apply last_docs_in_range_1 in Hlast as (Hlk & Hr & Hmax).
    unfold bind at 1. unfold ret at 1. cbn [fst].
    destruct (upsert_written env fuel id
                (fun _ => ret (Some (BReview review), tt)) d (next_request w)
                (BReview review) tt (next_request (next_request w)))
      as (w2 & Hrun & Hdb & _); auto.
    exists id, (mkStored (S (requests (next_request (next_request w))))
                  (BReview review) (conflicts d)), w2.
    split; [exact Hrun|]. split; [exact Hdb|]. split; [reflexivity|].
    split; [exact Hr|]. intros k Hk Hkr. split; [now apply Hmax | eauto].
  - apply last_None in Hlast.
    assert (Hnone : forall k, is_Some (db w !! k) ->
                    in_range (units REVIEW_PREFIX) (units REVIEW_PREFIX ++ HIGH) k = true ->
                    False).
    { intros k [dk Hk] Hkr.
      assert (Hin : (k, dk) ∈ docs_in_range (db w) (units REVIEW_PREFIX)
                                (units REVIEW_PREFIX ++ HIGH))
        by (apply elem_of_docs_in_range; auto).
      rewrite Hlast in Hin. inversion Hin. }
    unfold bind at 1. unfold bind at 1. unfold date_now at 1. unfold ret at 1.
    set (id := String.append REVIEW_PREFIX
                 (JS.slice_last 8
                    (String "0"%char
                       (JS.toString36
                          (nowAt env (reads (next_request w)) - IdGen.EPOCH_2016))))).
    assert (Hr : in_range (units REVIEW_PREFIX) (units REVIEW_PREFIX ++ HIGH) id = true).
    { apply in_range_prefix. eexists. reflexivity. }
    assert (Hlk : db (next_read (next_request w)) !! id = None).
    { cbn [db next_read next_request].
      destruct (db w !! id) eqn:E; [|reflexivity].
      exfalso. apply (Hnone id); eauto. }
    destruct (upsert_created fuel id
                (fun _ => ret (Some (BReview review), tt)) (next_read (next_request w))
                (BReview review) tt (next_request (next_read (next_request w))))
      as (w2 & Hrun & Hdb); auto.
    exists id, (mkStored (S (requests (next_request (next_read (next_request w)))))
                  (BReview review) []), w2.
    split; [exact Hrun|]. split; [exact Hdb|]. split; [reflexivity|].
    split; [exact Hr|]. intros k Hk Hkr. exfalso. eauto.
Qed.

End Reviews.

(** X26.  With nothing failing, [putReview] followed by [getReview]
    returns the review that was put.  The call changes no document whose
    id does not start with [review-], and when a document with such an id
    already exists it overwrites the one with the greatest id instead of
    adding a document.  (Ids are strings of code units below 256, all of
    which sort before the U+FFF0 that closes the range of the source.) *)
Theorem putReview_then_getReview
    (env : Pouch.Env) (fuel : nat) (review : Pouch.ReviewRecord)
    (w : CardStore.Store) :
  (forall n, Pouch.faultAt env n = None) ->
  let is_review := JS.startsWith CardStore.REVIEW_PREFIX in
  exists w' w'',
    CardOps.putReview env (S fuel) review w = (Pouch.Ok (Some tt), w')
    /\ CardOps.getReview env w' = (Pouch.Ok (Some (Pouch.BReview review)), w'')
    /\ (forall k, is_review k = false ->
                  CardStore.db w' !! k = CardStore.db w !! k)
    /\ ((exists k, is_review k = true /\ is_Some (CardStore.db w !! k)) ->
        forall k, is_Some (CardStore.db w' !! k) <-> is_Some (CardStore.db w !! k)).
Proof.
  intros Hnf is_review.
  assert (His : forall k,
            is_review k
            = CardOps.in_range (CardOps.units CardStore.REVIEW_PREFIX)
                (CardOps.units CardStore.REVIEW_PREFIX ++ CardOps.HIGH) k)
    by (intros k; symmetry; apply in_range_startsWith).
  destruct (putReview_effect env Hnf fuel review w)
    as (id & stored & w' & Hrun & Hdb & Hbody & Hr & Hmax).
  exists w', (CardStore.next_request w'). split; [exact Hrun|]. split; [|split].
  - unfold CardOps.getReview, CardStore.bind. rewrite (getReview_latest env Hnf).
    rewrite (last_docs_in_range_2 _ _ _ id stored).
    + unfold CardStore.ret. cbn [snd]. now rewrite Hbody.
    + rewrite Hdb. apply lookup_insert_eq.
    + exact Hr.
    + intros k Hk Hkr. destruct (decide (k = id)) as [-> | Hne].
      * apply string_leb_refl.
      * rewrite Hdb, lookup_insert_ne in Hk by congruence. now apply Hmax.
  - intros k Hk. rewrite Hdb. apply lookup_insert_ne. intros ->.
    rewrite His in Hk. congruence.
  - intros (k0 & Hk0 & Hsome) k. rewrite His in Hk0. rewrite Hdb.
    destruct (decide (k = id)) as [-> | Hne].
    + rewrite lookup_insert_eq. split; [|eauto]. intros _. now apply (Hmax k0).
    + now rewrite lookup_insert_ne by congruence.
Qed.

Lemma putReview_then_getReview_witness :
  exists w' w'',
    CardOps.putReview env_quiet 1 review_a conflicted_store
    = (Pouch.Ok (Some tt), w')
    /\ CardOps.getReview env_quiet w'
       = (Pouch.Ok (Some (Pouch.BReview review_a)), w'').
Proof.
  destruct (putReview_then_getReview env_quiet 0 review_a conflicted_store)
    as (w' & w'' & Hput & Hget & _).
  - reflexivity.
  - exists w', w''. split; [exact Hput | exact Hget].
Defined.

Section DeletingReviews.
Import Pouch CardStore CardOps.
Variable env : Env.
Hypothesis no_faults : forall n, faultAt env n = None.

(** Deleting documents at their stored revisions removes them all and
    answers no conflict. *)
Lemma delete_each_all (rows : list (string * nat)) : forall w,
  NoDup (fst <$> rows) ->
  (forall id r, (id, r) ∈ rows -> exists d, db w !! id = Some d /\ rev d = r) ->
  exists w',
    delete_each rows w = (w', false)
    /\ forall k, db w' !! k
                 = if bool_decide (k ∈ fst <$> rows) then None else db w !! k.
Proof.
  unfold delete_each. induction rows as [|[id r] rows IH]; intros w Hnd Hrows.
  - exists w. split; [reflexivity|]. intros k.
    rewrite bool_decide_eq_false_2; [reflexivity | inversion 1].
  - rewrite fmap_cons in Hnd. apply NoDup_cons in Hnd as [Hnotin Hnd].
    cbn [foldl]. destruct (Hrows id r) as (d & Hd & Hrev); [apply list_elem_of_here|].
    rewrite Hd, <- Hrev, Nat.eqb_refl.
    destruct (IH (with_db (delete id) w) Hnd) as (w' & Hrun & Hdb).
    { intros id' r' Hin. destruct (Hrows id' r') as (d' & Hd' & Hrev');
        [now apply list_elem_of_further|].
      exists d'. split; [|exact Hrev']. cbn [db with_db].
      rewrite lookup_delete_ne; [exact Hd'|]. intros ->. apply Hnotin.
      apply list_elem_of_fmap. exists (id', r'). auto. }
    exists w'. split; [exact Hrun|]. intros k. rewrite Hdb. cbn [db with_db].
    rewrite fmap_cons. cbn [fst].
    destruct (decide (k = id)) as [-> | Hne].
    + rewrite (bool_decide_eq_true_2 (id ∈ id :: _)) by apply list_elem_of_here.
      rewrite lookup_delete_eq. now destruct (bool_decide _).
    + rewrite lookup_delete_ne by congruence.
      destruct (bool_decide (k ∈ fst <$> rows)) eqn:E.
      * apply bool_decide_eq_true in E.
        rewrite bool_decide_eq_true_2; [reflexivity | now apply list_elem_of_further].
      * apply bool_decide_eq_false in E.
        rewrite bool_decide_eq_false_2; [reflexivity|].
        intros Hin. apply elem_of_cons in Hin as [? | ?]; contradiction.
Qed.

Lemma deleteReview_effect fuel w :
  exists w',
    deleteReview env (S fuel) w = (Ok (Some tt), w')
    /\ forall k, db w' !! k
                 = if in_range (units REVIEW_PREFIX) (units REVIEW_PREFIX ++ HIGH) k
                   then None else db w !! k.
Proof.
  cbn [deleteReview]. unfold bind at 1. unfold allDocs, request at 1.
  rewrite no_faults. cbn [db next_request].
  set (reviews := docs_in_range (db w) (units REVIEW_PREFIX) (units REVIEW_PREFIX ++ HIGH)).
  assert (Hmem : forall k, k ∈ fst <$> reviews
                 <-> is_Some (db w !! k)
                     /\ in_range (units REVIEW_PREFIX) (units REVIEW_PREFIX ++ HIGH) k = true).
  { intros k. rewrite list_elem_of_fmap. split.
    - intros ([k' d] & -> & Hin). apply elem_of_docs_in_range in Hin as [? ?]. eauto.
    - intros ([d Hd] & Hr). exists (k, d). split; [reflexivity|].
      apply elem_of_docs_in_range. auto. }
  assert (Hkeep : forall k, (if bool_decide (k ∈ fst <$> reviews)
                             then None else db w !! k)
                            = if in_range (units REVIEW_PREFIX)
                                   (units REVIEW_PREFIX ++ HIGH) k
                              then None else db w !! k).
  { intros k. destruct (bool_decide (k ∈ fst <$> reviews)) eqn:E.
    - apply bool_decide_eq_true, Hmem in E as [_ ->]. reflexivity.
    - apply bool_decide_eq_false in E.
      destruct (in_range _ _ k) eqn:Hr; [|reflexivity].
      destruct (db w !! k) eqn:Hk; [|reflexivity].
      exfalso. apply E, Hmem. eauto. }
  destruct reviews as [|r rest] eqn:Hreviews.
  - exists (next_request w). split; [reflexivity|]. intros k.
    rewrite <- Hkeep. cbn [db next_request].
    rewrite bool_decide_eq_false_2; [reflexivity | inversion 1].
  - rewrite <- Hreviews in *. clear Hreviews r rest.
    destruct (delete_each_all (List.map (fun r => (fst r, rev (snd r))) reviews)
                (next_request (next_request w))) as (w' & Hrun & Hdb).
    { rewrite <- list_fmap_compose.
      apply (docs_in_range_NoDup (db w)). }
    { intros id r Hin. apply list_elem_of_fmap in Hin as ([id' d] & Heq & Hin).
      injection Heq as -> ->. apply elem_of_docs_in_range in Hin as [Hd _].
      exists d. auto. }
    exists w'. split.
    + unfold bind, bulk_delete, request. rewrite no_faults, Hrun. reflexivity.
    + intros k. rewrite Hdb, <- Hkeep. rewrite <- list_fmap_compose. reflexivity.
Qed.

End DeletingReviews.

(** X27.  With nothing failing, [deleteReview] removes every document
    whose id starts with [review-] and changes no other document; a
    following [getReview] returns [null].  (Ids are strings of code units
    below 256, all of which sort before the U+FFF0 that closes the range
    of the source.) *)
Theorem deleteReview_clears
    (env : Pouch.Env) (fuel : nat) (w : CardStore.Store) :
  (forall n, Pouch.faultAt env n = None) ->
  let is_review := JS.startsWith CardStore.REVIEW_PREFIX in
  exists w' w'',
    CardOps.deleteReview env (S fuel) w = (Pouch.Ok (Some tt), w')
    /\ (forall k, CardStore.db w' !! k
                  = if is_review k then None else CardStore.db w !! k)
    /\ CardOps.getReview env w' = (Pouch.Ok None, w'').
Proof.
  intros Hnf is_review.
  assert (His : forall k,
            is_review k
            = CardOps.in_range (CardOps.units CardStore.REVIEW_PREFIX)
                (CardOps.units CardStore.REVIEW_PREFIX ++ CardOps.HIGH) k)
    by (intros k; symmetry; apply in_range_startsWith).
  destruct (deleteReview_effect env Hnf fuel w) as (w' & Hrun & Hdb).
  exists w', (CardStore.next_request w'). split; [exact Hrun|].
  split; [intros k; rewrite His; apply Hdb|].
  unfold CardOps.getReview, CardStore.bind. rewrite (getReview_latest env Hnf).
  destruct (last _) as [[id d]|] eqn:Hlast; [|reflexivity].
  apply last_docs_in_range_1 in Hlast as (Hlk & Hr & _).
  rewrite Hdb, Hr in Hlk. discriminate Hlk.
Qed.

Lemma deleteReview_clears_witness :
  exists w' w'',
    CardOps.deleteReview env_quiet 1 conflicted_store = (Pouch.Ok (Some tt), w')
    /\ CardStore.db w' !! "review-0abc"%string = None
    /\ CardOps.getReview env_quiet w' = (Pouch.Ok None, w'').
Proof.
  destruct (deleteReview_clears env_quiet 0 conflicted_store)
    as (w' & w'' & Hrun & Hdb & Hget).
  - reflexivity.
  - exists w', w''. split; [exact Hrun|]. split; [|exact Hget].
    rewrite Hdb. reflexivity.
Defined.

Section Feed.
Import Pouch CardStore CardOps Changes.
Variable env : Env.
Variable tombstones : gset string.

Lemma startsWith_card_progress (x : string) :
  JS.startsWith CARD_PREFIX (String.append PROGRESS_PREFIX x) = false.
Proof. reflexivity. Qed.

(** A change to a Card document whose Progress document is there. *)
Lemma onChange_card x r b dp fs w :
  faultAt env (requests w) = None ->
  db w !! String.append PROGRESS_PREFIX x = Some dp ->
  onChange env tombstones (mkChange (String.append CARD_PREFIX x) r false b) fs w
  = (Ok (if match returnedCards fs !! x with
            | Some e => Nat.eqb (cardRev e) r
            | None => false
            end
         then fs
         else mkFeed (<[x := mkReturned r (Some (rev dp))]> (returnedCards fs))
                (emitted fs ++
                 [CardEvent
                    (mkCardChange x b
                       (Some (parseProgress (doc_level (body dp))
                                (doc_reviewed (body dp))))
                       false)])),
     next_request w).
Proof.
  intros Hf Hlk. unfold onChange, alreadyReturnedCard. cbn [ch_id ch_deleted ch_rev ch_body].
  rewrite startsWith_append, stripCardPrefix_append.
  unfold bind, try_catch, db_get_live, request, ret. rewrite Hf.
  cbn [db next_request]. rewrite Hlk.
  now destruct (match returnedCards fs !! x with
                | Some e => Nat.eqb (cardRev e) r
                | None => false
                end).
Qed.

(** A change to a Progress document whose Card document is there. *)
Lemma onChange_progress x r b dc fs w :
  faultAt env (requests w) = None ->
  db w !! String.append CARD_PREFIX x = Some dc ->
  onChange env tombstones (mkChange (String.append PROGRESS_PREFIX x) r false b) fs w
  = (Ok (if match returnedCards fs !! x with
            | Some e => bool_decide (progressRev e = Some r)
            | None => false
            end
         then fs
         else mkFeed (<[x := mkReturned (rev dc) (Some r)]> (returnedCards fs))
                (emitted fs ++
                 [CardEvent
                    (mkCardChange x (body dc)
                       (Some (parseProgress (doc_level b) (doc_reviewed b)))
                       false)])),
     next_request w).
Proof.
  intros Hf Hlk. unfold onChange, alreadyReturnedCard. cbn [ch_id ch_deleted ch_rev ch_body].
  rewrite startsWith_card_progress, startsWith_append, stripProgressPrefix_append.
  unfold bind, try_catch, db_get_live, request, ret. rewrite Hf.
  cbn [db next_request]. rewrite Hlk.
  now destruct (match returnedCards fs !! x with
                | Some e => bool_decide (progressRev e = Some r)
                | None => false
                end).
Qed.

End Feed.

(** X28.  The change feed reports an entity once for the two changes of
    its two documents.  With nothing failing, when the change of a Card
    document and the change of its Progress document are handled one
    after the other, in either order, and the two revisions have not both
    been reported already, exactly one [card] event is emitted: the
    entity with its merged progress.  Afterwards both revisions are
    recorded as reported. *)
Theorem change_pair_reported_once
    (env : Pouch.Env) (tombstones : gset string) (x : string)
    (dc dp : Pouch.Stored) (fs : Changes.FeedState) (w : CardStore.Store) :
  (forall n, Pouch.faultAt env n = None) ->
  CardStore.db w !! String.append CardStore.CARD_PREFIX x = Some dc ->
  CardStore.db w !! String.append CardStore.PROGRESS_PREFIX x = Some dp ->
  Changes.returnedCards fs !! x
    <> Some (Changes.mkReturned (Pouch.rev dc) (Some (Pouch.rev dp))) ->
  let card := change_of (String.append CardStore.CARD_PREFIX x) dc in
  let progress := change_of (String.append CardStore.PROGRESS_PREFIX x) dp in
  let reported (fs' : Changes.FeedState) :=
    Changes.emitted fs' = Changes.emitted fs ++ [entity_event x dc dp]
    /\ Changes.returnedCards fs'
       = <[x := Changes.mkReturned (Pouch.rev dc) (Some (Pouch.rev dp))]>
           (Changes.returnedCards fs) in
  exists fs1 w1 fs2 w2,
    handle_both env tombstones card progress fs w = (Pouch.Ok fs1, w1)
    /\ reported fs1
    /\ handle_both env tombstones progress card fs w = (Pouch.Ok fs2, w2)
    /\ reported fs2.
Proof.
  intros Hnf Hc Hp Hnew card progress reported.
  unfold handle_both, CardStore.bind, card, progress, change_of.
  rewrite (onChange_card env tombstones x _ _ dp fs w (Hnf _) Hp).
  rewrite (onChange_progress env tombstones x _ _ dc fs w (Hnf _) Hc).
  rewrite (onChange_progress env tombstones x _ _ dc _ (CardStore.next_request w)
             (Hnf _) Hc).
  rewrite (onChange_card env tombstones x _ _ dp _ (CardStore.next_request w)
             (Hnf _) Hp).
  unfold reported, entity_event.
  destruct (Changes.returnedCards fs !! x) as [[rc rp]|] eqn:Hret;
    cbn [Changes.cardRev Changes.progressRev].
  - destruct (Nat.eqb_spec rc (Pouch.rev dc)) as [Erc | Erc];
      destruct (decide (rp = Some (Pouch.rev dp))) as [Erp | Erp].
    + subst. contradiction.
    + rewrite Hret. cbn [Changes.progressRev].
      rewrite (bool_decide_eq_false_2 _ Erp).
      cbn [Changes.returnedCards Changes.emitted].
      rewrite lookup_insert_eq. cbn [Changes.cardRev].
      rewrite Nat.eqb_refl. subst rc.
      eexists _, _, _, _. repeat split.
    + rewrite (bool_decide_eq_true_2 _ Erp).
      cbn [Changes.returnedCards Changes.emitted].
      rewrite lookup_insert_eq, Hret. cbn [Changes.cardRev Changes.progressRev].
      rewrite bool_decide_eq_true_2 by reflexivity.
      apply Nat.eqb_neq in Erc. rewrite Erc.
      eexists _, _, _, _. repeat split.
    + rewrite (bool_decide_eq_false_2 _ Erp).
      cbn [Changes.returnedCards Changes.emitted].
      rewrite !lookup_insert_eq. cbn [Changes.cardRev Changes.progressRev].
      rewrite bool_decide_eq_true_2 by reflexivity.
      rewrite Nat.eqb_refl.
      eexists _, _, _, _. repeat split.
  - cbn [Changes.returnedCards Changes.emitted].
    rewrite !lookup_insert_eq. cbn [Changes.cardRev Changes.progressRev].
    rewrite bool_decide_eq_true_2 by reflexivity.
    rewrite Nat.eqb_refl.
    eexists _, _, _, _. repeat split.
Qed.

Lemma change_pair_reported_once_witness :
  exists fs1 w1,
    handle_both env_quiet ∅
      (change_of "card-363z4we8007" (Pouch.mkStored 1 (Pouch.BCard card_QA) []))
      (change_of "progress-363z4we8007"
         (Pouch.mkStored 2 (Pouch.BProgress progress_new) []))
      (Changes.mkFeed ∅ []) after_create
    = (Pouch.Ok fs1, w1)
    /\ Changes.emitted fs1
       = [entity_event "363z4we8007"
            (Pouch.mkStored 1 (Pouch.BCard card_QA) [])
            (Pouch.mkStored 2 (Pouch.BProgress progress_new) [])].
Proof.
  destruct (change_pair_reported_once env_quiet ∅ "363z4we8007"
              (Pouch.mkStored 1 (Pouch.BCard card_QA) [])
              (Pouch.mkStored 2 (Pouch.BProgress progress_new) [])
              (Changes.mkFeed ∅ []) after_create)
    as (fs1 & w1 & _ & _ & Hrun & [Hemit _] & _).
  - reflexivity.
  - vm_compute. reflexivity.
  - vm_compute. reflexivity.
  - intros H. vm_compute in H. discriminate H.
  - exists fs1, w1. split; [exact Hrun | exact Hemit].
Defined.

(** X29.  A change whose other half is not in the database and was never
    deleted.  For a Card document without its Progress document the
    handler returns without emitting or recording anything, so that the
    entity is reported when the Progress document arrives.  For a
    Progress document without its Card document the handler does not
    return quietly: it rejects with the 404 of the read, and nothing is
    emitted or recorded. *)
Theorem change_without_other_half
    (env : Pouch.Env) (tombstones : gset string) (x : string)
    (r : nat) (b : Pouch.Body) (fs : Changes.FeedState) (w : CardStore.Store) :
  Pouch.faultAt env (CardStore.requests w) = None ->
  (CardStore.db w !! String.append CardStore.PROGRESS_PREFIX x = None ->
   String.append CardStore.PROGRESS_PREFIX x ∉ tombstones ->
   Changes.onChange env tombstones
     (Changes.mkChange (String.append CardStore.CARD_PREFIX x) r false b) fs w
   = (Pouch.Ok fs, CardStore.next_request w))
  /\ (CardStore.db w !! String.append CardStore.CARD_PREFIX x = None ->
      String.append CardStore.CARD_PREFIX x ∉ tombstones ->
      Changes.onChange env tombstones
        (Changes.mkChange (String.append CardStore.PROGRESS_PREFIX x) r false b) fs w
      = (Pouch.Throw Pouch.missing404, CardStore.next_request w)).
Proof.
  intros Hf. split; intros Hlk Htomb.
  - unfold Changes.onChange. cbn [Changes.ch_id Changes.ch_deleted].
    rewrite startsWith_append, stripCardPrefix_append.
    unfold CardStore.bind, CardStore.try_catch, Changes.db_get_live,
      CardStore.request, CardStore.ret.
    rewrite Hf. cbn [CardStore.db CardStore.next_request]. rewrite Hlk.
    rewrite (bool_decide_eq_false_2 _ Htomb). reflexivity.
  - unfold Changes.onChange. cbn [Changes.ch_id Changes.ch_deleted].
    rewrite startsWith_card_progress, startsWith_append, stripProgressPrefix_append.
    unfold CardStore.bind, CardStore.try_catch, Changes.db_get_live,
      CardStore.request, CardStore.ret.
    rewrite Hf. cbn [CardStore.db CardStore.next_request]. rewrite Hlk.
    rewrite (bool_decide_eq_false_2 _ Htomb). reflexivity.
Qed.

Lemma change_without_other_half_witness :
  Changes.onChange env_quiet ∅
    (Changes.mkChange "card-0abc" 6 false card_doc_1) (Changes.mkFeed ∅ [])
    conflicted_store
  = (Pouch.Ok (Changes.mkFeed ∅ []), CardStore.next_request conflicted_store).
Proof.
  apply (change_without_other_half env_quiet ∅ "0abc" 6 card_doc_1
           (Changes.mkFeed ∅ []) conflicted_store).
  - reflexivity.
  - vm_compute. reflexivity.
  - apply not_elem_of_empty.
Defined.

(** X30.  The deletion of an entity is reported once.  When the deletion
    of a Card document and the deletion of its Progress document are
    handled one after the other, in either order, and this revision of
    the card has not been reported already, exactly one [card] event is
    emitted, marked deleted and without progress.  The database is not
    read, so this holds whatever requests would fail. *)
Theorem removal_reported_once
    (env : Pouch.Env) (tombstones : gset string) (x : string)
    (rc rp : nat) (bc bp : Pouch.Body) (fs : Changes.FeedState)
    (w : CardStore.Store) :
  (forall e, Changes.returnedCards fs !! x = Some e -> Changes.cardRev e <> rc) ->
  let card := removal_of (String.append CardStore.CARD_PREFIX x) rc bc in
  let progress := removal_of (String.append CardStore.PROGRESS_PREFIX x) rp bp in
  let fs' :=
    Changes.mkFeed
      (<[x := Changes.mkReturned rc None]> (Changes.returnedCards fs))
      (Changes.emitted fs
       ++ [Changes.CardEvent (Changes.mkCardChange x bc None true)]) in
  handle_both env tombstones card progress fs w = (Pouch.Ok fs', w)
  /\ handle_both env tombstones progress card fs w = (Pouch.Ok fs', w).
Proof.
  intros Hnew card progress fs'.
  assert (Hret : match Changes.returnedCards fs !! x with
                 | Some e => Nat.eqb (Changes.cardRev e) rc
                 | None => false
                 end = false).
  { destruct (Changes.returnedCards fs !! x) as [e|] eqn:E; [|reflexivity].
    apply Nat.eqb_neq. now apply Hnew. }
  assert (Hcard : forall w0, Changes.onChange env tombstones card fs w0 = (Pouch.Ok fs', w0)).
  { intros w0. unfold Changes.onChange, Changes.alreadyReturnedCard, card, removal_of.
    cbn [Changes.ch_id Changes.ch_deleted Changes.ch_rev Changes.ch_body].
    rewrite startsWith_append, stripCardPrefix_append.
    unfold CardStore.bind, CardStore.ret. now rewrite Hret. }
  assert (Hprogress : forall fs0 w0,
             Changes.onChange env tombstones progress fs0 w0 = (Pouch.Ok fs0, w0)).
  { intros fs0 w0. unfold Changes.onChange, progress, removal_of.
    cbn [Changes.ch_id Changes.ch_deleted].
    now rewrite startsWith_card_progress, startsWith_append. }
  unfold handle_both, CardStore.bind.
  now rewrite Hcard, !Hprogress, Hcard.
Qed.

Lemma removal_reported_once_witness :
  handle_both env_quiet ∅
    (removal_of "card-0abc" 7 Pouch.BOther)
    (removal_of "progress-0abc" 8 Pouch.BOther)
    (Changes.mkFeed ∅ []) conflicted_store
  = (Pouch.Ok (Changes.mkFeed
                 (<["0abc"%string := Changes.mkReturned 7 None]> ∅)
                 [Changes.CardEvent
                    (Changes.mkCardChange "0abc" Pouch.BOther None true)]),
     conflicted_store).
Proof.
  apply (removal_reported_once env_quiet ∅ "0abc" 7 8 Pouch.BOther Pouch.BOther
           (Changes.mkFeed ∅ []) conflicted_store).
  intros e H. vm_compute in H. discriminate H.
Defined.
